(** * pgfuse: the FUSE operation layer of a PostgreSQL-backed filesystem

    A shallow embedding of [pgfuse.c].  The handlers ([pgfuse_getattr],
    [pgfuse_create], [pgfuse_write], ...) are translated statement by
    statement into a state monad with early return.  The database access
    layer ([pgsql.h]) and the connection pool ([pool.h]) are not part of
    [pgfuse.c]; the handlers are written against the interface [Pgsql], and
    one instance of it, [Spec.ops], is modelled from the specification. *)

From Stdlib Require Import ZArith Lia List Bool.
From Stdlib.Strings Require Import String Ascii Byte.
From stdpp Require Import base option list gmap strings.

Local Open Scope string_scope.
Local Open Scope Z_scope.

(** ** C integer types *)

Definition wrap_unsigned (w z : Z) : Z := z mod 2 ^ w.
Definition wrap_signed (w z : Z) : Z := (z + 2 ^ (w - 1)) mod 2 ^ w - 2 ^ (w - 1).

(** [int], [int64_t] / [off_t], [size_t] on the LP64 targets of FUSE. *)
Definition to_int : Z -> Z := wrap_signed 32.
Definition to_int64 : Z -> Z := wrap_signed 64.
Definition to_size_t : Z -> Z := wrap_unsigned 64.

Definition INT_MAX : Z := 2 ^ 31 - 1.

(** ** errno.h, sys/stat.h, fcntl.h (Linux values) *)

Definition EPERM : Z := 1.
Definition ENOENT : Z := 2.
Definition EIO : Z := 5.
Definition EBADF : Z := 9.
Definition ENOMEM : Z := 12.
Definition EEXIST : Z := 17.
Definition ENOTDIR : Z := 20.
Definition EISDIR : Z := 21.
Definition EINVAL : Z := 22.
Definition EROFS : Z := 30.
Definition ENOTEMPTY : Z := 39.

Definition S_IFMT : Z := 0xF000.   (* 0170000 *)
Definition S_IFDIR : Z := 0x4000.  (* 0040000 *)
Definition S_IFREG : Z := 0x8000.  (* 0100000 *)
Definition S_IFLNK : Z := 0xA000.  (* 0120000 *)

Definition S_ISDIR (m : Z) : bool := Z.land m S_IFMT =? S_IFDIR.
Definition S_ISREG (m : Z) : bool := Z.land m S_IFMT =? S_IFREG.
Definition S_ISLNK (m : Z) : bool := Z.land m S_IFMT =? S_IFLNK.

Definition O_ACCMODE : Z := 3.
Definition O_RDONLY : Z := 0.
Definition O_RDWR : Z := 2.

(** ** Data *)

Record timespec := { tv_sec : Z; tv_nsec : Z }.

(** [PgMeta] is declared in pgsql.h; the fields are the ones the handlers
    read and write.  The handlers use [size] in [size_t] arithmetic. *)
Record PgMeta := {
  size : Z;
  mode : Z;
  uid : Z;
  gid : Z;
  ctime : timespec;
  mtime : timespec;
  atime : timespec;
  parent_id : Z
}.

Definition set_size (v : Z) (m : PgMeta) : PgMeta :=
  {| size := v; mode := mode m; uid := uid m; gid := gid m;
     ctime := ctime m; mtime := mtime m; atime := atime m; parent_id := parent_id m |}.
Definition set_mode (v : Z) (m : PgMeta) : PgMeta :=
  {| size := size m; mode := v; uid := uid m; gid := gid m;
     ctime := ctime m; mtime := mtime m; atime := atime m; parent_id := parent_id m |}.
Definition set_uid (v : Z) (m : PgMeta) : PgMeta :=
  {| size := size m; mode := mode m; uid := v; gid := gid m;
     ctime := ctime m; mtime := mtime m; atime := atime m; parent_id := parent_id m |}.
Definition set_gid (v : Z) (m : PgMeta) : PgMeta :=
  {| size := size m; mode := mode m; uid := uid m; gid := v;
     ctime := ctime m; mtime := mtime m; atime := atime m; parent_id := parent_id m |}.
Definition set_ctime (v : timespec) (m : PgMeta) : PgMeta :=
  {| size := size m; mode := mode m; uid := uid m; gid := gid m;
     ctime := v; mtime := mtime m; atime := atime m; parent_id := parent_id m |}.
Definition set_mtime (v : timespec) (m : PgMeta) : PgMeta :=
  {| size := size m; mode := mode m; uid := uid m; gid := gid m;
     ctime := ctime m; mtime := v; atime := atime m; parent_id := parent_id m |}.
Definition set_atime (v : timespec) (m : PgMeta) : PgMeta :=
  {| size := size m; mode := mode m; uid := uid m; gid := gid m;
     ctime := ctime m; mtime := mtime m; atime := v; parent_id := parent_id m |}.

(** [struct stat], the fields the handlers fill. *)
Record stat := {
  st_ino : Z;
  st_mode : Z;
  st_nlink : Z;
  st_uid : Z;
  st_gid : Z;
  st_size : Z;
  st_blksize : Z;
  st_blocks : Z;
  st_atime : Z;
  st_mtime : Z;
  st_ctime : Z
}.

(** [memset( stbuf, 0, sizeof( struct stat ) )] *)
Definition stat_zero : stat :=
  {| st_ino := 0; st_mode := 0; st_nlink := 0; st_uid := 0; st_gid := 0;
     st_size := 0; st_blksize := 0; st_blocks := 0;
     st_atime := 0; st_mtime := 0; st_ctime := 0 |}.

(** [struct fuse_file_info], the fields the handlers use. *)
Record fuse_file_info := { flags : Z; fh : Z }.

Definition set_fh (v : Z) (fi : fuse_file_info) : fuse_file_info :=
  {| flags := flags fi; fh := v |}.

(** A database connection handle; [NULL] is [None]. *)
Definition PGconn := nat.

(** Modelled from the spec: pool.h and pool.c are not part of pgfuse.c.
    "A fixed-size pool of pre-opened database connections.  acquire either
    returns a connection or fails with an I/O error; release returns it."
    The pool is the list of its free connections; an acquire on an empty
    list stands for the failure (the source blocks there, and a blocked
    handler does not return). *)
Record PgConnPool := { avail : list PGconn }.

Definition psql_pool_acquire (pool : PgConnPool) : option PGconn * PgConnPool :=
  match avail pool with
  | c :: rest => (Some c, {| avail := rest |})
  | [] => (None, pool)
  end.

Definition psql_pool_release (pool : PgConnPool) (c : PGconn) : Z * PgConnPool :=
  (0, {| avail := c :: avail pool |}).

Record PgFuseData := {
  verbose : bool;
  conn : PGconn;
  pool : PgConnPool;
  read_only : bool;
  multi_threaded : bool;
  block_size : Z
}.

Definition set_pool (p : PgConnPool) (d : PgFuseData) : PgFuseData :=
  {| verbose := verbose d; conn := conn d; pool := p; read_only := read_only d;
     multi_threaded := multi_threaded d; block_size := block_size d |}.

(** What a handler does to the connection and its transaction, in order:
    a log kept by the model, to state in which order a handler acquires,
    begins, commits or rolls back, and releases.  [EvAbort] is the end of
    the process in [abort( )]. *)
Inductive Event :=
  | EvAcquire (c : PGconn)
  | EvBegin
  | EvCommit
  | EvRollback
  | EvRelease (c : PGconn)
  | EvAbort.

Global Instance Event_eq_dec : EqDecision Event.
Proof. solve_decision. Defined.

(** ** The database access layer, as pgfuse.c calls it (pgsql.h)

    Every function takes the connection's view of the database.  Reads
    return a result ([id] or a negative errno, and the record read);
    writes return a result and the new view. *)
Class Pgsql (Db : Type) := {
  psql_read_meta : Db -> Z -> string -> Z * PgMeta;
  psql_read_meta_from_path : Db -> string -> Z * PgMeta;
  psql_write_meta : Db -> Z -> string -> PgMeta -> Z * Db;
  psql_create_file : Db -> Z -> string -> string -> PgMeta -> Z * Db;
  psql_create_dir : Db -> Z -> string -> string -> PgMeta -> Z * Db;
  psql_delete_file : Db -> Z -> string -> Z * Db;
  psql_delete_dir : Db -> Z -> string -> Z * Db;
  psql_readdir : Db -> Z -> Z * list string;
  psql_read_buf : Db -> Z -> Z -> string -> list byte -> Z -> Z -> Z * list byte;
  psql_write_buf : Db -> Z -> Z -> string -> list byte -> Z -> Z -> Z * Db;
  psql_truncate : Db -> Z -> Z -> string -> Z -> Z * Db;
  psql_rename : Db -> Z -> Z -> Z -> string -> string -> string -> Z * Db
}.

(** ** libc: string.h and libgen.h

    A C string is a [string] without its terminating NUL. *)

Definition strlen (s : string) : Z := Z.of_nat (String.length s).

(** [strcmp( a, b ) == 0] *)
Definition strcmp_eq (a b : string) : bool := bool_decide (a = b).

Definition slash : ascii := "/"%char.
Definition is_slash (c : ascii) : bool := bool_decide (c = slash).

Fixpoint drop_slashes (r : list ascii) : list ascii :=
  match r with
  | c :: r' => if is_slash c then drop_slashes r' else r
  | [] => []
  end.

Fixpoint drop_name (r : list ascii) : list ascii :=
  match r with
  | c :: r' => if is_slash c then r else drop_name r'
  | [] => []
  end.

Fixpoint take_name (r : list ascii) : list ascii :=
  match r with
  | c :: r' => if is_slash c then [] else c :: take_name r'
  | [] => []
  end.

(** POSIX [dirname]: trailing slashes and the last component are removed,
    working from the end of the string. *)
Definition dirname (path : string) : string :=
  let r := drop_slashes (rev (list_ascii_of_string path)) in
  match list_ascii_of_string path, r with
  | [], _ => "."
  | _, [] => "/"
  | _, _ =>
      match drop_name r with
      | [] => "."
      | r' =>
          match drop_slashes r' with
          | [] => "/"
          | r'' => string_of_list_ascii (rev r'')
          end
      end
  end.

(** POSIX [basename]. *)
Definition basename (path : string) : string :=
  let r := drop_slashes (rev (list_ascii_of_string path)) in
  match list_ascii_of_string path, r with
  | [], _ => "."
  | _, [] => "/"
  | _, _ => string_of_list_ascii (rev (take_name r))
  end.

(** The body of [now( )], for the outcome of [gettimeofday]: seconds and
    microseconds, or [None] when it fails. *)
Definition timespec_of (t : option (Z * Z)) : timespec :=
  match t with
  | None => {| tv_sec := 0; tv_nsec := 0 |}
  | Some (sec, usec) => {| tv_sec := sec; tv_nsec := usec * 1000 |}
  end.

(** ** The process: FUSE context, clock, allocator, database *)

Record World (Db : Type) := {
  data : PgFuseData;            (* fuse_get_context( )->private_data *)
  context_uid : Z;              (* fuse_get_context( )->uid *)
  context_gid : Z;              (* fuse_get_context( )->gid *)
  timeofday : option (Z * Z);   (* gettimeofday: seconds and microseconds, None when it fails *)
  strdup_ok : list bool;        (* outcome of the next strdup calls; none left: they succeed *)
  db : Db;                      (* the committed database *)
  txn : option Db;              (* the view of the open transaction, if one is open *)
  trace : list Event            (* what happened to the connection, oldest first *)
}.

Arguments data {Db} _.
Arguments context_uid {Db} _.
Arguments context_gid {Db} _.
Arguments timeofday {Db} _.
Arguments strdup_ok {Db} _.
Arguments db {Db} _.
Arguments txn {Db} _.
Arguments trace {Db} _.

(** A handler either returns its [int] result or goes on with a value. *)
Inductive Step (A : Type) :=
  | Return (r : Z)
  | Continue (a : A).

Arguments Return {A} r.
Arguments Continue {A} a.

Section Handlers.

Context {Db : Type} `{!Pgsql Db}.

(** The state of a handler: the process and the object behind the
    handler's output pointer ([stbuf], [buf], [fi]). *)
Definition Handler (O A : Type) : Type := World Db * O -> Step A * (World Db * O).

Global Instance Handler_ret {O} : MRet (Handler O) :=
  fun A a s => (Continue a, s).

Global Instance Handler_bind {O} : MBind (Handler O) :=
  fun A B f m s =>
    match m s with
    | (Return r, s') => (Return r, s')
    | (Continue a, s') => f a s'
    end.

(** [return r;] *)
Definition return_ {O A} (r : Z) : Handler O A := fun s => (Return r, s).

Definition when {O} (b : bool) (h : Handler O unit) : Handler O unit :=
  if b then h else mret tt.

(** A handler body always ends in [return]. *)
Definition run {O} (h : Handler O Empty_set) (w : World Db) (o : O) : Z * World Db * O :=
  match h (w, o) with
  | (Return r, (w', o')) => (r, w', o')
  | (Continue a, _) => match a with end
  end.

Definition get_world {O} : Handler O (World Db) := fun s => (Continue (fst s), s).
Definition get_data {O} : Handler O PgFuseData := fun s => (Continue (data (fst s)), s).
Definition get_out {O} : Handler O O := fun s => (Continue (snd s), s).
Definition put_out {O} (o : O) : Handler O unit := fun s => (Continue tt, (fst s, o)).
Definition modify_world {O} (f : World Db -> World Db) : Handler O unit :=
  fun s => (Continue tt, (f (fst s), snd s)).

Definition with_data (d : PgFuseData) (w : World Db) : World Db :=
  {| data := d; context_uid := context_uid w; context_gid := context_gid w;
     timeofday := timeofday w; strdup_ok := strdup_ok w;
     db := db w; txn := txn w; trace := trace w |}.
Definition with_strdup_ok (l : list bool) (w : World Db) : World Db :=
  {| data := data w; context_uid := context_uid w; context_gid := context_gid w;
     timeofday := timeofday w; strdup_ok := l;
     db := db w; txn := txn w; trace := trace w |}.
Definition with_db (d : Db) (w : World Db) : World Db :=
  {| data := data w; context_uid := context_uid w; context_gid := context_gid w;
     timeofday := timeofday w; strdup_ok := strdup_ok w;
     db := d; txn := txn w; trace := trace w |}.
Definition with_txn (t : option Db) (w : World Db) : World Db :=
  {| data := data w; context_uid := context_uid w; context_gid := context_gid w;
     timeofday := timeofday w; strdup_ok := strdup_ok w;
     db := db w; txn := t; trace := trace w |}.
Definition with_event (e : Event) (w : World Db) : World Db :=
  {| data := data w; context_uid := context_uid w; context_gid := context_gid w;
     timeofday := timeofday w; strdup_ok := strdup_ok w;
     db := db w; txn := txn w; trace := (trace w ++ [e])%list |}.

(** What the connection sees: the open transaction, or the committed
    database when no transaction is open. *)
Definition view (w : World Db) : Db :=
  match txn w with
  | Some d => d
  | None => db w
  end.

Definition set_view (d : Db) (w : World Db) : World Db :=
  match txn w with
  | Some _ => with_txn (Some d) w
  | None => with_db d w
  end.

(** A read and a write of the database through connection [c]. *)
Definition query {O A} (c : PGconn) (f : Db -> A) : Handler O A :=
  fun s => (Continue (f (view (fst s))), s).

Definition update {O} (c : PGconn) (f : Db -> Z * Db) : Handler O Z :=
  fun s => let '(r, d) := f (view (fst s)) in (Continue r, (set_view d (fst s), snd s)).

(** *** Timestamp helper *)

Definition now {O} : Handler O timespec :=
  w ← get_world;
  mret (timespec_of (timeofday w)).

(** *** Pool helpers *)

Definition psql_acquire {O} : Handler O (option PGconn) :=
  data ← get_data;
  if negb (multi_threaded data) then
    modify_world (with_event (EvAcquire (conn data)));;
    mret (Some (conn data))
  else
    let '(c, p) := psql_pool_acquire (pool data) in
    modify_world (with_data (set_pool p data));;
    match c with
    | Some c' => modify_world (with_event (EvAcquire c'));; mret (Some c')
    | None => mret None
    end.

Definition psql_release {O} (c : PGconn) : Handler O Z :=
  data ← get_data;
  modify_world (with_event (EvRelease c));;
  if negb (multi_threaded data) then mret 0
  else
    let '(r, p) := psql_pool_release (pool data) c in
    modify_world (with_data (set_pool p data));;
    mret r.

Definition ACQUIRE {O} : Handler O PGconn :=
  c ← psql_acquire;
  match c with
  | None => return_ (- EIO)
  | Some c' => mret c'
  end.

Definition RELEASE {O} (c : PGconn) : Handler O unit :=
  r ← psql_release c;
  when (r <? 0) (return_ (- EIO)).

(** Modelled from the spec: the macros PSQL_BEGIN, PSQL_COMMIT and
    PSQL_ROLLBACK of pgsql.h.  "Transaction primitives begin, commit,
    rollback wrap the connection"; "a rolled-back transaction leaves no
    partial state".  A transaction works on a copy of the committed
    database; commit installs the copy, rollback drops it. *)
Definition PSQL_BEGIN {O} (c : PGconn) : Handler O unit :=
  modify_world (fun w => with_event EvBegin (with_txn (Some (view w)) w)).

Definition PSQL_COMMIT {O} (c : PGconn) : Handler O unit :=
  modify_world (fun w => with_event EvCommit (with_txn None (with_db (view w) w))).

Definition PSQL_ROLLBACK {O} (c : PGconn) : Handler O unit :=
  modify_world (fun w => with_event EvRollback (with_txn None w)).

(** [strdup]; [NULL] is [None]. *)
Definition strdup {O} (s : string) : Handler O (option string) :=
  w ← get_world;
  match strdup_ok w with
  | [] => mret (Some s)
  | ok :: rest =>
      modify_world (with_strdup_ok rest);;
      mret (if ok then Some s else None)
  end.

(** [if( p == NULL ) { ... return ...; }], after which [p] is used. *)
Definition not_null {O A} (p : option A) (h : Handler O A) : Handler O A :=
  match p with
  | Some a => mret a
  | None => h
  end.

(** A handler returns an int.  [NO_RETURN] is none: it stands for the
    result of a handler that does not return. *)
Definition NO_RETURN : Z := - 2 ^ 31 - 1.

(** [free( parent_path )] once [copy_path] has been freed.  [parent_path]
    is what [dirname( copy_path )] returned: a pointer into the block of
    [copy_path], or to a static string.  To free it is undefined in C; the
    allocator of glibc detects it and aborts the process.  The handler
    stops there and does not return, so that nothing behind the call runs:
    the trace ends in [EvAbort], and [run] gives [NO_RETURN]. *)
Definition free_dangling {O} : Handler O unit :=
  fun s => (Return NO_RETURN, (with_event EvAbort (fst s), snd s)).

(** *** Implementation of the FUSE hooks

    The syslog calls are left out.  [pgfuse_statfs], which reads the
    mount table of the host, follows the section. *)

Definition fill_stat (id : Z) (meta : PgMeta) (data : PgFuseData) (stbuf : stat) : stat :=
  {| st_ino := id;
     st_mode := mode meta;
     st_nlink := 1;
     st_uid := uid meta;
     st_gid := gid meta;
     st_size := to_int64 (size meta);
     st_blksize := to_int64 (block_size data);
     st_blocks := to_int64 (to_size_t (size meta + block_size data - 1) / block_size data);
     st_atime := st_atime stbuf;
     st_mtime := st_mtime stbuf;
     st_ctime := st_ctime stbuf |}.

Definition fill_stat_times (meta : PgMeta) (stbuf : stat) : stat :=
  {| st_ino := st_ino stbuf;
     st_mode := st_mode stbuf;
     st_nlink := st_nlink stbuf;
     st_uid := st_uid stbuf;
     st_gid := st_gid stbuf;
     st_size := st_size stbuf;
     st_blksize := st_blksize stbuf;
     st_blocks := st_blocks stbuf;
     st_atime := tv_sec (atime meta);
     st_mtime := tv_sec (mtime meta);
     st_ctime := tv_sec (ctime meta) |}.

Definition pgfuse_fgetattr (path : string) (fi : fuse_file_info) : Handler stat Empty_set :=
  data ← get_data;
  conn ← ACQUIRE;
  PSQL_BEGIN conn;;
  put_out stat_zero;;
  '(id, meta) ← query conn (fun d => psql_read_meta d (fh fi) path);
  when (id <? 0) (PSQL_ROLLBACK conn;; RELEASE conn;; return_ (to_int id));;
  stbuf ← get_out;
  put_out (fill_stat id meta data stbuf);;
  PSQL_COMMIT conn;; RELEASE conn;;
  return_ 0.

Definition pgfuse_getattr (path : string) : Handler stat Empty_set :=
  data ← get_data;
  conn ← ACQUIRE;
  PSQL_BEGIN conn;;
  put_out stat_zero;;
  '(id, meta) ← query conn (fun d => psql_read_meta_from_path d path);
  when (id <? 0) (PSQL_ROLLBACK conn;; RELEASE conn;; return_ (to_int id));;
  stbuf ← get_out;
  put_out (fill_stat_times meta (fill_stat id meta data stbuf));;
  PSQL_COMMIT conn;; RELEASE conn;;
  return_ 0.

Definition pgfuse_access (path : string) (mode' : Z) : Handler unit Empty_set :=
  return_ 0.

Definition pgfuse_create (path : string) (mode' : Z) : Handler fuse_file_info Empty_set :=
  data ← get_data;
  conn ← ACQUIRE;
  PSQL_BEGIN conn;;
  when (read_only data) (PSQL_ROLLBACK conn;; RELEASE conn;; return_ (- EROFS));;
  '(id, meta) ← query conn (fun d => psql_read_meta_from_path d path);
  when ((id <? 0) && negb (id =? - ENOENT))
    (PSQL_ROLLBACK conn;; RELEASE conn;; return_ (to_int id));;
  when (id >=? 0)
    (when (S_ISDIR (mode meta))
       (PSQL_ROLLBACK conn;; RELEASE conn;; return_ (- EISDIR));;
     PSQL_ROLLBACK conn;; RELEASE conn;; return_ (- EEXIST));;
  copy_path ← strdup path;
  copy_path ← not_null copy_path (PSQL_ROLLBACK conn;; RELEASE conn;; return_ (- ENOMEM));
  let parent_path := dirname copy_path in
  '(parent_id, meta) ← query conn (fun d => psql_read_meta_from_path d parent_path);
  when (parent_id <? 0) (PSQL_ROLLBACK conn;; RELEASE conn;; return_ (to_int parent_id));;
  when (negb (S_ISDIR (mode meta)))
    (PSQL_ROLLBACK conn;; RELEASE conn;; return_ (- ENOENT));;
  copy_path ← strdup path;
  copy_path ← not_null copy_path
    (free_dangling;; PSQL_ROLLBACK conn;; RELEASE conn;; return_ (- ENOMEM));
  let new_file := basename copy_path in
  w ← get_world;
  let meta := set_size 0 meta in
  let meta := set_mode mode' meta in
  let meta := set_uid (context_uid w) meta in
  let meta := set_gid (context_gid w) meta in
  t ← now;
  let meta := set_ctime t meta in
  let meta := set_mtime (ctime meta) meta in
  let meta := set_atime (ctime meta) meta in
  res ← update conn (fun d => psql_create_file d parent_id path new_file meta);
  when (res <? 0) (PSQL_ROLLBACK conn;; RELEASE conn;; return_ (to_int res));;
  '(id, meta) ← query conn (fun d => psql_read_meta_from_path d path);
  when (id <? 0) (PSQL_ROLLBACK conn;; RELEASE conn;; return_ (to_int res));;
  fi ← get_out;
  put_out (set_fh id fi);;
  PSQL_COMMIT conn;; RELEASE conn;;
  return_ (to_int res).

Definition pgfuse_open (path : string) : Handler fuse_file_info Empty_set :=
  data ← get_data;
  fi ← get_out;
  conn ← ACQUIRE;
  PSQL_BEGIN conn;;
  '(id, meta) ← query conn (fun d => psql_read_meta_from_path d path);
  when (id <? 0) (PSQL_ROLLBACK conn;; RELEASE conn;; return_ (to_int id));;
  when (S_ISDIR (mode meta)) (PSQL_ROLLBACK conn;; RELEASE conn;; return_ (- EISDIR));;
  when (read_only data)
    (when (negb (Z.land (flags fi) O_ACCMODE =? O_RDONLY))
       (PSQL_ROLLBACK conn;; RELEASE conn;; return_ (- EROFS)));;
  res ← update conn (fun d => psql_write_meta d id path meta);
  when (res <? 0) (PSQL_ROLLBACK conn;; RELEASE conn;; return_ (to_int res));;
  put_out (set_fh id fi);;
  PSQL_COMMIT conn;; RELEASE conn;;
  return_ 0.

Definition pgfuse_opendir (path : string) (fi : fuse_file_info) : Handler unit Empty_set :=
  return_ 0.

(** The output is the list of names passed to [filler]. *)
Definition pgfuse_readdir (path : string) (offset : Z) (fi : fuse_file_info)
  : Handler (list string) Empty_set :=
  conn ← ACQUIRE;
  PSQL_BEGIN conn;;
  buf ← get_out;
  put_out (buf ++ ["."; ".."])%list;;
  '(id, meta) ← query conn (fun d => psql_read_meta_from_path d path);
  let id := to_int id in
  when (id <? 0) (PSQL_ROLLBACK conn;; RELEASE conn;; return_ id);;
  '(res, names) ← query conn (fun d => psql_readdir d id);
  buf ← get_out;
  put_out (buf ++ names)%list;;
  let res := to_int res in
  when (res <? 0) (PSQL_ROLLBACK conn;; RELEASE conn;; return_ res);;
  PSQL_COMMIT conn;; RELEASE conn;;
  return_ 0.

Definition pgfuse_releasedir (path : string) (fi : fuse_file_info) : Handler unit Empty_set :=
  return_ 0.

Definition pgfuse_fsyncdir (path : string) (datasync : Z) (fi : fuse_file_info)
  : Handler unit Empty_set :=
  return_ 0.

Definition pgfuse_mkdir (path : string) (mode' : Z) : Handler unit Empty_set :=
  data ← get_data;
  conn ← ACQUIRE;
  PSQL_BEGIN conn;;
  when (read_only data) (PSQL_ROLLBACK conn;; RELEASE conn;; return_ (- EROFS));;
  copy_path ← strdup path;
  copy_path ← not_null copy_path (PSQL_ROLLBACK conn;; RELEASE conn;; return_ (- ENOMEM));
  let parent_path := dirname copy_path in
  '(parent_id, meta) ← query conn (fun d => psql_read_meta_from_path d parent_path);
  when (parent_id <? 0) (PSQL_ROLLBACK conn;; RELEASE conn;; return_ (to_int parent_id));;
  when (negb (S_ISDIR (mode meta)))
    (PSQL_ROLLBACK conn;; RELEASE conn;; return_ (- ENOENT));;
  copy_path ← strdup path;
  copy_path ← not_null copy_path
    (free_dangling;; PSQL_ROLLBACK conn;; RELEASE conn;; return_ (- ENOMEM));
  let new_dir := basename copy_path in
  w ← get_world;
  let meta := set_size 0 meta in
  let meta := set_mode (Z.lor mode' S_IFDIR) meta in
  let meta := set_uid (context_uid w) meta in
  let meta := set_gid (context_gid w) meta in
  t ← now;
  let meta := set_ctime t meta in
  let meta := set_mtime (ctime meta) meta in
  let meta := set_atime (ctime meta) meta in
  res ← update conn (fun d => psql_create_dir d parent_id path new_dir meta);
  let res := to_int res in
  when (res <? 0) (PSQL_ROLLBACK conn;; RELEASE conn;; return_ res);;
  PSQL_COMMIT conn;; RELEASE conn;;
  return_ 0.

Definition pgfuse_rmdir (path : string) : Handler unit Empty_set :=
  data ← get_data;
  conn ← ACQUIRE;
  PSQL_BEGIN conn;;
  '(id, meta) ← query conn (fun d => psql_read_meta_from_path d path);
  when (id <? 0) (PSQL_ROLLBACK conn;; RELEASE conn;; return_ (to_int id));;
  when (negb (S_ISDIR (mode meta)))
    (PSQL_ROLLBACK conn;; RELEASE conn;; return_ (- ENOTDIR));;
  when (read_only data) (PSQL_ROLLBACK conn;; RELEASE conn;; return_ (- EROFS));;
  res ← update conn (fun d => psql_delete_dir d id path);
  let res := to_int res in
  when (res <? 0) (PSQL_ROLLBACK conn;; RELEASE conn;; return_ res);;
  PSQL_COMMIT conn;; RELEASE conn;;
  return_ 0.

Definition pgfuse_unlink (path : string) : Handler unit Empty_set :=
  data ← get_data;
  conn ← ACQUIRE;
  PSQL_BEGIN conn;;
  '(id, meta) ← query conn (fun d => psql_read_meta_from_path d path);
  when (id <? 0) (PSQL_ROLLBACK conn;; RELEASE conn;; return_ (to_int id));;
  when (S_ISDIR (mode meta)) (PSQL_ROLLBACK conn;; RELEASE conn;; return_ (- EPERM));;
  when (read_only data) (PSQL_ROLLBACK conn;; RELEASE conn;; return_ (- EROFS));;
  res ← update conn (fun d => psql_delete_file d id path);
  let res := to_int res in
  when (res <? 0) (PSQL_ROLLBACK conn;; RELEASE conn;; return_ res);;
  PSQL_COMMIT conn;; RELEASE conn;;
  return_ 0.

Definition pgfuse_flush (path : string) (fi : fuse_file_info) : Handler unit Empty_set :=
  return_ 0.

Definition pgfuse_fsync (path : string) (isdatasync : Z) (fi : fuse_file_info)
  : Handler unit Empty_set :=
  data ← get_data;
  when (read_only data) (return_ (- EROFS));;
  when (fh fi =? 0) (return_ (- EBADF));;
  return_ 0.

Definition pgfuse_release (path : string) (fi : fuse_file_info) : Handler unit Empty_set :=
  return_ 0.

Definition pgfuse_write (path : string) (buf : list byte) (size' : Z) (offset : Z)
    (fi : fuse_file_info) : Handler unit Empty_set :=
  data ← get_data;
  conn ← ACQUIRE;
  PSQL_BEGIN conn;;
  when (fh fi =? 0) (PSQL_ROLLBACK conn;; RELEASE conn;; return_ (- EBADF));;
  when (read_only data) (PSQL_ROLLBACK conn;; RELEASE conn;; return_ (- EBADF));;
  '(tmp, meta) ← query conn (fun d => psql_read_meta d (fh fi) path);
  when (tmp <? 0) (PSQL_ROLLBACK conn;; RELEASE conn;; return_ (to_int tmp));;
  let meta :=
    if to_size_t (offset + size') >? to_size_t (size meta)
    then set_size (to_size_t (offset + size')) meta
    else meta in
  res ← update conn (fun d => psql_write_buf d (block_size data) (fh fi) path buf offset size');
  let res := to_int res in
  when (res <? 0) (PSQL_ROLLBACK conn;; RELEASE conn;; return_ res);;
  when (negb (to_size_t res =? size')) (PSQL_ROLLBACK conn;; RELEASE conn;; return_ (- EIO));;
  res ← update conn (fun d => psql_write_meta d (fh fi) path meta);
  let res := to_int res in
  when (res <? 0) (PSQL_ROLLBACK conn;; RELEASE conn;; return_ res);;
  PSQL_COMMIT conn;; RELEASE conn;;
  return_ (to_int size').

(** The output is the caller's buffer [buf]. *)
Definition pgfuse_read (path : string) (size' : Z) (offset : Z) (fi : fuse_file_info)
  : Handler (list byte) Empty_set :=
  data ← get_data;
  conn ← ACQUIRE;
  PSQL_BEGIN conn;;
  when (fh fi =? 0) (PSQL_ROLLBACK conn;; RELEASE conn;; return_ (- EBADF));;
  buf ← get_out;
  '(res, buf) ← query conn (fun d => psql_read_buf d (block_size data) (fh fi) path buf offset size');
  put_out buf;;
  let res := to_int res in
  when (res <? 0) (PSQL_ROLLBACK conn;; RELEASE conn;; return_ res);;
  PSQL_COMMIT conn;; RELEASE conn;;
  return_ res.

Definition pgfuse_truncate (path : string) (offset : Z) : Handler unit Empty_set :=
  data ← get_data;
  conn ← ACQUIRE;
  PSQL_BEGIN conn;;
  '(id, meta) ← query conn (fun d => psql_read_meta_from_path d path);
  when (id <? 0) (PSQL_ROLLBACK conn;; RELEASE conn;; return_ (to_int id));;
  when (S_ISDIR (mode meta)) (PSQL_ROLLBACK conn;; RELEASE conn;; return_ (- EISDIR));;
  when (read_only data) (PSQL_ROLLBACK conn;; RELEASE conn;; return_ (- EROFS));;
  res ← update conn (fun d => psql_truncate d (block_size data) id path offset);
  let res := to_int res in
  when (res <? 0) (PSQL_ROLLBACK conn;; RELEASE conn;; return_ res);;
  let meta := set_size offset meta in
  res ← update conn (fun d => psql_write_meta d id path meta);
  let res := to_int res in
  when (res <? 0) (PSQL_ROLLBACK conn;; RELEASE conn;; return_ res);;
  PSQL_COMMIT conn;; RELEASE conn;;
  return_ 0.

Definition pgfuse_ftruncate (path : string) (offset : Z) (fi : fuse_file_info)
  : Handler unit Empty_set :=
  data ← get_data;
  conn ← ACQUIRE;
  PSQL_BEGIN conn;;
  when (fh fi =? 0) (PSQL_ROLLBACK conn;; RELEASE conn;; return_ (- EBADF));;
  '(id, meta) ← query conn (fun d => psql_read_meta d (fh fi) path);
  when (id <? 0) (PSQL_ROLLBACK conn;; RELEASE conn;; return_ (to_int id));;
  when (read_only data) (PSQL_ROLLBACK conn;; RELEASE conn;; return_ (- EROFS));;
  res ← update conn (fun d => psql_truncate d (block_size data) (fh fi) path offset);
  let res := to_int res in
  when (res <? 0) (PSQL_ROLLBACK conn;; RELEASE conn;; return_ res);;
  let meta := set_size offset meta in
  res ← update conn (fun d => psql_write_meta d (fh fi) path meta);
  let res := to_int res in
  when (res <? 0) (PSQL_ROLLBACK conn;; RELEASE conn;; return_ res);;
  PSQL_COMMIT conn;; RELEASE conn;;
  return_ 0.

Definition pgfuse_chmod (path : string) (mode' : Z) : Handler unit Empty_set :=
  data ← get_data;
  conn ← ACQUIRE;
  PSQL_BEGIN conn;;
  '(id, meta) ← query conn (fun d => psql_read_meta_from_path d path);
  when (id <? 0) (PSQL_ROLLBACK conn;; RELEASE conn;; return_ (to_int id));;
  when (read_only data) (PSQL_ROLLBACK conn;; RELEASE conn;; return_ (- EROFS));;
  let meta := set_mode mode' meta in
  res ← update conn (fun d => psql_write_meta d id path meta);
  let res := to_int res in
  when (res <? 0) (PSQL_ROLLBACK conn;; RELEASE conn;; return_ res);;
  PSQL_COMMIT conn;; RELEASE conn;;
  return_ 0.

Definition pgfuse_chown (path : string) (uid' gid' : Z) : Handler unit Empty_set :=
  data ← get_data;
  conn ← ACQUIRE;
  PSQL_BEGIN conn;;
  '(id, meta) ← query conn (fun d => psql_read_meta_from_path d path);
  when (id <? 0) (PSQL_ROLLBACK conn;; RELEASE conn;; return_ (to_int id));;
  when (read_only data) (PSQL_ROLLBACK conn;; RELEASE conn;; return_ (- EROFS));;
  let meta := set_uid uid' meta in
  let meta := set_gid gid' meta in
  res ← update conn (fun d => psql_write_meta d id path meta);
  let res := to_int res in
  when (res <? 0) (PSQL_ROLLBACK conn;; RELEASE conn;; return_ res);;
  PSQL_COMMIT conn;; RELEASE conn;;
  return_ res.

Definition pgfuse_symlink (from to : string) : Handler unit Empty_set :=
  data ← get_data;
  conn ← ACQUIRE;
  PSQL_BEGIN conn;;
  copy_to ← strdup to;
  copy_to ← not_null copy_to (PSQL_ROLLBACK conn;; RELEASE conn;; return_ (- ENOMEM));
  let parent_path := dirname copy_to in
  '(parent_id, meta) ← query conn (fun d => psql_read_meta_from_path d parent_path);
  when (parent_id <? 0) (PSQL_ROLLBACK conn;; RELEASE conn;; return_ (to_int parent_id));;
  when (negb (S_ISDIR (mode meta)))
    (PSQL_ROLLBACK conn;; RELEASE conn;; return_ (- ENOENT));;
  copy_to ← strdup to;
  copy_to ← not_null copy_to (PSQL_ROLLBACK conn;; RELEASE conn;; return_ (- ENOMEM));
  when (read_only data) (PSQL_ROLLBACK conn;; RELEASE conn;; return_ (- EROFS));;
  let symlink := basename copy_to in
  w ← get_world;
  let meta := set_size (strlen from) meta in
  let meta := set_mode (Z.lor 0x1FF S_IFLNK) meta in      (* 0777 | S_IFLNK *)
  let meta := set_uid (context_uid w) meta in
  let meta := set_gid (context_gid w) meta in
  t ← now;
  let meta := set_ctime t meta in
  let meta := set_mtime (ctime meta) meta in
  let meta := set_atime (ctime meta) meta in
  res ← update conn (fun d => psql_create_file d parent_id to symlink meta);
  let res := to_int res in
  when (res <? 0) (PSQL_ROLLBACK conn;; RELEASE conn;; return_ res);;
  '(id, meta) ← query conn (fun d => psql_read_meta_from_path d to);
  when (id <? 0) (PSQL_ROLLBACK conn;; RELEASE conn;; return_ (to_int id));;
  res ← update conn (fun d =>
           psql_write_buf d (block_size data) id to (list_byte_of_string from) 0 (strlen from));
  let res := to_int res in
  when (res <? 0) (PSQL_ROLLBACK conn;; RELEASE conn;; return_ res);;
  when (negb (to_size_t res =? strlen from))
    (PSQL_ROLLBACK conn;; RELEASE conn;; return_ (- EIO));;
  PSQL_COMMIT conn;; RELEASE conn;;
  return_ 0.

Definition pgfuse_rename (from to : string) : Handler unit Empty_set :=
  data ← get_data;
  conn ← ACQUIRE;
  PSQL_BEGIN conn;;
  '(from_id, from_meta) ← query conn (fun d => psql_read_meta_from_path d from);
  when (from_id <? 0) (return_ (to_int from_id));;
  '(to_id, to_meta) ← query conn (fun d => psql_read_meta_from_path d to);
  when ((to_id <? 0) && negb (to_id =? - ENOENT)) (return_ (to_int to_id));;
  when (to_id >? 0)
    (when (S_ISREG (mode to_meta))
       (if strcmp_eq from to then return_ 0 else return_ (- EEXIST));;
     return_ (- EINVAL));;
  copy_to ← strdup to;
  copy_to ← not_null copy_to (PSQL_ROLLBACK conn;; RELEASE conn;; return_ (- ENOMEM));
  let parent_path := dirname copy_to in
  '(to_parent_id, to_parent_meta) ← query conn (fun d => psql_read_meta_from_path d parent_path);
  when (to_parent_id <? 0)
    (PSQL_ROLLBACK conn;; RELEASE conn;; return_ (to_int to_parent_id));;
  when (negb (S_ISDIR (mode to_parent_meta)))
    (PSQL_ROLLBACK conn;; RELEASE conn;; return_ (- EIO));;
  copy_to ← strdup to;
  copy_to ← not_null copy_to (PSQL_ROLLBACK conn;; RELEASE conn;; return_ (- ENOMEM));
  when (read_only data) (PSQL_ROLLBACK conn;; RELEASE conn;; return_ (- EROFS));;
  let rename_to := basename copy_to in
  res ← update conn (fun d =>
           psql_rename d from_id (parent_id from_meta) to_parent_id rename_to from to);
  let res := to_int res in
  PSQL_COMMIT conn;; RELEASE conn;;
  return_ res.

(** The output is the caller's buffer [buf], of [size'] bytes. *)
Definition pgfuse_readlink (path : string) (size' : Z) : Handler (list byte) Empty_set :=
  data ← get_data;
  conn ← ACQUIRE;
  PSQL_BEGIN conn;;
  '(id, meta) ← query conn (fun d => psql_read_meta_from_path d path);
  when (id <? 0) (PSQL_ROLLBACK conn;; RELEASE conn;; return_ (to_int id));;
  when (negb (S_ISLNK (mode meta)))
    (PSQL_ROLLBACK conn;; RELEASE conn;; return_ (- ENOENT));;
  when (size' <? to_size_t (size meta + 1))
    (PSQL_ROLLBACK conn;; RELEASE conn;; return_ (- ENOMEM));;
  buf ← get_out;
  '(res, buf) ← query conn (fun d => psql_read_buf d (block_size data) id path buf 0 (size meta));
  put_out buf;;
  let res := to_int res in
  when (res <? 0) (PSQL_ROLLBACK conn;; RELEASE conn;; return_ res);;
  put_out (<[Z.to_nat (size meta) := x00]> buf);;
  PSQL_COMMIT conn;; RELEASE conn;;
  return_ 0.

Definition pgfuse_utimens (path : string) (tv0 tv1 : timespec) : Handler unit Empty_set :=
  data ← get_data;
  conn ← ACQUIRE;
  PSQL_BEGIN conn;;
  '(id, meta) ← query conn (fun d => psql_read_meta_from_path d path);
  when (id <? 0) (PSQL_ROLLBACK conn;; RELEASE conn;; return_ (to_int id));;
  let meta := set_atime tv0 meta in
  let meta := set_mtime tv1 meta in
  res ← update conn (fun d => psql_write_meta d id path meta);
  let res := to_int res in
  when (res <? 0) (PSQL_ROLLBACK conn;; RELEASE conn;; return_ res);;
  PSQL_COMMIT conn;; RELEASE conn;;
  return_ 0.

End Handlers.

(** ** Free space: [pgfuse_statfs]

    The handler asks the database for its tablespace directories and its
    use of blocks and inodes, and the host for its mount table and the free
    space of the mounted filesystems. *)

Definition INT64_MAX : Z := 2 ^ 63 - 1.
Definition ST_RDONLY : Z := 1.

(** [struct statvfs], all of whose fields are unsigned long. *)
Record statvfs := {
  f_bsize : Z;
  f_frsize : Z;
  f_blocks : Z;
  f_bfree : Z;
  f_bavail : Z;
  f_files : Z;
  f_ffree : Z;
  f_favail : Z;
  f_fsid : Z;
  f_flag : Z;
  f_namemax : Z
}.

(** [memset( buf, 0, sizeof( struct statvfs ) )] *)
Definition statvfs_zero : statvfs :=
  {| f_bsize := 0; f_frsize := 0; f_blocks := 0; f_bfree := 0; f_bavail := 0;
     f_files := 0; f_ffree := 0; f_favail := 0; f_fsid := 0; f_flag := 0; f_namemax := 0 |}.

(** sys/vfs.h: the fields of [struct statfs] that the handler reads; the
    two counts are unsigned long and [f_frsize] is long on these targets. *)
Module Vfs.
Record statfs := { f_bfree : Z; f_bavail : Z; f_frsize : Z }.
End Vfs.

(** The host: [realpath], the [mnt_dir] of the entries of the mount table
    in the order of [getmntent_r] ([None] for NULL), and [statfs].  The
    mount table is taken to open: the handler does not test the result of
    [setmntent]. *)
Record Host := {
  realpath : string -> option string;
  mtab : list (option string);
  statfs : string -> Z * Vfs.statfs
}.

(** The functions of pgsql.h that only [pgfuse_statfs] calls: the
    tablespace directories (for the capacity of the caller's array: the
    result and the directories), the blocks in use and the inodes in use. *)
Class PgsqlFs (Db : Type) := {
  psql_get_tablespace_locations : Db -> Z -> Z * list string;
  psql_get_fs_blocks_used : Db -> Z;
  psql_get_fs_files_used : Db -> Z
}.

(** [strdup], on the outcomes of the next calls of the allocator. *)
Definition strdup_with (allocs : list bool) (s : string) : option string * list bool :=
  match allocs with
  | [] => (Some s, [])
  | ok :: rest => (if ok then Some s else None, rest)
  end.

(** The variables of the loop over the mount table. *)
Record Search := {
  prefix : option string;
  prefix_len : Z;
  blocks_free : Z;
  blocks_avail : Z;
  allocs : list bool
}.

(** The loop over the tablespace locations, for one mount point:
    [strncmp( mnt_dir, location, strlen( mnt_dir ) ) == 0] says that
    [mnt_dir] is a prefix of the location. *)
Fixpoint match_locations (mnt_dir : string) (location : list string) (st : Search) : Search :=
  match location with
  | [] => st
  | loc :: rest =>
      match_locations mnt_dir rest
        (if String.prefix mnt_dir loc
            && (to_size_t (strlen mnt_dir) >? to_size_t (prefix_len st))
         then
           let '(p, rest_allocs) := strdup_with (allocs st) mnt_dir in
           {| prefix := p; prefix_len := to_int (strlen mnt_dir);
              blocks_free := INT64_MAX; blocks_avail := INT64_MAX; allocs := rest_allocs |}
         else st)
  end.

(** One of the two comparisons of the loop, in unsigned long as C
    converts the operands: the free bytes of the mount against the blocks
    found so far. *)
Definition smaller_of (blocks frsize B found : Z) : Z :=
  if to_size_t (blocks * frsize) <? to_size_t (found * B)
  then to_int64 (to_size_t (blocks * frsize) / B)
  else found.

(** The loop over the mount table: the error of [statfs], with which the
    handler returns, or the free and the available blocks; and what is
    left of the outcomes of the allocator. *)
Fixpoint mtab_loop (host : Host) (B : Z) (location : list string) (entries : list (option string))
    (free avail : Z) (al : list bool) : (Z + Z * Z) * list bool :=
  match entries with
  | [] => (inr (free, avail), al)
  | None :: rest => mtab_loop host B location rest free avail al
  | Some mnt_dir :: rest =>
      let st := match_locations mnt_dir location
                  {| prefix := None; prefix_len := 0;
                     blocks_free := free; blocks_avail := avail; allocs := al |} in
      match prefix st with
      | None => mtab_loop host B location rest (blocks_free st) (blocks_avail st) (allocs st)
      | Some p =>
          let '(res, fs) := statfs host p in
          let res := to_int res in
          if res <? 0 then (inl res, allocs st)
          else
            mtab_loop host B location rest
              (smaller_of (Vfs.f_bfree fs) (Vfs.f_frsize fs) B (blocks_free st))
              (smaller_of (Vfs.f_bavail fs) (Vfs.f_frsize fs) B (blocks_avail st))
              (allocs st)
      end
  end.

(** [realpath] of a location, which stays as it is when that fails. *)
Definition resolve (host : Host) (old_path : string) : string :=
  match realpath host old_path with
  | None => old_path
  | Some new_path => new_path
  end.

Section Statfs.

Context {Db : Type} `{!PgsqlFs Db}.

(** config.h, which is not part of pgfuse.c. *)
Variable MAX_TABLESPACE_OIDS : Z.
Variable MAX_FILENAME_LENGTH : Z.

(** The sums of the signed 64-bit counters are taken to wrap around when
    they overflow, which C leaves undefined. *)
Definition pgfuse_statfs (host : Host) (path : string) : Handler (Db := Db) statvfs Empty_set :=
  data ← get_data;
  put_out statvfs_zero;;
  conn ← ACQUIRE;
  PSQL_BEGIN conn;;
  '(res, location) ← query conn (fun d => psql_get_tablespace_locations d MAX_TABLESPACE_OIDS);
  let res := to_int res in
  when (res <? 0) (return_ res);;
  let location := map (resolve host) location in
  w ← get_world;
  let '(found, rest_allocs) :=
    mtab_loop host (block_size data) location (mtab host) INT64_MAX INT64_MAX (strdup_ok w) in
  modify_world (with_strdup_ok rest_allocs);;
  '(blocks_free, blocks_avail) ←
    match found with
    | inl res => return_ res
    | inr blocks => mret blocks
    end;
  blocks_used ← query conn psql_get_fs_blocks_used;
  when (blocks_used <? 0) (PSQL_ROLLBACK conn;; RELEASE conn;; return_ (to_int blocks_used));;
  let blocks_total := to_int64 (blocks_avail + blocks_used) in
  let blocks_free := blocks_avail in
  let files_free := INT64_MAX in
  files_used ← query conn psql_get_fs_files_used;
  when (files_used <? 0) (PSQL_ROLLBACK conn;; RELEASE conn;; return_ (to_int files_used));;
  let files_total := to_int64 (files_free + files_used) in
  let files_avail := files_free in
  buf ← get_out;
  put_out
    {| f_bsize := to_size_t (block_size data);
       f_frsize := to_size_t (block_size data);
       f_blocks := to_size_t blocks_total;
       f_bfree := to_size_t blocks_free;
       f_bavail := to_size_t blocks_avail;
       f_files := to_size_t files_total;
       f_ffree := to_size_t files_free;
       f_favail := to_size_t files_avail;
       f_fsid := 0x4FE3A364;
       f_flag := if read_only data then Z.lor (f_flag buf) ST_RDONLY else f_flag buf;
       f_namemax := to_size_t MAX_FILENAME_LENGTH |};;
  PSQL_COMMIT conn;; RELEASE conn;;
  return_ 0.

End Statfs.

(** A mount point that the loop takes for a tablespace location: not
    empty, and a prefix of one of the locations. *)
Definition holds_location (mnt_dir : string) (location : list string) : bool :=
  (0 <? strlen mnt_dir) && existsb (String.prefix mnt_dir) location.

(** ** Command line

    [pgfuse_opt_proc] is the callback that [fuse_opt_parse] calls for every
    argument; the result -1 is an error, 0 drops the argument and 1 keeps
    it for FUSE.  Only the options are modelled, not the parser of libfuse. *)

(** fuse_opt.h *)
Definition FUSE_OPT_KEY_OPT : Z := -1.
Definition FUSE_OPT_KEY_NONOPT : Z := -2.

(** The keys of pgfuse.c. *)
Definition KEY_HELP : Z := 0.
Definition KEY_VERBOSE : Z := 1.
Definition KEY_VERSION : Z := 2.

Module Options.

Record PgFuseOptions := {
  print_help : bool;
  print_version : bool;
  verbose : bool;
  conninfo : option string;     (* NULL is None *)
  mountpoint : option string;
  read_only : bool;
  multi_threaded : bool;
  block_size : Z
}.

Definition set_print_help (v : bool) (o : PgFuseOptions) : PgFuseOptions :=
  {| print_help := v; print_version := print_version o; verbose := verbose o;
     conninfo := conninfo o; mountpoint := mountpoint o; read_only := read_only o;
     multi_threaded := multi_threaded o; block_size := block_size o |}.
Definition set_print_version (v : bool) (o : PgFuseOptions) : PgFuseOptions :=
  {| print_help := print_help o; print_version := v; verbose := verbose o;
     conninfo := conninfo o; mountpoint := mountpoint o; read_only := read_only o;
     multi_threaded := multi_threaded o; block_size := block_size o |}.
Definition set_verbose (v : bool) (o : PgFuseOptions) : PgFuseOptions :=
  {| print_help := print_help o; print_version := print_version o; verbose := v;
     conninfo := conninfo o; mountpoint := mountpoint o; read_only := read_only o;
     multi_threaded := multi_threaded o; block_size := block_size o |}.
Definition set_conninfo (v : option string) (o : PgFuseOptions) : PgFuseOptions :=
  {| print_help := print_help o; print_version := print_version o; verbose := verbose o;
     conninfo := v; mountpoint := mountpoint o; read_only := read_only o;
     multi_threaded := multi_threaded o; block_size := block_size o |}.
Definition set_mountpoint (v : option string) (o : PgFuseOptions) : PgFuseOptions :=
  {| print_help := print_help o; print_version := print_version o; verbose := verbose o;
     conninfo := conninfo o; mountpoint := v; read_only := read_only o;
     multi_threaded := multi_threaded o; block_size := block_size o |}.
Definition set_multi_threaded (v : bool) (o : PgFuseOptions) : PgFuseOptions :=
  {| print_help := print_help o; print_version := print_version o; verbose := verbose o;
     conninfo := conninfo o; mountpoint := mountpoint o; read_only := read_only o;
     multi_threaded := v; block_size := block_size o |}.

End Options.

(** The options and the result; [ok] is whether [strdup] succeeds, should
    it be called. *)
Definition pgfuse_opt_proc (pgfuse : Options.PgFuseOptions) (arg : string) (key : Z) (ok : bool)
  : Z * Options.PgFuseOptions :=
  if key =? FUSE_OPT_KEY_OPT then
    (1, if strcmp_eq arg "-s" then Options.set_multi_threaded false pgfuse else pgfuse)
  else if key =? FUSE_OPT_KEY_NONOPT then
    match Options.conninfo pgfuse with
    | None => (0, Options.set_conninfo (if ok then Some arg else None) pgfuse)
    | Some _ =>
        match Options.mountpoint pgfuse with
        | None => (1, Options.set_mountpoint (if ok then Some arg else None) pgfuse)
        | Some _ => (-1, pgfuse)
        end
    end
  else if key =? KEY_HELP then (-1, Options.set_print_help true pgfuse)
  else if key =? KEY_VERBOSE then (0, Options.set_verbose true pgfuse)
  else if key =? KEY_VERSION then (-1, Options.set_print_version true pgfuse)
  else (-1, pgfuse).

(** The options as [main] sets them before parsing: all zero, except
    [multi_threaded] and the block size, for which config.h has the default. *)
Definition options_of_main (DEFAULT_BLOCK_SIZE : Z) : Options.PgFuseOptions :=
  {| Options.print_help := false; Options.print_version := false; Options.verbose := false;
     Options.conninfo := None; Options.mountpoint := None; Options.read_only := false;
     Options.multi_threaded := true; Options.block_size := DEFAULT_BLOCK_SIZE |}.

(** ** The database access layer, modelled from the specification

    pgsql.c is not part of pgfuse.c.  The definitions of this module follow
    sections 3, 4.1 and 4.3 of the specification. *)
Module Spec.

(** Modelled from the spec: one row of the inode table (pgsql.c is
    missing).  "Attributes: a stable 64-bit id; a parent_id; a name (the
    last path component, unique within a parent); a mode; uid, gid; size;
    three timestamps".  The parent id is the [parent_id] of [row_meta]. *)
Record DirRow := { row_id : Z; row_name : string; row_meta : PgMeta }.

(** Modelled from the spec: the inode table and the block table, the
    latter "keyed by (inode_id, block_no)" (pgsql.c is missing). *)
Record Database := {
  dir : list DirRow;
  blocks : gmap (Z * Z) (list byte)
}.

Definition meta_zero : PgMeta :=
  {| size := 0; mode := 0; uid := 0; gid := 0;
     ctime := {| tv_sec := 0; tv_nsec := 0 |};
     mtime := {| tv_sec := 0; tv_nsec := 0 |};
     atime := {| tv_sec := 0; tv_nsec := 0 |};
     parent_id := 0 |}.

Definition set_parent_id (v : Z) (m : PgMeta) : PgMeta :=
  {| size := size m; mode := mode m; uid := uid m; gid := gid m;
     ctime := ctime m; mtime := mtime m; atime := atime m; parent_id := v |}.

(** The tests of the lookups: by id, by parent and name, and for the root. *)
Definition has_id (i : Z) (r : DirRow) : bool := row_id r =? i.

Definition is_child (parent : Z) (n : string) (r : DirRow) : bool :=
  (parent_id (row_meta r) =? parent) && bool_decide (row_name r = n).

Definition is_root (r : DirRow) : bool := row_id r =? parent_id (row_meta r).

Definition find_id (rows : list DirRow) (i : Z) : option DirRow :=
  List.find (has_id i) rows.

Definition find_child (rows : list DirRow) (parent : Z) (n : string) : option DirRow :=
  List.find (is_child parent n) rows.

(** Modelled from the spec: "exactly one root inode with id = parent_id". *)
Definition find_root (rows : list DirRow) : option DirRow :=
  List.find is_root rows.

(** *** Path resolver *)

Fixpoint components (acc : list ascii) (s : list ascii) : list string :=
  match s with
  | [] =>
      match acc with
      | [] => []
      | _ => [string_of_list_ascii (rev acc)]
      end
  | c :: s' =>
      if is_slash c then
        match acc with
        | [] => components [] s'
        | _ => string_of_list_ascii (rev acc) :: components [] s'
        end
      else components (c :: acc) s'
  end.

(** The components of a path, between its slashes. *)
Definition split_path (path : string) : list string :=
  components [] (list_ascii_of_string path).

(** Modelled from the spec: the resolver of pgsql.c is missing.  "Resolves
    an absolute path to an entity id by walking components from the root";
    "repeated single-component lookups from the root; an intermediate
    non-directory yields -ENOTDIR"; a component that is not found yields
    -ENOENT.  The result is the row, or the errno. *)
Fixpoint walk (rows : list DirRow) (cur : DirRow) (comps : list string) : Z + DirRow :=
  match comps with
  | [] => inr cur
  | c :: rest =>
      if negb (S_ISDIR (mode (row_meta cur))) then inl ENOTDIR
      else
        match find_child rows (row_id cur) c with
        | None => inl ENOENT
        | Some r => walk rows r rest
        end
  end.

Definition path_to_row (d : Database) (path : string) : Z + DirRow :=
  match find_root (dir d) with
  | None => inl ENOENT
  | Some root => walk (dir d) root (split_path path)
  end.

(** *** Metadata *)

(** Modelled from the spec: "read_meta_by_id(id, path_hint) -> inode
    record.  The path is used only for log context; the id is
    authoritative"; a missing inode is "not found", -ENOENT. *)
Definition psql_read_meta (d : Database) (id : Z) (path : string) : Z * PgMeta :=
  match find_id (dir d) id with
  | Some r => (row_id r, row_meta r)
  | None => (- ENOENT, meta_zero)
  end.

(** Modelled from the spec: "read_meta_by_path(path) -> (id, inode
    record) or -ENOENT.  Implemented by C5". *)
Definition psql_read_meta_from_path (d : Database) (path : string) : Z * PgMeta :=
  match path_to_row d path with
  | inr r => (row_id r, row_meta r)
  | inl e => (- e, meta_zero)
  end.

Definition store_meta (new old : PgMeta) : PgMeta := set_parent_id (parent_id old) new.

Definition update_row (i : Z) (f : PgMeta -> PgMeta) (r : DirRow) : DirRow :=
  if has_id i r
  then {| row_id := row_id r; row_name := row_name r; row_meta := f (row_meta r) |}
  else r.

Definition with_dir (rows : list DirRow) (d : Database) : Database :=
  {| dir := rows; blocks := blocks d |}.

Definition with_blocks (b : gmap (Z * Z) (list byte)) (d : Database) : Database :=
  {| dir := dir d; blocks := b |}.

(** Modelled from the spec: "write_meta(id, record) -> 0 or error;
    overwrites mode, uid, gid, size, all three timestamps". *)
Definition psql_write_meta (d : Database) (id : Z) (path : string) (meta : PgMeta)
  : Z * Database :=
  match find_id (dir d) id with
  | None => (- ENOENT, d)
  | Some _ => (0, with_dir (map (update_row id (store_meta meta)) (dir d)) d)
  end.

(** An id that no row has. *)
Definition fresh_id (rows : list DirRow) : Z :=
  1 + fold_right Z.max 0 (map row_id rows).

Definition add_size (n : Z) (m : PgMeta) : PgMeta := set_size (size m + n) m.

(** Modelled from the spec: "create_file(parent_id, full_path, name, meta)
    / create_dir(...): inserts a new inode; fails with -EEXIST if the unique
    (parent_id, name) constraint is violated; on success increments the
    parent directory's size (child count)".  The parent is a foreign key:
    an insert under a missing parent is a database failure, -EIO. *)
Definition psql_create_file (d : Database) (parent : Z) (path new_file : string) (meta : PgMeta)
  : Z * Database :=
  match find_id (dir d) parent with
  | None => (- EIO, d)
  | Some _ =>
      match find_child (dir d) parent new_file with
      | Some _ => (- EEXIST, d)
      | None =>
          let row := {| row_id := fresh_id (dir d); row_name := new_file;
                        row_meta := set_parent_id parent meta |} in
          (0, with_dir (map (update_row parent (add_size 1)) (dir d) ++ [row])%list d)
      end
  end.

Definition psql_create_dir := psql_create_file.

(** A direct child of [parent]; the root, whose parent is itself, is not
    its own child. *)
Definition has_parent (parent : Z) (r : DirRow) : bool :=
  (parent_id (row_meta r) =? parent) && negb (is_root r).

Definition block_of (id : Z) (first : Z) (kv : Z * Z * list byte) : Prop :=
  kv.1.1 = id /\ first <= kv.1.2.

Global Instance block_of_dec id first kv : Decision (block_of id first kv).
Proof. unfold block_of. apply _. Defined.

(** Modelled from the spec: "delete_blocks_from(id, first_block_no):
    removes every block with index >= first_block_no". *)
Definition delete_blocks_from (b : gmap (Z * Z) (list byte)) (id first : Z)
  : gmap (Z * Z) (list byte) :=
  filter (fun kv => ~ block_of id first kv) b.

(** Modelled from the spec: "delete_file(id) / delete_dir(id): the latter
    additionally verifies the directory has zero children (-ENOTEMPTY
    otherwise), deletes the inode and all its blocks, and decrements the
    parent's child count". *)
Definition psql_delete_file (d : Database) (id : Z) (path : string) : Z * Database :=
  match find_id (dir d) id with
  | None => (- ENOENT, d)
  | Some r =>
      let rows := List.filter (fun r' => negb (has_id id r')) (dir d) in
      (0, {| dir := map (update_row (parent_id (row_meta r)) (add_size (-1))) rows;
             blocks := delete_blocks_from (blocks d) id 0 |})
  end.

Definition psql_delete_dir (d : Database) (id : Z) (path : string) : Z * Database :=
  match List.find (has_parent id) (dir d) with
  | Some _ => (- ENOTEMPTY, d)
  | None => psql_delete_file d id path
  end.

(** Modelled from the spec: "list_dir(parent_id, visitor): emits one name
    per child". *)
Definition psql_readdir (d : Database) (id : Z) : Z * list string :=
  (0, map row_name (List.filter (has_parent id) (dir d))).

(** Modelled from the spec: "rename(from_id, from_parent_id, to_parent_id,
    new_name): updates the inode's parent and name atomically". *)
Definition psql_rename (d : Database) (from_id from_parent to_parent : Z)
    (new_name from to : string) : Z * Database :=
  match find_id (dir d) from_id with
  | None => (- ENOENT, d)
  | Some _ =>
      (0, with_dir
            (map (fun r =>
                    if has_id from_id r
                    then {| row_id := row_id r; row_name := new_name;
                            row_meta := set_parent_id to_parent (row_meta r) |}
                    else r) (dir d)) d)
  end.

(** *** Block engine *)

Definition zero_block (B : Z) : list byte := replicate (Z.to_nat B) x00.

(** Modelled from the spec: "read_block(id, block_no) -> bytes or absence
    sentinel"; an absent block reads as zeros, and a block has [B] bytes. *)
Definition block_or_zeros (b : gmap (Z * Z) (list byte)) (B id blk : Z) : list byte :=
  resize (Z.to_nat B) x00 (default (zero_block B) (b !! (id, blk))).

Definition overlay (old : list byte) (off : nat) (new : list byte) : list byte :=
  (take off old ++ new ++ drop (off + length new) old)%list.

(** Modelled from the spec (4.3, Write): "For each block index touched by
    [offset, offset+length): 1. If the write covers the entire block, write
    new bytes directly.  2. Otherwise, read-modify-write: fetch the existing
    block (or synthesize a zero-filled block of length B if absent), overlay
    the partial range, store back exactly B bytes.  The engine returns the
    number of bytes actually written."  [inoff] is the offset in block
    [blk]; the loop ends when no byte is left, so [length bytes] rounds are
    enough. *)
Fixpoint write_blocks (fuel : nat) (B id blk inoff : Z) (bytes : list byte)
    (b : gmap (Z * Z) (list byte)) : Z * gmap (Z * Z) (list byte) :=
  match fuel with
  | O => (0, b)
  | S fuel' =>
      let n := Nat.min (Z.to_nat (B - inoff)) (length bytes) in
      match n with
      | O => (0, b)
      | _ =>
          let new :=
            if (inoff =? 0) && (Z.of_nat n =? B) then take n bytes
            else overlay (block_or_zeros b B id blk) (Z.to_nat inoff) (take n bytes) in
          let '(w, b') := write_blocks fuel' B id (blk + 1) 0 (drop n bytes) (<[(id, blk) := new]> b) in
          (Z.of_nat n + w, b')
      end
  end.

Definition psql_write_buf (d : Database) (B id : Z) (path : string) (buf : list byte)
    (offset len : Z) : Z * Database :=
  match find_id (dir d) id with
  | None => (- ENOENT, d)
  | Some _ =>
      let bytes := take (Z.to_nat len) buf in
      let '(w, b) := write_blocks (length bytes) B id (offset / B) (offset mod B) bytes (blocks d) in
      (w, with_blocks b d)
  end.

(** Modelled from the spec (4.3, Read): "Produces min(length, max(0, size -
    offset)) bytes into the caller's buffer.  For each block index in
    range: fetch the block; if absent, emit zeros for the relevant
    sub-range; otherwise copy the relevant sub-range." *)
Fixpoint read_blocks (fuel : nat) (B id blk inoff : Z) (remaining : nat)
    (b : gmap (Z * Z) (list byte)) : list byte :=
  match fuel with
  | O => []
  | S fuel' =>
      let n := Nat.min (Z.to_nat (B - inoff)) remaining in
      match n with
      | O => []
      | _ =>
          (take n (drop (Z.to_nat inoff) (block_or_zeros b B id blk))
             ++ read_blocks fuel' B id (blk + 1) 0 (remaining - n) b)%list
      end
  end.

(** The bytes go to the start of the caller's buffer. *)
Definition copy_out (bytes buf : list byte) : list byte :=
  (bytes ++ drop (length bytes) buf)%list.

Definition psql_read_buf (d : Database) (B id : Z) (path : string) (buf : list byte)
    (offset len : Z) : Z * list byte :=
  match find_id (dir d) id with
  | None => (- ENOENT, buf)
  | Some r =>
      let n := Z.to_nat (Z.min len (Z.max 0 (size (row_meta r) - offset))) in
      let bytes := read_blocks n B id (offset / B) (offset mod B) n (blocks d) in
      (Z.of_nat (length bytes), copy_out bytes buf)
  end.

(** Modelled from the spec (4.3, Truncate): "Let last = floor((new_size -
    1) / B) (or -1 if new_size = 0).  1. Delete all blocks with index > last.
    2. If new_size does not fall on a block boundary and a block at index
    last exists, fetch it, zero out bytes from new_size mod B to B, and
    write it back." *)
Definition psql_truncate (d : Database) (B id : Z) (path : string) (new_size : Z)
  : Z * Database :=
  let last := if new_size =? 0 then -1 else (new_size - 1) / B in
  let b := delete_blocks_from (blocks d) id (last + 1) in
  let b :=
    if new_size mod B =? 0 then b
    else
      match b !! (id, last) with
      | None => b
      | Some old =>
          <[(id, last) :=
              (take (Z.to_nat (new_size mod B)) old
                 ++ replicate (Z.to_nat (B - new_size mod B)) x00)%list]> b
      end in
  (0, with_blocks b d).

(** The interface of pgfuse.c, implemented by the model. *)
Global Instance ops : Pgsql Database :=
  Build_Pgsql Database
    psql_read_meta psql_read_meta_from_path psql_write_meta
    psql_create_file psql_create_dir psql_delete_file psql_delete_dir
    psql_readdir psql_read_buf psql_write_buf psql_truncate psql_rename.

End Spec.

(** Modelled from the spec: the aggregates of pgsql.c, which is missing.
    "count_blocks_used(), count_inodes_used(): aggregates for statfs";
    "tablespace_locations(): returns the directories used by the
    database".  The directories are no part of the modelled database:
    they, and the result of the query, are given. *)
Definition fs_ops (res : Z) (locations : list string) : PgsqlFs Spec.Database :=
  {| psql_get_tablespace_locations :=
       fun d capacity => (res, take (Z.to_nat capacity) locations);
     psql_get_fs_blocks_used := fun d => Z.of_nat (length (map_to_list (Spec.blocks d)));
     psql_get_fs_files_used := fun d => Z.of_nat (length (Spec.dir d)) |}.

(** ** Notions used by the statements *)

(** [ceil(a / b)] *)
Definition ceil_div (a b : Z) : Z :=
  if a mod b =? 0 then a / b else a / b + 1.

(** The handler gets a connection: single-threaded, or the pool has one. *)
Definition acquires {Db} (w : World Db) : bool :=
  negb (multi_threaded (data w)) ||
  match avail (pool (data w)) with
  | [] => false
  | _ => true
  end.

(** The connection a handler gets. *)
Definition acquired {Db} (w : World Db) : PGconn :=
  if multi_threaded (data w) then hd O (avail (pool (data w))) else conn (data w).

(** A file name: not empty and without a slash. *)
Definition name_ok (c : string) : bool :=
  negb (bool_decide (c = EmptyString)) && forallb (fun a => negb (is_slash a)) (list_ascii_of_string c).

(** The absolute path with the components [cs], as FUSE passes it. *)
Definition path_of (cs : list string) : string :=
  match cs with
  | [] => "/"
  | _ => string_of_list_ascii (flat_map (fun c => slash :: list_ascii_of_string c) cs)
  end.

Definition flat_path (cs : list string) : list ascii :=
  flat_map (fun c => slash :: list_ascii_of_string c) cs.

(** The next [n] calls of strdup succeed. *)
Definition allocates {Db} (n : nat) (w : World Db) : bool :=
  forallb (fun ok : bool => ok) (take n (strdup_ok w)).

(** An update of the metadata that keeps the type and the parent. *)
Definition keeps_place (f : PgMeta -> PgMeta) : Prop :=
  forall m, mode (f m) = mode m /\ parent_id (f m) = parent_id m.

(** The metadata that create, mkdir and symlink build for a new inode. *)
Definition new_meta {Db} (w : World Db) (size' mode' : Z) (meta : PgMeta) : PgMeta :=
  let meta := set_size size' meta in
  let meta := set_mode mode' meta in
  let meta := set_uid (context_uid w) meta in
  let meta := set_gid (context_gid w) meta in
  let meta := set_ctime (timespec_of (timeofday w)) meta in
  let meta := set_mtime (ctime meta) meta in
  let meta := set_atime (ctime meta) meta in
  meta.

(** A handler that got a connection closes its transaction and gives the
    connection back, and only a result [0 <= r] follows a commit; a
    handler that got no connection returns -EIO. *)
Definition closes_transaction {Db} (w w' : World Db) (r : Z) : Prop :=
  if acquires w then
    txn w' = None /\
    exists fin,
      trace w' = (trace w ++ [EvAcquire (acquired w); EvBegin; fin; EvRelease (acquired w)])%list /\
      (fin = EvRollback \/ (fin = EvCommit /\ 0 <= r))
  else r = - EIO /\ trace w' = trace w /\ txn w' = txn w.

(** The handler [x] returned [r] with no transaction open, and left the
    committed database as it was and the output as [o]. *)
Definition fails_with {Db O} (w : World Db) (o : O) (r : Z) (x : Z * World Db * O) : Prop :=
  x.1.1 = r /\ db x.1.2 = db w /\ txn x.1.2 = None /\ x.2 = o.

(** [closes_transaction] for the outcome [x] of a handler started in [w]. *)
Definition ends_transaction {Db O} (w : World Db) (x : Z * World Db * O) : Prop :=
  closes_transaction w x.1.2 x.1.1.

(** The handler stopped in [abort( )] right after it had taken a
    connection and begun a transaction: the transaction stays open, the
    connection is not given back, and there is no result. *)
Definition aborts_open {Db} (w w' : World Db) (r : Z) : Prop :=
  r = NO_RETURN /\
  txn w' = Some (view w) /\
  trace w' = (trace w ++ [EvAcquire (acquired w); EvBegin; EvAbort])%list.

(** A change of the rows that keeps ids, names, parents and what is a
    directory. *)
Definition keeps_tree (rows : list Spec.DirRow) (g : Spec.DirRow -> Spec.DirRow) : Prop :=
  forall x, In x rows ->
    Spec.row_id (g x) = Spec.row_id x /\
    Spec.row_name (g x) = Spec.row_name x /\
    parent_id (Spec.row_meta (g x)) = parent_id (Spec.row_meta x) /\
    S_ISDIR (mode (Spec.row_meta (g x))) = S_ISDIR (mode (Spec.row_meta x)).

(** The name and the parent of a row: what a path component selects. *)
Definition entry (r : Spec.DirRow) : Z * string := (parent_id (Spec.row_meta r), Spec.row_name r).

(** A small filesystem: the root, two regular files, a directory. *)
Module Example.

Definition t0 : timespec := {| tv_sec := 0; tv_nsec := 0 |}.

Definition meta_of (m p : Z) : PgMeta :=
  {| size := 0; mode := m; uid := 0; gid := 0;
     ctime := t0; mtime := t0; atime := t0; parent_id := p |}.

Definition rows : list Spec.DirRow :=
  [ {| Spec.row_id := 0; Spec.row_name := "/"; Spec.row_meta := meta_of (Z.lor S_IFDIR 0x1ED) 0 |};
    {| Spec.row_id := 1; Spec.row_name := "a"; Spec.row_meta := meta_of (Z.lor S_IFREG 0x1A4) 0 |};
    {| Spec.row_id := 2; Spec.row_name := "b"; Spec.row_meta := meta_of (Z.lor S_IFREG 0x1A4) 0 |};
    {| Spec.row_id := 3; Spec.row_name := "d"; Spec.row_meta := meta_of (Z.lor S_IFDIR 0x1ED) 0 |} ].

Definition database : Spec.Database := {| Spec.dir := rows; Spec.blocks := ∅ |}.

Definition mount (ro : bool) : PgFuseData :=
  {| verbose := false; conn := 7%nat; pool := {| avail := [] |};
     read_only := ro; multi_threaded := false; block_size := 4 |}.

Definition world (ro : bool) : World Spec.Database :=
  {| data := mount ro; context_uid := 1000; context_gid := 100;
     timeofday := Some (77, 5); strdup_ok := [];
     db := database; txn := None; trace := [] |}.

Definition no_handle : fuse_file_info := {| flags := O_RDONLY; fh := 0 |}.
Definition handle (id : Z) : fuse_file_info := {| flags := O_RDWR; fh := id |}.

Definition file_mode : Z := Z.lor S_IFREG 0x1A4.
Definition xy : list byte := ["x"%byte; "y"%byte].

(** What the block engine does for a write of [xy] at offset 3 of /a. *)
Definition written : Z * Spec.Database := Spec.psql_write_buf database 4 1 "/a" xy 3 2.

(** The world after [symlink( "/a", "/l" )], and the inode of /l. *)
Definition linked : World Spec.Database :=
  (run (pgfuse_symlink "/a" "/l") (world false) tt).1.2.
Definition link : Z * PgMeta := Spec.psql_read_meta_from_path (db linked) "/l".
Definition buffer : list byte := replicate 8 "x"%byte.

Definition t5 : timespec := {| tv_sec := 5; tv_nsec := 0 |}.
Definition t6 : timespec := {| tv_sec := 6; tv_nsec := 0 |}.

End Example.

(** Inputs for the handlers over the small filesystem. *)
Module Sample.

Definition rw : World Spec.Database := Example.world false.

(** The metadata of the files /a and /b and of the directories / and /d. *)
Definition file : PgMeta := Example.meta_of Example.file_mode 0.
Definition directory : PgMeta := Example.meta_of (Z.lor S_IFDIR 0x1ED) 0.

(** A filesystem whose root has the id 2^31. *)
Definition far_rows : list Spec.DirRow :=
  [ {| Spec.row_id := 2 ^ 31; Spec.row_name := "/";
       Spec.row_meta := Example.meta_of (Z.lor S_IFDIR 0x1ED) (2 ^ 31) |} ].

Definition far : World Spec.Database :=
  {| data := Example.mount false; context_uid := 1000; context_gid := 100;
     timeofday := Some (77, 5); strdup_ok := [];
     db := {| Spec.dir := far_rows; Spec.blocks := ∅ |}; txn := None; trace := [] |}.

(** A host with three mounted filesystems, /var the fullest. *)
Definition var_fs : Vfs.statfs := {| Vfs.f_bfree := 10; Vfs.f_bavail := 8; Vfs.f_frsize := 4096 |}.
Definition root_fs : Vfs.statfs := {| Vfs.f_bfree := 100; Vfs.f_bavail := 90; Vfs.f_frsize := 4096 |}.

Definition host : Host :=
  {| realpath := fun p => Some p;
     mtab := [Some "/var"; None; Some "/"; Some "/home"];
     statfs := fun p => (0, if String.eqb p "/var" then var_fs else root_fs) |}.

Definition tablespace : list string := ["/var/lib/postgresql"].

(** The world after [write( "/a", "xy", 2, 3 )] on the open file /a: the
    file holds five bytes, in two blocks of four. *)
Definition written : World Spec.Database :=
  (run (pgfuse_write "/a" Example.xy 2 3 (Example.handle 1)) rw tt).1.2.

(** The five bytes of /a at the start of the buffer [Example.buffer]. *)
Definition read_back : list byte :=
  ["000"%byte; "000"%byte; "000"%byte; "x"%byte; "y"%byte; "x"%byte; "x"%byte; "x"%byte].

(** The time of the example's clock, 77 s and 5 us, as a timespec. *)
Definition t77 : timespec := {| tv_sec := 77; tv_nsec := 5000 |}.

(** The metadata of a directory made by the caller of the example, uid
    1000 and gid 100, under the root at that time. *)
Definition made : PgMeta :=
  {| size := 0; mode := Z.lor 0x1ED S_IFDIR; uid := 1000; gid := 100;
     ctime := t77; mtime := t77; atime := t77; parent_id := 0 |}.

(** The example where the second call of strdup fails. *)
Definition starved : World Spec.Database :=
  {| data := Example.mount false; context_uid := 1000; context_gid := 100;
     timeofday := Some (77, 5); strdup_ok := [true; false];
     db := Example.database; txn := None; trace := [] |}.


End Sample.

(** ** Symbolic execution of a handler *)

Ltac hred :=
  cbv beta iota zeta delta
    [run mbind mret Handler_bind Handler_ret return_ when not_null
     get_world get_data get_out put_out modify_world
     with_data with_strdup_ok with_db with_txn with_event view set_view
     query update now psql_acquire psql_release ACQUIRE RELEASE
     PSQL_BEGIN PSQL_COMMIT PSQL_ROLLBACK strdup free_dangling
     psql_pool_acquire psql_pool_release set_pool
     data context_uid context_gid timeofday strdup_ok db txn trace
     verbose conn pool read_only multi_threaded block_size avail
     flags fh set_fh acquired hd allocates forallb firstn
     fst snd negb orb andb acquires] in *;
  try change (0 <? 0) with false in *;
  cbv beta iota in *.

(** Case analysis on the threading mode, the pool and the open
    transaction, after which the macros compute. *)
Ltac open_world w :=
  let d := fresh "d" in
  destruct w as [d ? ? ? ? ? [ ? | ] ?];
  destruct d as [? ? [[ | ? ?]] ? [ | ] ?];
  hred; try discriminate; subst.

(** The same, with the outcome of the next two calls of strdup. *)
Ltac open_world_allocs w :=
  let d := fresh "d" in
  let allocs := fresh "allocs" in
  destruct w as [d ? ? ? allocs ? [ ? | ] ?];
  destruct d as [? ? [[ | ? ?]] ? [ | ] ?];
  destruct allocs as [| [ | ] [| [ | ] ?]];
  hred; try discriminate; subst.

(** Case analysis on what the database layer returns and on the tests of
    the handler, for statements about every path through a handler. *)
Ltac split_op :=
  match goal with
  | |- context [psql_read_meta_from_path ?d ?p] => destruct (psql_read_meta_from_path d p) eqn:?
  | |- context [psql_read_meta ?d ?i ?p] => destruct (psql_read_meta d i p) eqn:?
  | |- context [psql_write_meta ?d ?i ?p ?m] => destruct (psql_write_meta d i p m) eqn:?
  | |- context [psql_create_file ?d ?i ?p ?n ?m] => destruct (psql_create_file d i p n m) eqn:?
  | |- context [psql_create_dir ?d ?i ?p ?n ?m] => destruct (psql_create_dir d i p n m) eqn:?
  | |- context [psql_delete_file ?d ?i ?p] => destruct (psql_delete_file d i p) eqn:?
  | |- context [psql_delete_dir ?d ?i ?p] => destruct (psql_delete_dir d i p) eqn:?
  | |- context [psql_readdir ?d ?i] => destruct (psql_readdir d i) eqn:?
  | |- context [psql_read_buf ?d ?B ?i ?p ?b ?o ?l] => destruct (psql_read_buf d B i p b o l) eqn:?
  | |- context [psql_write_buf ?d ?B ?i ?p ?b ?o ?l] => destruct (psql_write_buf d B i p b o l) eqn:?
  | |- context [psql_truncate ?d ?B ?i ?p ?o] => destruct (psql_truncate d B i p o) eqn:?
  | |- context [psql_rename ?d ?a ?b ?c ?n ?f ?t] => destruct (psql_rename d a b c n f t) eqn:?
  | |- context [if ?b then _ else _] => destruct b eqn:?
  | |- context [match ?l with [] => _ | _ :: _ => _ end] => destruct l eqn:?
  end.

Ltac paths := repeat first [ progress hred | split_op ].

Ltac decide_test :=
  match goal with
  | |- context [?a <? ?b] =>
      first [ replace (a <? b) with true by (symmetry; apply Z.ltb_lt; lia)
            | replace (a <? b) with false by (symmetry; apply Z.ltb_ge; lia) ]
  | |- context [?a >? ?b] =>
      first [ replace (a >? b) with true by (symmetry; apply Z.gtb_lt; lia)
            | replace (a >? b) with false by (symmetry; rewrite Z.gtb_ltb; apply Z.ltb_ge; lia) ]
  | |- context [?a >=? ?b] =>
      first [ replace (a >=? b) with true by (symmetry; rewrite Z.geb_leb; apply Z.leb_le; lia)
            | replace (a >=? b) with false by (symmetry; rewrite Z.geb_leb; apply Z.leb_gt; lia) ]
  | |- context [?a =? ?b] =>
      first [ replace (a =? b) with true by (symmetry; apply Z.eqb_eq; lia)
            | replace (a =? b) with false by (symmetry; apply Z.eqb_neq; lia) ]
  end; cbv beta iota.

(** A negative result is not 0. *)
Ltac neg_result res :=
  replace (res =? 0) with false by (symmetry; apply Z.eqb_neq; lia).

(** A closed fact, by computation. *)
Ltac holds := vm_compute; first [ reflexivity | congruence | split; congruence ].

(** ** Arithmetic of the C types *)

Lemma to_int_small z : - 2 ^ 31 <= z < 2 ^ 31 -> to_int z = z.
Proof.
  intros Hz. unfold to_int, wrap_signed.
  change (2 ^ (32 - 1)) with (2 ^ 31). change (2 ^ 32) with (2 * 2 ^ 31).
  rewrite Z.mod_small; lia.
Qed.

Lemma to_int64_small z : - 2 ^ 63 <= z < 2 ^ 63 -> to_int64 z = z.
Proof.
  intros Hz. unfold to_int64, wrap_signed.
  change (2 ^ (64 - 1)) with (2 ^ 63). change (2 ^ 64) with (2 * 2 ^ 63).
  rewrite Z.mod_small; lia.
Qed.

Lemma to_size_t_small z : 0 <= z < 2 ^ 64 -> to_size_t z = z.
Proof. intros Hz. unfold to_size_t, wrap_unsigned. apply Z.mod_small; lia. Qed.

Lemma ceil_div_spec a b : 0 <= a -> 0 < b -> (a + b - 1) / b = ceil_div a b.
Proof.
  intros Ha Hb. unfold ceil_div.
  pose proof (Z.div_mod a b ltac:(lia)) as Hdm.
  pose proof (Z.mod_pos_bound a b Hb) as Hm.
  destruct (Z.eqb_spec (a mod b) 0) as [E | E].
  - symmetry. apply Z.div_unique with (r := b - 1); lia.
  - symmetry. apply Z.div_unique with (r := a mod b - 1); lia.
Qed.

Lemma set_size_same m : set_size (size m) m = m.
Proof. by destruct m. Qed.

(** ** The handlers, for every implementation of pgsql.h *)

Section Generic.

Context {Db : Type} `{!Pgsql Db}.

(** C9 (as amended).  flush, release, fsyncdir, opendir, releasedir and
    access return 0 for every input and change nothing.  fsync changes
    nothing either, but checks its input first: it returns -EROFS on a
    read-only mount, -EBADF for a zero file handle on a read-write mount,
    and 0 otherwise. *)
Theorem noop_handlers (w : World Db) (path : string) (fi : fuse_file_info) (n : Z) :
  run (pgfuse_flush path fi) w tt = (0, w, tt) /\
  run (pgfuse_release path fi) w tt = (0, w, tt) /\
  run (pgfuse_fsyncdir path n fi) w tt = (0, w, tt) /\
  run (pgfuse_opendir path fi) w tt = (0, w, tt) /\
  run (pgfuse_releasedir path fi) w tt = (0, w, tt) /\
  run (pgfuse_access path n) w tt = (0, w, tt) /\
  run (pgfuse_fsync path n fi) w tt =
    (if read_only (data w) then - EROFS else if fh fi =? 0 then - EBADF else 0, w, tt).
Proof.
  repeat split.
  unfold pgfuse_fsync.
  destruct w as [[? ? ? ro ? ?] ? ? ? ? ? ? ?], fi as [? h]. hred.
  destruct ro; [reflexivity |].
  destruct (h =? 0); reflexivity.
Qed.

(** C7.  getattr on a path that resolves reports the block count
    ceil(size / B), nlink 1 and blksize B, B being the block size of the
    mount. *)
Theorem getattr_block_count (w : World Db) (path : string) (stbuf : stat)
    (id : Z) (meta : PgMeta) :
  acquires w = true ->
  psql_read_meta_from_path (view w) path = (id, meta) ->
  0 <= id ->
  0 < block_size (data w) ->
  0 <= size meta ->
  size meta + block_size (data w) < 2 ^ 63 ->
  let '(r, _, st) := run (pgfuse_getattr path) w stbuf in
  r = 0 /\
  st_blocks st = ceil_div (size meta) (block_size (data w)) /\
  st_nlink st = 1 /\
  st_blksize st = block_size (data w).
Proof.
  intros Ha Hr Hid HB Hs Hsum.
  assert (Hblocks : to_int64 (to_size_t (size meta + block_size (data w) - 1) / block_size (data w))
                    = ceil_div (size meta) (block_size (data w))).
  { rewrite to_size_t_small by lia. rewrite ceil_div_spec by lia.
    apply to_int64_small. unfold ceil_div.
    pose proof (Z.div_le_upper_bound (size meta) (block_size (data w)) (size meta) HB ltac:(nia)).
    pose proof (Z.div_pos (size meta) (block_size (data w)) Hs HB).
    destruct (_ =? 0); lia. }
  assert (Hblk : to_int64 (block_size (data w)) = block_size (data w))
    by (apply to_int64_small; lia).
  unfold pgfuse_getattr.
  open_world w; rewrite Hr; decide_test; repeat split; assumption.
Qed.

(** C3 (as amended).  When [from] resolves and [to] resolves to an inode
    with a positive id: rename returns -EEXIST if [to] is a regular file
    and differs from [from], 0 if [to] is a regular file and equals
    [from], and -EINVAL if [to] is not a regular file.  In each case the
    database is untouched, so both paths still resolve as before. *)
Theorem rename_onto_existing (w : World Db) (from to : string)
    (from_id to_id : Z) (from_meta to_meta : PgMeta) :
  acquires w = true ->
  psql_read_meta_from_path (view w) from = (from_id, from_meta) ->
  0 <= from_id ->
  psql_read_meta_from_path (view w) to = (to_id, to_meta) ->
  0 < to_id ->
  let '(r, w', _) := run (pgfuse_rename from to) w tt in
  r = (if S_ISREG (mode to_meta)
       then if bool_decide (from = to) then 0 else - EEXIST
       else - EINVAL) /\
  db w' = db w /\
  psql_read_meta_from_path (view w') from = (from_id, from_meta) /\
  psql_read_meta_from_path (view w') to = (to_id, to_meta).
Proof.
  intros Ha Hfrom Hid Hto Htid.
  unfold pgfuse_rename, strcmp_eq.
  open_world w; rewrite Hfrom; decide_test; rewrite Hto; repeat decide_test;
    destruct (S_ISREG (mode to_meta)); try destruct (bool_decide (from = to));
    repeat split; assumption.
Qed.

(** C4.  On a read-write mount, for an open file of size S: when the
    block engine reports [len] bytes written and the metadata update
    succeeds, write returns [len] and commits the metadata with size
    max(S, offset + len), which is the size read back afterwards; when the
    engine reports another count, write returns -EIO after a rollback and
    the committed database, with it the size, is unchanged. *)
Theorem write_updates_size (w : World Db) (path : string) (buf : list byte)
    (len offset : Z) (fi : fuse_file_info) (id : Z) (meta : PgMeta) (res : Z) (d1 : Db) :
  (forall d i p m r d', psql_write_meta d i p m = (r, d') -> 0 <= r ->
     size (psql_read_meta d' i p).2 = size m) ->
  acquires w = true ->
  read_only (data w) = false ->
  fh fi <> 0 ->
  psql_read_meta (view w) (fh fi) path = (id, meta) ->
  0 <= id ->
  0 <= size meta < 2 ^ 63 ->
  0 <= offset < 2 ^ 63 ->
  0 <= len <= INT_MAX ->
  psql_write_buf (view w) (block_size (data w)) (fh fi) path buf offset len = (res, d1) ->
  0 <= res <= INT_MAX ->
  let '(r, w', _) := run (pgfuse_write path buf len offset fi) w tt in
  (res <> len ->
     r = - EIO /\ db w' = db w /\ txn w' = None /\
     trace w' = (trace w ++ [EvAcquire (acquired w); EvBegin; EvRollback; EvRelease (acquired w)])%list) /\
  (res = len ->
     forall r2 d2,
       psql_write_meta d1 (fh fi) path (set_size (Z.max (size meta) (offset + len)) meta) = (r2, d2) ->
       0 <= r2 <= INT_MAX ->
       r = len /\ db w' = d2 /\ txn w' = None /\
       size (psql_read_meta (db w') (fh fi) path).2 = Z.max (size meta) (offset + len)).
Proof.
  intros Hlaw Ha Hro Hfh Hmeta Hid Hsize Hoff Hlen Hwb Hres.
  unfold INT_MAX in *.
  assert (Hnew : (if to_size_t (offset + len) >? to_size_t (size meta)
                  then set_size (to_size_t (offset + len)) meta else meta)
                 = set_size (Z.max (size meta) (offset + len)) meta).
  { rewrite !to_size_t_small by lia.
    destruct (Z.gtb_spec (offset + len) (size meta)).
    - f_equal. lia.
    - replace (Z.max (size meta) (offset + len)) with (size meta) by lia.
      symmetry. apply set_size_same. }
  assert (Hres' : to_int res = res) by (apply to_int_small; lia).
  assert (Hlen' : to_int len = len) by (apply to_int_small; lia).
  unfold pgfuse_write. destruct fi as [fl h].
  open_world w; subst; hred; decide_test; rewrite Hmeta; decide_test;
    rewrite Hnew, Hwb, Hres'; decide_test;
    rewrite to_size_t_small by lia.
  all: destruct (Z.eqb_spec res len) as [E | E]; hred.
  all: try (split; [intros _; repeat split; rewrite <- ?app_assoc; reflexivity | intros E'; contradiction]).
  all: destruct (psql_write_meta d1 h path _) as [r2' d2'] eqn:Hwm;
    destruct (Z.ltb_spec (to_int r2') 0) as [Et | Et]; hred;
    (split; [intros E'; contradiction | intros _ r2 d2 Heq Hr2]);
    inversion Heq; subst r2' d2'; rewrite (to_int_small r2) in Et by lia; try lia;
    repeat split; try assumption; hred;
    rewrite (Hlaw _ _ _ _ _ _ Hwm) by lia; reflexivity.
Qed.

(** C8.  For a path that resolves: readlink returns -ENOENT if the object
    is not a symlink, -ENOMEM if it is one and the buffer has fewer than
    size + 1 bytes, and otherwise returns 0 with the bytes 0..size that the
    block engine read in the buffer and a NUL behind them. *)
Theorem readlink_cases (w : World Db) (path : string) (buflen : Z) (buf : list byte)
    (id : Z) (meta : PgMeta) :
  acquires w = true ->
  psql_read_meta_from_path (view w) path = (id, meta) ->
  0 <= id ->
  0 <= size meta < 2 ^ 63 ->
  let '(r, _, out) := run (pgfuse_readlink path buflen) w buf in
  (S_ISLNK (mode meta) = false -> r = - ENOENT) /\
  (S_ISLNK (mode meta) = true -> buflen < size meta + 1 -> r = - ENOMEM) /\
  (S_ISLNK (mode meta) = true -> size meta + 1 <= buflen ->
     forall res bytes,
       psql_read_buf (view w) (block_size (data w)) id path buf 0 (size meta) = (res, bytes) ->
       0 <= res <= INT_MAX ->
       r = 0 /\ out = <[Z.to_nat (size meta) := x00]> bytes).
Proof.
  intros Ha Hr Hid Hsize.
  unfold INT_MAX, pgfuse_readlink.
  open_world w; rewrite Hr; decide_test; rewrite to_size_t_small by lia.
  all: destruct (S_ISLNK (mode meta)); hred.
  all: try (repeat split; congruence).
  all: destruct (Z.ltb_spec buflen (size meta + 1)); hred.
  all: try (split; [congruence | split; [reflexivity | intros; lia]]).
  all: destruct (psql_read_buf _ _ _ _ _ _ _) as [res' bytes'] eqn:Hrb;
    destruct (Z.ltb_spec (to_int res') 0) as [Et | Et]; hred;
    (split; [congruence |]; split; [intros; lia |]);
    intros _ _ res bytes Heq Hres; inversion Heq; subst res' bytes';
    rewrite (to_int_small res) in Et by lia; try lia; split; reflexivity.
Qed.

(** When the handle names the inode the path leads to, fgetattr fills the
    fields that getattr fills, except the three timestamps: those stay 0
    after the memset. *)
Lemma fgetattr_getattr (w : World Db) (path : string) (fi : fuse_file_info) (stbuf : stat)
    (id : Z) (meta : PgMeta) :
  acquires w = true ->
  psql_read_meta_from_path (view w) path = (id, meta) ->
  psql_read_meta (view w) (fh fi) path = (id, meta) ->
  0 <= id ->
  let '(r1, _, st1) := run (pgfuse_getattr path) w stbuf in
  let '(r2, _, st2) := run (pgfuse_fgetattr path fi) w stbuf in
  r1 = 0 /\ r2 = 0 /\
  st1 = fill_stat_times meta st2 /\
  (st_atime st2, st_mtime st2, st_ctime st2) = (0, 0, 0).
Proof.
  intros Ha Hp Hi Hid. unfold pgfuse_getattr, pgfuse_fgetattr. destruct fi as [fl h].
  open_world w; rewrite Hp, Hi; repeat decide_test; repeat split.
Qed.

(** On a read-only mount, open with the access mode O_RDONLY of a path
    that resolves to something other than a directory succeeds and puts
    the id in the file handle. *)
Lemma open_read_only (w : World Db) (path : string) (fi : fuse_file_info)
    (id : Z) (meta : PgMeta) (res : Z) (d1 : Db) :
  acquires w = true ->
  read_only (data w) = true ->
  Z.land (flags fi) O_ACCMODE = O_RDONLY ->
  psql_read_meta_from_path (view w) path = (id, meta) ->
  0 <= id ->
  S_ISDIR (mode meta) = false ->
  psql_write_meta (view w) id path meta = (res, d1) ->
  0 <= res ->
  let '(r, w', fi') := run (pgfuse_open path) w fi in
  r = 0 /\ fi' = set_fh id fi /\ db w' = d1.
Proof.
  intros Ha Hro Hfl Hr Hid Hdir Hw Hres. unfold pgfuse_open. destruct fi as [fl h].
  cbn [flags] in Hfl.
  open_world w; rewrite Hr; decide_test; rewrite Hdir, Hfl, Z.eqb_refl; hred;
    rewrite Hw; decide_test; repeat split.
Qed.

(** utimens does not look at the mount: on a read-only mount, when the
    path resolves and the metadata update succeeds, it returns 0 and
    commits the update. *)
Lemma utimens_on_read_only (w : World Db) (path : string) (tv0 tv1 : timespec)
    (id : Z) (meta : PgMeta) (res : Z) (d1 : Db) :
  acquires w = true ->
  read_only (data w) = true ->
  psql_read_meta_from_path (view w) path = (id, meta) ->
  0 <= id ->
  psql_write_meta (view w) id path (set_mtime tv1 (set_atime tv0 meta)) = (res, d1) ->
  0 <= res < 2 ^ 31 ->
  let '(r, w', _) := run (pgfuse_utimens path tv0 tv1) w tt in
  r = 0 /\ db w' = d1.
Proof.
  intros Ha Hro Hr Hid Hw Hres. unfold pgfuse_utimens.
  open_world w; rewrite Hr; decide_test; rewrite Hw, (to_int_small res) by lia;
    decide_test; split; reflexivity.
Qed.

(** write on a read-only mount returns -EBADF, with or without a handle. *)
Lemma write_on_read_only (w : World Db) (path : string) (buf : list byte)
    (len offset : Z) (fi : fuse_file_info) :
  acquires w = true ->
  read_only (data w) = true ->
  (run (pgfuse_write path buf len offset fi) w tt).1.1 = - EBADF.
Proof.
  intros Ha Hro. unfold pgfuse_write. destruct fi as [fl h].
  open_world w; destruct (h =? 0); reflexivity.
Qed.

(** rename of a path that does not resolve returns the error of the
    resolution at once: the transaction it began stays open and the
    connection is not released. *)
Lemma rename_unresolved (w : World Db) (from to : string) (id : Z) (meta : PgMeta) :
  acquires w = true ->
  psql_read_meta_from_path (view w) from = (id, meta) ->
  - 2 ^ 31 <= id < 0 ->
  let '(r, w', _) := run (pgfuse_rename from to) w tt in
  r = id /\
  txn w' = Some (view w) /\
  trace w' = (trace w ++ [EvAcquire (acquired w); EvBegin])%list.
Proof.
  intros Ha Hr Hid. unfold pgfuse_rename.
  open_world w; rewrite Hr; decide_test; rewrite to_int_small by lia;
    repeat split; rewrite <- ?app_assoc; reflexivity.
Qed.

(** *** create and symlink, path by path *)

Lemma create_existing (w : World Db) (path : string) (mode' : Z) (fi : fuse_file_info)
    (id : Z) (meta : PgMeta) :
  acquires w = true ->
  read_only (data w) = false ->
  psql_read_meta_from_path (view w) path = (id, meta) ->
  0 <= id ->
  (run (pgfuse_create path mode') w fi).1.1 = if S_ISDIR (mode meta) then - EISDIR else - EEXIST.
Proof.
  intros Ha Hro Hr Hid. unfold pgfuse_create, ENOENT.
  open_world w; rewrite Hr; repeat decide_test; destruct (S_ISDIR (mode meta)); reflexivity.
Qed.

Lemma create_unresolved (w : World Db) (path : string) (mode' : Z) (fi : fuse_file_info)
    (id : Z) (meta : PgMeta) :
  acquires w = true ->
  read_only (data w) = false ->
  psql_read_meta_from_path (view w) path = (id, meta) ->
  - 2 ^ 31 <= id < 0 ->
  id <> - ENOENT ->
  (run (pgfuse_create path mode') w fi).1.1 = id.
Proof.
  intros Ha Hro Hr Hid Hne. unfold pgfuse_create, ENOENT in *.
  open_world w; rewrite Hr; repeat decide_test; apply to_int_small; lia.
Qed.

Lemma create_parent_unresolved (w : World Db) (path : string) (mode' : Z) (fi : fuse_file_info)
    (meta : PgMeta) (parent_id : Z) (parent_meta : PgMeta) :
  acquires w = true ->
  read_only (data w) = false ->
  allocates 1 w = true ->
  psql_read_meta_from_path (view w) path = (- ENOENT, meta) ->
  psql_read_meta_from_path (view w) (dirname path) = (parent_id, parent_meta) ->
  - 2 ^ 31 <= parent_id < 0 ->
  (run (pgfuse_create path mode') w fi).1.1 = parent_id.
Proof.
  intros Ha Hro Hal Hr Hp Hid. unfold pgfuse_create, ENOENT in *.
  open_world_allocs w; rewrite Hr; repeat decide_test; rewrite Hp; repeat decide_test;
    apply to_int_small; lia.
Qed.

(** The handler's own test of the parent: when the path itself is
    reported as missing and its parent resolves to something that is not a
    directory, create returns -ENOENT. *)
Lemma create_parent_not_directory (w : World Db) (path : string) (mode' : Z)
    (fi : fuse_file_info) (meta : PgMeta) (parent_id : Z) (parent_meta : PgMeta) :
  acquires w = true ->
  read_only (data w) = false ->
  allocates 1 w = true ->
  psql_read_meta_from_path (view w) path = (- ENOENT, meta) ->
  psql_read_meta_from_path (view w) (dirname path) = (parent_id, parent_meta) ->
  0 <= parent_id ->
  S_ISDIR (mode parent_meta) = false ->
  (run (pgfuse_create path mode') w fi).1.1 = - ENOENT.
Proof.
  intros Ha Hro Hal Hr Hp Hid Hdir. unfold pgfuse_create, ENOENT in *.
  open_world_allocs w; rewrite Hr; repeat decide_test; rewrite Hp; repeat decide_test;
    rewrite Hdir; reflexivity.
Qed.

Lemma create_success (w : World Db) (path : string) (mode' : Z) (fi : fuse_file_info)
    (meta : PgMeta) (parent_id : Z) (parent_meta : PgMeta) (res : Z) (d1 : Db)
    (id : Z) (meta1 : PgMeta) :
  acquires w = true ->
  read_only (data w) = false ->
  allocates 2 w = true ->
  psql_read_meta_from_path (view w) path = (- ENOENT, meta) ->
  psql_read_meta_from_path (view w) (dirname path) = (parent_id, parent_meta) ->
  0 <= parent_id ->
  S_ISDIR (mode parent_meta) = true ->
  psql_create_file (view w) parent_id path (basename path) (new_meta w 0 mode' parent_meta)
    = (res, d1) ->
  0 <= res < 2 ^ 31 ->
  psql_read_meta_from_path d1 path = (id, meta1) ->
  0 <= id ->
  let '(r, w', fi') := run (pgfuse_create path mode') w fi in
  r = res /\ fi' = set_fh id fi /\ db w' = d1 /\ txn w' = None /\ data w' = data w.
Proof.
  intros Ha Hro Hal Hr Hp Hpid Hdir Hc Hres Hr1 Hid.
  unfold pgfuse_create, new_meta, ENOENT in *.
  open_world_allocs w; rewrite Hr; repeat decide_test; rewrite Hp; repeat decide_test;
    rewrite Hdir; hred; rewrite Hc; rewrite (to_int_small res) by lia; repeat decide_test;
    rewrite Hr1; repeat decide_test; repeat split.
Qed.

Lemma symlink_success (w : World Db) (from to : string)
    (parent_id : Z) (parent_meta : PgMeta) (res : Z) (d1 : Db)
    (id : Z) (meta1 : PgMeta) (d2 : Db) :
  acquires w = true ->
  read_only (data w) = false ->
  allocates 2 w = true ->
  psql_read_meta_from_path (view w) (dirname to) = (parent_id, parent_meta) ->
  0 <= parent_id ->
  S_ISDIR (mode parent_meta) = true ->
  psql_create_file (view w) parent_id to (basename to)
    (new_meta w (strlen from) (Z.lor 0x1FF S_IFLNK) parent_meta) = (res, d1) ->
  0 <= res < 2 ^ 31 ->
  psql_read_meta_from_path d1 to = (id, meta1) ->
  0 <= id ->
  psql_write_buf d1 (block_size (data w)) id to (list_byte_of_string from) 0 (strlen from)
    = (strlen from, d2) ->
  strlen from < 2 ^ 31 ->
  let '(r, w', _) := run (pgfuse_symlink from to) w tt in
  r = 0 /\ db w' = d2 /\ txn w' = None /\ data w' = data w.
Proof.
  intros Ha Hro Hal Hp Hpid Hdir Hc Hres Hr1 Hid Hw Hlen.
  assert (0 <= strlen from) by (unfold strlen; lia).
  unfold pgfuse_symlink, new_meta in *.
  open_world_allocs w; rewrite Hp; repeat decide_test; rewrite Hdir; hred;
    rewrite Hc; rewrite (to_int_small res) by lia; repeat decide_test;
    rewrite Hr1; repeat decide_test; rewrite Hw;
    rewrite (to_int_small (strlen from)) by lia; repeat decide_test;
    rewrite (to_size_t_small (strlen from)) by lia; rewrite Z.eqb_refl; hred;
    repeat split.
Qed.

Lemma readlink_success (w : World Db) (path : string) (buflen : Z) (buf : list byte)
    (id : Z) (meta : PgMeta) (res : Z) (bytes : list byte) :
  acquires w = true ->
  psql_read_meta_from_path (view w) path = (id, meta) ->
  0 <= id ->
  S_ISLNK (mode meta) = true ->
  0 <= size meta < 2 ^ 63 ->
  size meta + 1 <= buflen ->
  psql_read_buf (view w) (block_size (data w)) id path buf 0 (size meta) = (res, bytes) ->
  0 <= res < 2 ^ 31 ->
  let '(r, _, out) := run (pgfuse_readlink path buflen) w buf in
  r = 0 /\ out = <[Z.to_nat (size meta) := x00]> bytes.
Proof.
  intros Ha Hr Hid Hlnk Hsize Hbuf Hread Hres. unfold pgfuse_readlink.
  open_world w; rewrite Hr; decide_test; rewrite Hlnk; hred;
    rewrite to_size_t_small by lia; decide_test; rewrite Hread;
    rewrite (to_int_small res) by lia; decide_test; split; reflexivity.
Qed.

(** *** The outcome of a handler, from what the database layer returns *)

(** X5.  When the path does not resolve, getattr, open, readdir, rmdir,
    unlink, truncate, chmod, chown, readlink and utimens return the error
    of the resolution after a rollback: the committed database is
    untouched, the file handle and the caller's buffer are left alone,
    while getattr has already zeroed the stat buffer and readdir has
    already emitted "." and "..". *)
Theorem lookup_errors_propagate (w : World Db) (path : string) (id : Z) (meta : PgMeta)
    (fi : fuse_file_info) (stbuf : stat) (buf : list byte) (names : list string)
    (n offset : Z) (tv0 tv1 : timespec) :
  acquires w = true ->
  psql_read_meta_from_path (view w) path = (id, meta) ->
  - 2 ^ 31 <= id < 0 ->
  fails_with w stat_zero id (run (pgfuse_getattr path) w stbuf) /\
  fails_with w fi id (run (pgfuse_open path) w fi) /\
  fails_with w (names ++ ["."; ".."])%list id (run (pgfuse_readdir path offset fi) w names) /\
  fails_with w tt id (run (pgfuse_rmdir path) w tt) /\
  fails_with w tt id (run (pgfuse_unlink path) w tt) /\
  fails_with w tt id (run (pgfuse_truncate path offset) w tt) /\
  fails_with w tt id (run (pgfuse_chmod path n) w tt) /\
  fails_with w tt id (run (pgfuse_chown path n offset) w tt) /\
  fails_with w buf id (run (pgfuse_readlink path n) w buf) /\
  fails_with w tt id (run (pgfuse_utimens path tv0 tv1) w tt).
Proof.
  intros Ha Hr Hid.
  pose proof (to_int_small id ltac:(lia)) as Hint.
  unfold fails_with, pgfuse_getattr, pgfuse_open, pgfuse_readdir, pgfuse_rmdir, pgfuse_unlink,
    pgfuse_truncate, pgfuse_chmod, pgfuse_chown, pgfuse_readlink, pgfuse_utimens.
  open_world w; rewrite Hr, ?Hint; repeat decide_test; rewrite ?Hint; repeat split.
Qed.

(** X6.  read, write and ftruncate on the file handle 0 return -EBADF
    after a rollback, on any mount: apart from the four events of the
    connection the process is as before, and so is the buffer of read. *)
Theorem zero_handle_rejected (w : World Db) (path : string) (buf out : list byte)
    (len offset : Z) (fi : fuse_file_info) :
  acquires w = true ->
  fh fi = 0 ->
  let w' := with_event (EvRelease (acquired w)) (with_event EvRollback
              (with_txn None (with_event EvBegin (with_event (EvAcquire (acquired w)) w)))) in
  run (pgfuse_read path len offset fi) w out = (- EBADF, w', out) /\
  run (pgfuse_write path buf len offset fi) w tt = (- EBADF, w', tt) /\
  run (pgfuse_ftruncate path offset fi) w tt = (- EBADF, w', tt).
Proof.
  intros Ha Hfh. destruct fi as [fl h]. cbn in Hfh. subst h.
  unfold pgfuse_read, pgfuse_write, pgfuse_ftruncate.
  open_world w; repeat split.
Qed.

(** X7.  open of a path that resolves: -EISDIR for a directory; -EROFS
    on a read-only mount unless the access mode is O_RDONLY; otherwise the
    metadata is written back unchanged, and open returns the error of
    that write, or 0.  Only when it returns 0 is the id put in the file
    handle and the write committed. *)
Theorem open_cases (w : World Db) (path : string) (fi : fuse_file_info)
    (id : Z) (meta : PgMeta) (res : Z) (d1 : Db) :
  acquires w = true ->
  psql_read_meta_from_path (view w) path = (id, meta) ->
  0 <= id ->
  psql_write_meta (view w) id path meta = (res, d1) ->
  - 2 ^ 31 <= res < 2 ^ 31 ->
  let '(r, w', fi') := run (pgfuse_open path) w fi in
  r = (if S_ISDIR (mode meta) then - EISDIR
       else if read_only (data w) && negb (Z.land (flags fi) O_ACCMODE =? O_RDONLY) then - EROFS
       else if res <? 0 then res else 0) /\
  fi' = (if r =? 0 then set_fh id fi else fi) /\
  db w' = (if r =? 0 then d1 else db w) /\
  txn w' = None.
Proof.
  intros Ha Hr Hid Hw Hres. unfold pgfuse_open. destruct fi as [fl h].
  pose proof (to_int_small res ltac:(lia)) as Hint.
  destruct (read_only (data w)) eqn:Hro.
  all: open_world w; rewrite Hr; decide_test; destruct (S_ISDIR (mode meta)); hred;
    try (repeat split; reflexivity).
  all: try (destruct (Z.land fl O_ACCMODE =? O_RDONLY); hred;
            try (repeat split; reflexivity)).
  all: rewrite Hw, ?Hint; destruct (Z.ltb_spec res 0); hred;
    [ neg_result res | ]; repeat split.
Qed.

(** X8.  unlink of a path that resolves: -EPERM for a directory, also on
    a read-only mount; -EROFS on a read-only mount otherwise; else the
    error of psql_delete_file, or 0.  The deletion is committed only when
    unlink returns 0. *)
Theorem unlink_cases (w : World Db) (path : string) (id : Z) (meta : PgMeta) (res : Z) (d1 : Db) :
  acquires w = true ->
  psql_read_meta_from_path (view w) path = (id, meta) ->
  0 <= id ->
  psql_delete_file (view w) id path = (res, d1) ->
  - 2 ^ 31 <= res < 2 ^ 31 ->
  let '(r, w', _) := run (pgfuse_unlink path) w tt in
  r = (if S_ISDIR (mode meta) then - EPERM
       else if read_only (data w) then - EROFS
       else if res <? 0 then res else 0) /\
  db w' = (if r =? 0 then d1 else db w) /\
  txn w' = None.
Proof.
  intros Ha Hr Hid Hw Hres. unfold pgfuse_unlink.
  pose proof (to_int_small res ltac:(lia)) as Hint.
  destruct (read_only (data w)) eqn:Hro.
  all: open_world w; rewrite Hr; decide_test; destruct (S_ISDIR (mode meta)); hred;
    try (repeat split; reflexivity).
  all: rewrite Hw, ?Hint; destruct (Z.ltb_spec res 0); hred;
    [ neg_result res | ]; repeat split.
Qed.

(** X9.  rmdir of a path that resolves: -ENOTDIR for anything but a
    directory, also on a read-only mount; -EROFS on a read-only mount
    otherwise; else the error of psql_delete_dir (such as -ENOTEMPTY), or
    0.  The deletion is committed only when rmdir returns 0. *)
Theorem rmdir_cases (w : World Db) (path : string) (id : Z) (meta : PgMeta) (res : Z) (d1 : Db) :
  acquires w = true ->
  psql_read_meta_from_path (view w) path = (id, meta) ->
  0 <= id ->
  psql_delete_dir (view w) id path = (res, d1) ->
  - 2 ^ 31 <= res < 2 ^ 31 ->
  let '(r, w', _) := run (pgfuse_rmdir path) w tt in
  r = (if negb (S_ISDIR (mode meta)) then - ENOTDIR
       else if read_only (data w) then - EROFS
       else if res <? 0 then res else 0) /\
  db w' = (if r =? 0 then d1 else db w) /\
  txn w' = None.
Proof.
  intros Ha Hr Hid Hw Hres. unfold pgfuse_rmdir.
  pose proof (to_int_small res ltac:(lia)) as Hint.
  destruct (read_only (data w)) eqn:Hro.
  all: open_world w; rewrite Hr; decide_test; destruct (S_ISDIR (mode meta)); hred;
    try (repeat split; reflexivity).
  all: rewrite Hw, ?Hint; destruct (Z.ltb_spec res 0); hred;
    [ neg_result res | ]; repeat split.
Qed.

(** X10.  truncate of a path that resolves: -EISDIR for a directory;
    -EROFS on a read-only mount; else the blocks are cut and the metadata
    written with size = offset, and truncate returns the first error of
    the two, or 0.  Both changes are committed together when it returns
    0; when the metadata write fails, the cut of the blocks is rolled
    back with it. *)
Theorem truncate_cases (w : World Db) (path : string) (offset : Z)
    (id : Z) (meta : PgMeta) (res1 : Z) (d1 : Db) (res2 : Z) (d2 : Db) :
  acquires w = true ->
  psql_read_meta_from_path (view w) path = (id, meta) ->
  0 <= id ->
  psql_truncate (view w) (block_size (data w)) id path offset = (res1, d1) ->
  - 2 ^ 31 <= res1 < 2 ^ 31 ->
  psql_write_meta d1 id path (set_size offset meta) = (res2, d2) ->
  - 2 ^ 31 <= res2 < 2 ^ 31 ->
  let '(r, w', _) := run (pgfuse_truncate path offset) w tt in
  r = (if S_ISDIR (mode meta) then - EISDIR
       else if read_only (data w) then - EROFS
       else if res1 <? 0 then res1
       else if res2 <? 0 then res2 else 0) /\
  db w' = (if r =? 0 then d2 else db w) /\
  txn w' = None.
Proof.
  intros Ha Hr Hid Ht Hres1 Hw Hres2. unfold pgfuse_truncate.
  pose proof (to_int_small res1 ltac:(lia)) as Hint1.
  pose proof (to_int_small res2 ltac:(lia)) as Hint2.
  destruct (read_only (data w)) eqn:Hro.
  all: open_world w; rewrite Hr; decide_test; destruct (S_ISDIR (mode meta)); hred;
    try (repeat split; reflexivity).
  all: rewrite Ht, ?Hint1; destruct (Z.ltb_spec res1 0); hred;
    [ neg_result res1; repeat split | ].
  all: rewrite Hw, ?Hint2; destruct (Z.ltb_spec res2 0); hred;
    [ neg_result res2 | ]; repeat split.
Qed.

(** X11.  ftruncate on a handle other than 0 whose inode exists does what
    truncate does, with the handle in place of the path, but without the
    test for a directory. *)
Theorem ftruncate_cases (w : World Db) (path : string) (offset : Z) (fi : fuse_file_info)
    (id : Z) (meta : PgMeta) (res1 : Z) (d1 : Db) (res2 : Z) (d2 : Db) :
  acquires w = true ->
  fh fi <> 0 ->
  psql_read_meta (view w) (fh fi) path = (id, meta) ->
  0 <= id ->
  psql_truncate (view w) (block_size (data w)) (fh fi) path offset = (res1, d1) ->
  - 2 ^ 31 <= res1 < 2 ^ 31 ->
  psql_write_meta d1 (fh fi) path (set_size offset meta) = (res2, d2) ->
  - 2 ^ 31 <= res2 < 2 ^ 31 ->
  let '(r, w', _) := run (pgfuse_ftruncate path offset fi) w tt in
  r = (if read_only (data w) then - EROFS
       else if res1 <? 0 then res1
       else if res2 <? 0 then res2 else 0) /\
  db w' = (if r =? 0 then d2 else db w) /\
  txn w' = None.
Proof.
  intros Ha Hfh Hr Hid Ht Hres1 Hw Hres2. unfold pgfuse_ftruncate. destruct fi as [fl h].
  pose proof (to_int_small res1 ltac:(lia)) as Hint1.
  pose proof (to_int_small res2 ltac:(lia)) as Hint2.
  destruct (read_only (data w)) eqn:Hro.
  all: open_world w; decide_test; rewrite Hr; decide_test; hred;
    try (repeat split; reflexivity).
  all: rewrite Ht, ?Hint1; destruct (Z.ltb_spec res1 0); hred;
    [ neg_result res1; repeat split | ].
  all: rewrite Hw, ?Hint2; destruct (Z.ltb_spec res2 0); hred;
    [ neg_result res2 | ]; repeat split.
Qed.

(** X12.  chmod and chown of a path that resolves return -EROFS on a
    read-only mount and otherwise write the metadata with the new mode,
    or the new owner and group.  chmod returns the error of that write,
    or 0; chown returns the result of the write as it is, also when it is
    positive.  The write is committed unless its result is negative. *)
Theorem chmod_chown_cases (w : World Db) (path : string) (mode' uid' gid' : Z)
    (id : Z) (meta : PgMeta) (res1 : Z) (d1 : Db) (res2 : Z) (d2 : Db) :
  acquires w = true ->
  psql_read_meta_from_path (view w) path = (id, meta) ->
  0 <= id ->
  psql_write_meta (view w) id path (set_mode mode' meta) = (res1, d1) ->
  - 2 ^ 31 <= res1 < 2 ^ 31 ->
  psql_write_meta (view w) id path (set_gid gid' (set_uid uid' meta)) = (res2, d2) ->
  - 2 ^ 31 <= res2 < 2 ^ 31 ->
  let '(r1, w1, _) := run (pgfuse_chmod path mode') w tt in
  let '(r2, w2, _) := run (pgfuse_chown path uid' gid') w tt in
  r1 = (if read_only (data w) then - EROFS else if res1 <? 0 then res1 else 0) /\
  db w1 = (if read_only (data w) || (res1 <? 0) then db w else d1) /\
  r2 = (if read_only (data w) then - EROFS else res2) /\
  db w2 = (if read_only (data w) || (res2 <? 0) then db w else d2).
Proof.
  intros Ha Hr Hid Hw1 Hres1 Hw2 Hres2. unfold pgfuse_chmod, pgfuse_chown.
  pose proof (to_int_small res1 ltac:(lia)) as Hint1.
  pose proof (to_int_small res2 ltac:(lia)) as Hint2.
  destruct (read_only (data w)) eqn:Hro.
  all: open_world w; rewrite Hr; decide_test; hred; try (repeat split; reflexivity).
  all: rewrite Hw1, Hw2, ?Hint1, ?Hint2;
    destruct (res1 <? 0), (res2 <? 0); hred; repeat split.
Qed.

(** X13.  utimens of a path that resolves writes the metadata with the
    two new times, atime from the first and mtime from the second, and
    everything else as read, ctime included; it returns the error of that
    write after a rollback, or 0 after a commit.  The mount being
    read-only makes no difference. *)
Theorem utimens_cases (w : World Db) (path : string) (tv0 tv1 : timespec)
    (id : Z) (meta : PgMeta) (res : Z) (d1 : Db) :
  acquires w = true ->
  psql_read_meta_from_path (view w) path = (id, meta) ->
  0 <= id ->
  psql_write_meta (view w) id path (set_mtime tv1 (set_atime tv0 meta)) = (res, d1) ->
  - 2 ^ 31 <= res < 2 ^ 31 ->
  let '(r, w', _) := run (pgfuse_utimens path tv0 tv1) w tt in
  r = (if res <? 0 then res else 0) /\
  db w' = (if res <? 0 then db w else d1) /\
  txn w' = None.
Proof.
  intros Ha Hr Hid Hw Hres. unfold pgfuse_utimens.
  pose proof (to_int_small res ltac:(lia)) as Hint.
  open_world w; rewrite Hr; decide_test; rewrite Hw, Hint; destruct (res <? 0); hred;
    repeat split.
Qed.

(** X14.  readdir of a path that resolves to an id below 2^31 emits ".",
    "..", and then the names psql_readdir delivers, behind what the
    buffer held; it returns the error of psql_readdir, or 0, and leaves
    the database as it is. *)
Theorem readdir_cases (w : World Db) (path : string) (offset : Z) (fi : fuse_file_info)
    (buf : list string) (id : Z) (meta : PgMeta) (res : Z) (names : list string) :
  acquires w = true ->
  psql_read_meta_from_path (view w) path = (id, meta) ->
  0 <= id < 2 ^ 31 ->
  psql_readdir (view w) id = (res, names) ->
  - 2 ^ 31 <= res < 2 ^ 31 ->
  let '(r, w', out) := run (pgfuse_readdir path offset fi) w buf in
  r = (if res <? 0 then res else 0) /\
  out = (buf ++ ["."; ".."] ++ names)%list /\
  (txn w = None -> db w' = db w).
Proof.
  intros Ha Hr Hid Hd Hres. unfold pgfuse_readdir.
  pose proof (to_int_small res ltac:(lia)) as Hint.
  pose proof (to_int_small id ltac:(lia)) as Hint'.
  open_world w; rewrite Hr, Hint'; decide_test; rewrite Hd, Hint; destruct (res <? 0); hred;
    rewrite <- ?app_assoc; repeat split; discriminate.
Qed.

(** X15.  readdir keeps the id of the directory in an int.  When the
    path resolves to an id from 2^31 up to 2^32 - 1, the int is id - 2^32,
    which is negative: readdir takes it for an error and returns it,
    having emitted "." and ".." only. *)
Theorem readdir_truncates_id (w : World Db) (path : string) (offset : Z) (fi : fuse_file_info)
    (buf : list string) (id : Z) (meta : PgMeta) :
  acquires w = true ->
  psql_read_meta_from_path (view w) path = (id, meta) ->
  2 ^ 31 <= id < 2 ^ 32 ->
  let '(r, w', out) := run (pgfuse_readdir path offset fi) w buf in
  r = id - 2 ^ 32 /\ r < 0 /\ out = (buf ++ ["."; ".."])%list.
Proof.
  intros Ha Hr Hid. unfold pgfuse_readdir.
  assert (Hint : to_int id = id - 2 ^ 32).
  { unfold to_int, wrap_signed. change (2 ^ (32 - 1)) with (2 ^ 31).
    replace (id + 2 ^ 31) with (id - 2 ^ 31 + 1 * 2 ^ 32) by lia.
    rewrite Z.mod_add by lia. rewrite Z.mod_small; lia. }
  open_world w; rewrite Hr, Hint; decide_test; repeat split; lia.
Qed.

(** X16.  read on a handle other than 0 returns what psql_read_buf
    returns, a byte count or an error, and leaves the caller's buffer as
    psql_read_buf left it; the database is as before. *)
Theorem read_cases (w : World Db) (path : string) (buf : list byte) (len offset : Z)
    (fi : fuse_file_info) (res : Z) (bytes : list byte) :
  acquires w = true ->
  fh fi <> 0 ->
  psql_read_buf (view w) (block_size (data w)) (fh fi) path buf offset len = (res, bytes) ->
  - 2 ^ 31 <= res < 2 ^ 31 ->
  let '(r, w', out) := run (pgfuse_read path len offset fi) w buf in
  r = res /\ out = bytes /\ (txn w = None -> db w' = db w).
Proof.
  intros Ha Hfh Hr Hres. unfold pgfuse_read. destruct fi as [fl h].
  pose proof (to_int_small res ltac:(lia)) as Hint.
  open_world w; decide_test; rewrite Hr, Hint; destruct (res <? 0); hred;
    repeat split; discriminate.
Qed.

(** What [new_meta] is when the clock gives [sec] seconds and [usec]
    microseconds. *)
Lemma new_meta_at (w : World Db) (size' mode' sec usec : Z) (meta : PgMeta) :
  timeofday w = Some (sec, usec) ->
  new_meta w size' mode' meta
  = {| size := size'; mode := mode'; uid := context_uid w; gid := context_gid w;
       ctime := {| tv_sec := sec; tv_nsec := usec * 1000 |};
       mtime := {| tv_sec := sec; tv_nsec := usec * 1000 |};
       atime := {| tv_sec := sec; tv_nsec := usec * 1000 |};
       parent_id := parent_id meta |}.
Proof. intros Ht. unfold new_meta. rewrite Ht. reflexivity. Qed.

(** mkdir for the metadata it builds, whatever the clock gives. *)
Lemma mkdir_outcome (w : World Db) (path : string) (mode' : Z)
    (parent_id : Z) (parent_meta : PgMeta) (res : Z) (d1 : Db) :
  acquires w = true ->
  read_only (data w) = false ->
  allocates 2 w = true ->
  psql_read_meta_from_path (view w) (dirname path) = (parent_id, parent_meta) ->
  0 <= parent_id ->
  psql_create_dir (view w) parent_id path (basename path)
    (new_meta w 0 (Z.lor mode' S_IFDIR) parent_meta) = (res, d1) ->
  - 2 ^ 31 <= res < 2 ^ 31 ->
  let '(r, w', _) := run (pgfuse_mkdir path mode') w tt in
  r = (if negb (S_ISDIR (mode parent_meta)) then - ENOENT
       else if res <? 0 then res else 0) /\
  db w' = (if r =? 0 then d1 else db w) /\
  txn w' = None.
Proof.
  intros Ha Hro Hal Hp Hpid Hc Hres.
  pose proof (to_int_small res ltac:(lia)) as Hint.
  unfold pgfuse_mkdir, new_meta in *.
  open_world_allocs w; rewrite Hp; decide_test; destruct (S_ISDIR (mode parent_meta)); hred;
    try (repeat split; reflexivity).
  all: rewrite Hc, Hint; destruct (Z.ltb_spec res 0); hred; [ neg_result res | ]; repeat split.
Qed.

(** X17.  mkdir on a read-write mount, the parent resolving and
    gettimeofday giving [sec] seconds and [usec] microseconds: -ENOENT
    when the parent is not a directory; otherwise psql_create_dir is
    called with the parent's id, the last component of the path and
    metadata of size 0, mode [mode | S_IFDIR], the caller's uid and gid
    and, for each of the three timestamps, [sec] seconds and
    [usec * 1000] nanoseconds, and mkdir returns its error, or 0 after a
    commit.  mkdir itself does not look whether the path exists. *)
Theorem mkdir_cases (w : World Db) (path : string) (mode' : Z)
    (parent_id' : Z) (parent_meta : PgMeta) (sec usec : Z) (res : Z) (d1 : Db) :
  acquires w = true ->
  read_only (data w) = false ->
  allocates 2 w = true ->
  timeofday w = Some (sec, usec) ->
  psql_read_meta_from_path (view w) (dirname path) = (parent_id', parent_meta) ->
  0 <= parent_id' ->
  psql_create_dir (view w) parent_id' path (basename path)
    {| size := 0; mode := Z.lor mode' S_IFDIR;
       uid := context_uid w; gid := context_gid w;
       ctime := {| tv_sec := sec; tv_nsec := usec * 1000 |};
       mtime := {| tv_sec := sec; tv_nsec := usec * 1000 |};
       atime := {| tv_sec := sec; tv_nsec := usec * 1000 |};
       parent_id := parent_id parent_meta |} = (res, d1) ->
  - 2 ^ 31 <= res < 2 ^ 31 ->
  let '(r, w', _) := run (pgfuse_mkdir path mode') w tt in
  r = (if negb (S_ISDIR (mode parent_meta)) then - ENOENT
       else if res <? 0 then res else 0) /\
  db w' = (if r =? 0 then d1 else db w) /\
  txn w' = None.
Proof.
  intros Ha Hro Hal Ht Hp Hpid Hc Hres.
  rewrite <- (new_meta_at w 0 (Z.lor mode' S_IFDIR) sec usec parent_meta Ht) in Hc.
  exact (mkdir_outcome w path mode' parent_id' parent_meta res d1 Ha Hro Hal Hp Hpid Hc Hres).
Qed.

(** X18.  rename to a destination that does not exist (or has the id 0),
    the source and the parent of the destination resolving: -EIO after a
    rollback when that parent is not a directory; -EROFS after a rollback
    on a read-only mount; otherwise psql_rename is called with the id of
    the source, its old parent, the new parent and the last component of
    the destination, and rename commits and returns its result, whatever
    it is, negative or not. *)
Theorem rename_new_name (w : World Db) (from to : string)
    (from_id : Z) (from_meta : PgMeta) (to_id : Z) (to_meta : PgMeta)
    (to_parent_id : Z) (to_parent_meta : PgMeta) (res : Z) (d1 : Db) :
  acquires w = true ->
  allocates 2 w = true ->
  psql_read_meta_from_path (view w) from = (from_id, from_meta) ->
  0 <= from_id ->
  psql_read_meta_from_path (view w) to = (to_id, to_meta) ->
  to_id = - ENOENT \/ to_id = 0 ->
  psql_read_meta_from_path (view w) (dirname to) = (to_parent_id, to_parent_meta) ->
  0 <= to_parent_id ->
  psql_rename (view w) from_id (parent_id from_meta) to_parent_id (basename to) from to
    = (res, d1) ->
  - 2 ^ 31 <= res < 2 ^ 31 ->
  let '(r, w', _) := run (pgfuse_rename from to) w tt in
  let done fin :=
    txn w' = None /\
    trace w' = (trace w ++ [EvAcquire (acquired w); EvBegin; fin; EvRelease (acquired w)])%list in
  if negb (S_ISDIR (mode to_parent_meta)) then r = - EIO /\ db w' = db w /\ done EvRollback
  else if read_only (data w) then r = - EROFS /\ db w' = db w /\ done EvRollback
  else r = res /\ db w' = d1 /\ done EvCommit.
Proof.
  intros Ha Hal Hf Hfid Ht Htid Hp Hpid Hren Hres.
  pose proof (to_int_small res ltac:(lia)) as Hint.
  unfold pgfuse_rename, ENOENT in *.
  destruct (read_only (data w)) eqn:Hro.
  all: open_world_allocs w; rewrite Hf; decide_test; rewrite Ht.
  all: destruct Htid; subst to_id; repeat decide_test; rewrite Hp; decide_test;
    destruct (S_ISDIR (mode to_parent_meta)); hred; rewrite ?Hren, ?Hint; hred;
    rewrite <- ?app_assoc; repeat split.
Qed.

(** X19.  symlink, the parent of the link resolving and, where it gets
    that far, the inode created and found again: -ENOENT when the parent
    is not a directory; -EROFS on a read-only mount; 0 when psql_write_buf
    reports strlen(target) bytes written; -EIO when it reports another
    count.  The new inode and its content are committed only when symlink
    returns 0: after a short write the creation is rolled back too. *)
Theorem symlink_cases (w : World Db) (from to : string)
    (parent_id : Z) (parent_meta : PgMeta) (res : Z) (d1 : Db)
    (id : Z) (meta1 : PgMeta) (n : Z) (d2 : Db) :
  acquires w = true ->
  allocates 2 w = true ->
  psql_read_meta_from_path (view w) (dirname to) = (parent_id, parent_meta) ->
  0 <= parent_id ->
  psql_create_file (view w) parent_id to (basename to)
    (new_meta w (strlen from) (Z.lor 0x1FF S_IFLNK) parent_meta) = (res, d1) ->
  0 <= res < 2 ^ 31 ->
  psql_read_meta_from_path d1 to = (id, meta1) ->
  0 <= id ->
  psql_write_buf d1 (block_size (data w)) id to (list_byte_of_string from) 0 (strlen from)
    = (n, d2) ->
  0 <= n < 2 ^ 31 ->
  let '(r, w', _) := run (pgfuse_symlink from to) w tt in
  r = (if negb (S_ISDIR (mode parent_meta)) then - ENOENT
       else if read_only (data w) then - EROFS
       else if n =? strlen from then 0 else - EIO) /\
  db w' = (if r =? 0 then d2 else db w) /\
  txn w' = None.
Proof.
  intros Ha Hal Hp Hpid Hc Hres Hr1 Hid Hw Hn.
  pose proof (to_int_small res ltac:(lia)) as Hint.
  pose proof (to_int_small n ltac:(lia)) as Hint'.
  pose proof (to_size_t_small n ltac:(lia)) as Hsz.
  unfold pgfuse_symlink, new_meta in *.
  destruct (read_only (data w)) eqn:Hro.
  all: open_world_allocs w; rewrite Hp; decide_test; destruct (S_ISDIR (mode parent_meta)); hred;
    try (repeat split; reflexivity).
  all: rewrite Hc, Hint; decide_test; rewrite Hr1; decide_test; rewrite Hw, Hint'; decide_test;
    rewrite Hsz; destruct (n =? strlen from); hred; repeat split.
Qed.

(** X20.  create on a read-write mount, the path reported missing, its
    parent a directory and psql_create_file successful: create returns
    the result of psql_create_file, also when the lookup of the new path
    fails, in which case the creation is rolled back and the file handle
    is not set although the result says success.  When the lookup
    succeeds the handle is the new id and the creation is committed. *)
Theorem create_outcome (w : World Db) (path : string) (mode' : Z) (fi : fuse_file_info)
    (meta : PgMeta) (parent_id : Z) (parent_meta : PgMeta) (res : Z) (d1 : Db)
    (id : Z) (meta1 : PgMeta) :
  acquires w = true ->
  read_only (data w) = false ->
  allocates 2 w = true ->
  psql_read_meta_from_path (view w) path = (- ENOENT, meta) ->
  psql_read_meta_from_path (view w) (dirname path) = (parent_id, parent_meta) ->
  0 <= parent_id ->
  S_ISDIR (mode parent_meta) = true ->
  psql_create_file (view w) parent_id path (basename path) (new_meta w 0 mode' parent_meta)
    = (res, d1) ->
  0 <= res < 2 ^ 31 ->
  psql_read_meta_from_path d1 path = (id, meta1) ->
  let '(r, w', fi') := run (pgfuse_create path mode') w fi in
  r = res /\
  fi' = (if id <? 0 then fi else set_fh id fi) /\
  db w' = (if id <? 0 then db w else d1) /\
  txn w' = None.
Proof.
  intros Ha Hro Hal Hr Hp Hpid Hdir Hc Hres Hr1.
  unfold pgfuse_create, new_meta, ENOENT in *.
  open_world_allocs w; rewrite Hr; repeat decide_test; rewrite Hp; repeat decide_test;
    rewrite Hdir; hred; rewrite Hc; rewrite (to_int_small res) by lia; repeat decide_test;
    rewrite Hr1; destruct (id <? 0); hred; repeat split.
Qed.

End Generic.

(** ** Every path through a handler *)

Section Paths.

Context {Db : Type} `{!Pgsql Db}.

Ltac closed :=
  first
    [ by repeat split
    | split; [reflexivity |]; eexists; split; [rewrite <- !app_assoc; reflexivity |];
      first [ left; reflexivity
            | right; split; [reflexivity |];
              repeat match goal with H : (_ <? _) = false |- _ => apply Z.ltb_ge in H end;
              first [ lia | done ] ] ].

Ltac closes h w := unfold h, closes_transaction; open_world w; paths; closed.


(** The handlers that open a transaction, except rename and statfs, end
    it on every path on which they return and release the connection;
    after a commit the result is not negative. *)
Lemma getattr_closes (w : World Db) path stbuf :
  let '(r, w', _) := run (pgfuse_getattr path) w stbuf in closes_transaction w w' r.
Proof. closes @pgfuse_getattr w. Qed.

Lemma fgetattr_closes (w : World Db) path fi stbuf :
  let '(r, w', _) := run (pgfuse_fgetattr path fi) w stbuf in closes_transaction w w' r.
Proof. closes @pgfuse_fgetattr w. Qed.


Lemma open_closes (w : World Db) path fi :
  let '(r, w', _) := run (pgfuse_open path) w fi in closes_transaction w w' r.
Proof. closes @pgfuse_open w. Qed.

Lemma readdir_closes (w : World Db) path offset fi buf :
  let '(r, w', _) := run (pgfuse_readdir path offset fi) w buf in closes_transaction w w' r.
Proof. closes @pgfuse_readdir w. Qed.


Lemma rmdir_closes (w : World Db) path :
  let '(r, w', _) := run (pgfuse_rmdir path) w tt in closes_transaction w w' r.
Proof. closes @pgfuse_rmdir w. Qed.

Lemma unlink_closes (w : World Db) path :
  let '(r, w', _) := run (pgfuse_unlink path) w tt in closes_transaction w w' r.
Proof. closes @pgfuse_unlink w. Qed.


Lemma read_closes (w : World Db) path len offset fi buf :
  let '(r, w', _) := run (pgfuse_read path len offset fi) w buf in closes_transaction w w' r.
Proof. closes @pgfuse_read w. Qed.

Lemma truncate_closes (w : World Db) path offset :
  let '(r, w', _) := run (pgfuse_truncate path offset) w tt in closes_transaction w w' r.
Proof. closes @pgfuse_truncate w. Qed.

Lemma ftruncate_closes (w : World Db) path offset fi :
  let '(r, w', _) := run (pgfuse_ftruncate path offset fi) w tt in closes_transaction w w' r.
Proof. closes @pgfuse_ftruncate w. Qed.

Lemma chmod_closes (w : World Db) path mode' :
  let '(r, w', _) := run (pgfuse_chmod path mode') w tt in closes_transaction w w' r.
Proof. closes @pgfuse_chmod w. Qed.

Lemma chown_closes (w : World Db) path uid' gid' :
  let '(r, w', _) := run (pgfuse_chown path uid' gid') w tt in closes_transaction w w' r.
Proof. closes @pgfuse_chown w. Qed.

Lemma symlink_closes (w : World Db) from to :
  let '(r, w', _) := run (pgfuse_symlink from to) w tt in closes_transaction w w' r.
Proof. closes @pgfuse_symlink w. Qed.

Lemma readlink_closes (w : World Db) path len buf :
  let '(r, w', _) := run (pgfuse_readlink path len) w buf in closes_transaction w w' r.
Proof. closes @pgfuse_readlink w. Qed.

Lemma utimens_closes (w : World Db) path tv0 tv1 :
  let '(r, w', _) := run (pgfuse_utimens path tv0 tv1) w tt in closes_transaction w w' r.
Proof. closes @pgfuse_utimens w. Qed.

Ltac unchanged h w := intros; unfold h; open_world w; paths; reflexivity.

(** On a read-only mount create, mkdir, unlink, rmdir, write, truncate,
    ftruncate, chmod, chown, rename and symlink leave the committed
    database as it is, whatever they return. *)
Lemma read_only_unchanged (w : World Db) :
  read_only (data w) = true ->
  (forall path mode' fi, db (run (pgfuse_create path mode') w fi).1.2 = db w) /\
  (forall path mode', db (run (pgfuse_mkdir path mode') w tt).1.2 = db w) /\
  (forall path, db (run (pgfuse_unlink path) w tt).1.2 = db w) /\
  (forall path, db (run (pgfuse_rmdir path) w tt).1.2 = db w) /\
  (forall path buf len offset fi, db (run (pgfuse_write path buf len offset fi) w tt).1.2 = db w) /\
  (forall path offset, db (run (pgfuse_truncate path offset) w tt).1.2 = db w) /\
  (forall path offset fi, db (run (pgfuse_ftruncate path offset fi) w tt).1.2 = db w) /\
  (forall path mode', db (run (pgfuse_chmod path mode') w tt).1.2 = db w) /\
  (forall path uid' gid', db (run (pgfuse_chown path uid' gid') w tt).1.2 = db w) /\
  (forall from to, db (run (pgfuse_rename from to) w tt).1.2 = db w) /\
  (forall from to, db (run (pgfuse_symlink from to) w tt).1.2 = db w).
Proof.
  intros Hro. repeat split.
  - unchanged @pgfuse_create w.
  - unchanged @pgfuse_mkdir w.
  - unchanged @pgfuse_unlink w.
  - unchanged @pgfuse_rmdir w.
  - unchanged @pgfuse_write w.
  - unchanged @pgfuse_truncate w.
  - unchanged @pgfuse_ftruncate w.
  - unchanged @pgfuse_chmod w.
  - unchanged @pgfuse_chown w.
  - unchanged @pgfuse_rename w.
  - unchanged @pgfuse_symlink w.
Qed.

(** create and mkdir test the mount first: on a read-only mount they
    return -EROFS for every path. *)
Lemma read_only_create_mkdir (w : World Db) path mode' fi :
  acquires w = true ->
  read_only (data w) = true ->
  (run (pgfuse_create path mode') w fi).1.1 = - EROFS /\
  (run (pgfuse_mkdir path mode') w tt).1.1 = - EROFS.
Proof.
  intros Ha Hro. unfold pgfuse_create, pgfuse_mkdir. open_world w; split; reflexivity.
Qed.

Ltac ended L :=
  unfold ends_transaction; pose proof L as Hc;
  match type of Hc with context [run ?h ?w ?o] => destruct (run h w o) as [[? ?] ?] end;
  exact Hc.

(** The double free is reached: on a read-write mount, when the path is
    new, its parent is a directory and the second strdup fails, create
    stops in [abort( )] with the transaction open and the connection not
    released; the committed database and the file handle are untouched. *)
Lemma create_double_free (w : World Db) (path : string) (mode' : Z) (fi : fuse_file_info)
    (meta : PgMeta) (parent_id : Z) (parent_meta : PgMeta) (rest : list bool) :
  acquires w = true ->
  read_only (data w) = false ->
  strdup_ok w = true :: false :: rest ->
  psql_read_meta_from_path (view w) path = (- ENOENT, meta) ->
  psql_read_meta_from_path (view w) (dirname path) = (parent_id, parent_meta) ->
  0 <= parent_id ->
  S_ISDIR (mode parent_meta) = true ->
  let '(r, w', fi') := run (pgfuse_create path mode') w fi in
  aborts_open w w' r /\ fi' = fi /\ db w' = db w.
Proof.
  intros Ha Hro Hal Hr Hp Hpid Hdir. unfold pgfuse_create, aborts_open, ENOENT in *.
  open_world w; rewrite Hr; repeat decide_test; rewrite Hp; repeat decide_test;
    rewrite Hdir; hred; repeat split; rewrite <- ?app_assoc; reflexivity.
Qed.

(** The same for mkdir, which does not look the path up. *)
Lemma mkdir_double_free (w : World Db) (path : string) (mode' : Z)
    (parent_id : Z) (parent_meta : PgMeta) (rest : list bool) :
  acquires w = true ->
  read_only (data w) = false ->
  strdup_ok w = true :: false :: rest ->
  psql_read_meta_from_path (view w) (dirname path) = (parent_id, parent_meta) ->
  0 <= parent_id ->
  S_ISDIR (mode parent_meta) = true ->
  let '(r, w', _) := run (pgfuse_mkdir path mode') w tt in
  aborts_open w w' r /\ db w' = db w.
Proof.
  intros Ha Hro Hal Hp Hpid Hdir. unfold pgfuse_mkdir, aborts_open in *.
  open_world w; rewrite Hp; repeat decide_test;
    rewrite Hdir; hred; repeat split; rewrite <- ?app_assoc; reflexivity.
Qed.

(** X1.  getattr, fgetattr, open, readdir, rmdir, unlink, read, truncate,
    ftruncate, chmod, chown, symlink, readlink and utimens end their
    transaction on every path: with a connection they acquire, begin,
    then roll back or commit, then release, in this order and nothing
    else, and a negative result never follows a commit; without a
    connection they return -EIO and begin no transaction.  The macros
    PSQL_BEGIN, PSQL_COMMIT and PSQL_ROLLBACK of pgsql.h are taken not to
    fail. *)
Theorem transaction_discipline (w : World Db) (path to : string) (fi : fuse_file_info)
    (stbuf : stat) (names : list string) (buf : list byte) (n m : Z) (tv0 tv1 : timespec) :
  ends_transaction w (run (pgfuse_getattr path) w stbuf) /\
  ends_transaction w (run (pgfuse_fgetattr path fi) w stbuf) /\
  ends_transaction w (run (pgfuse_open path) w fi) /\
  ends_transaction w (run (pgfuse_readdir path n fi) w names) /\
  ends_transaction w (run (pgfuse_rmdir path) w tt) /\
  ends_transaction w (run (pgfuse_unlink path) w tt) /\
  ends_transaction w (run (pgfuse_read path n m fi) w buf) /\
  ends_transaction w (run (pgfuse_truncate path n) w tt) /\
  ends_transaction w (run (pgfuse_ftruncate path n fi) w tt) /\
  ends_transaction w (run (pgfuse_chmod path n) w tt) /\
  ends_transaction w (run (pgfuse_chown path n m) w tt) /\
  ends_transaction w (run (pgfuse_symlink path to) w tt) /\
  ends_transaction w (run (pgfuse_readlink path n) w buf) /\
  ends_transaction w (run (pgfuse_utimens path tv0 tv1) w tt).
Proof.
  repeat split.
  - ended (getattr_closes w path stbuf).
  - ended (fgetattr_closes w path fi stbuf).
  - ended (open_closes w path fi).
  - ended (readdir_closes w path n fi names).
  - ended (rmdir_closes w path).
  - ended (unlink_closes w path).
  - ended (read_closes w path n m fi buf).
  - ended (truncate_closes w path n).
  - ended (ftruncate_closes w path n fi).
  - ended (chmod_closes w path n).
  - ended (chown_closes w path n m).
  - ended (symlink_closes w path to).
  - ended (readlink_closes w path n buf).
  - ended (utimens_closes w path tv0 tv1).
Qed.



(** X4.  getattr, fgetattr, readdir, read and readlink, started with no
    transaction open, never change the committed database, whatever the
    database layer returns to them. *)
Theorem readers_leave_database (w : World Db) (path : string) (fi : fuse_file_info)
    (stbuf : stat) (names : list string) (buf : list byte) (n m : Z) :
  txn w = None ->
  db (run (pgfuse_getattr path) w stbuf).1.2 = db w /\
  db (run (pgfuse_fgetattr path fi) w stbuf).1.2 = db w /\
  db (run (pgfuse_readdir path n fi) w names).1.2 = db w /\
  db (run (pgfuse_read path n m fi) w buf).1.2 = db w /\
  db (run (pgfuse_readlink path n) w buf).1.2 = db w.
Proof.
  intros Ht. repeat split.
  - unchanged @pgfuse_getattr w.
  - unchanged @pgfuse_fgetattr w.
  - unchanged @pgfuse_readdir w.
  - unchanged @pgfuse_read w.
  - unchanged @pgfuse_readlink w.
Qed.

End Paths.

(** ** The command line *)

(** X26.  Of the arguments that are not options, the first becomes the
    connection string and is dropped from the arguments of FUSE, the second
    becomes the mount point and is kept, and a third is an error that
    changes nothing.  A failing strdup is not noticed: the connection
    string stays unset, the result is still 0, and the next argument, meant
    as the mount point, is taken for the connection string. *)
Theorem opt_proc_arguments (o : Options.PgFuseOptions) (a b c : string) (ok : bool) :
  Options.conninfo o = None ->
  Options.mountpoint o = None ->
  (let '(r1, o1) := pgfuse_opt_proc o a FUSE_OPT_KEY_NONOPT true in
   let '(r2, o2) := pgfuse_opt_proc o1 b FUSE_OPT_KEY_NONOPT true in
   let '(r3, o3) := pgfuse_opt_proc o2 c FUSE_OPT_KEY_NONOPT ok in
   r1 = 0 /\ r2 = 1 /\ r3 = -1 /\
   o2 = Options.set_mountpoint (Some b) (Options.set_conninfo (Some a) o) /\
   o3 = o2) /\
  (let '(r1, o1) := pgfuse_opt_proc o a FUSE_OPT_KEY_NONOPT false in
   let '(r2, o2) := pgfuse_opt_proc o1 b FUSE_OPT_KEY_NONOPT true in
   r1 = 0 /\ o1 = o /\ r2 = 0 /\
   Options.conninfo o2 = Some b /\ Options.mountpoint o2 = None).
Proof.
  intros Hc Hm. destruct o. cbn in *. subst. repeat split.
Qed.

(** X27.  Whatever the argument and the key, the callback returns -1, 0
    or 1 and leaves [read_only] and [block_size] alone; an error leaves
    the connection string and the mount point alone.  Every option it does
    not know is kept for FUSE, "-s" among them, which also turns
    [multi_threaded] off; nothing else changes that flag, and nothing turns
    it on. *)
Theorem opt_proc_frame (o : Options.PgFuseOptions) (arg : string) (key : Z) (ok : bool) :
  let '(r, o') := pgfuse_opt_proc o arg key ok in
  (r = -1 \/ r = 0 \/ r = 1) /\
  Options.read_only o' = Options.read_only o /\
  Options.block_size o' = Options.block_size o /\
  (r = -1 -> Options.conninfo o' = Options.conninfo o /\
             Options.mountpoint o' = Options.mountpoint o) /\
  (key = FUSE_OPT_KEY_OPT -> r = 1) /\
  Options.multi_threaded o' =
    (if (key =? FUSE_OPT_KEY_OPT) && bool_decide (arg = "-s") then false
     else Options.multi_threaded o).
Proof.
  unfold pgfuse_opt_proc, strcmp_eq. destruct o as [? ? ? ci mp ? ? ?].
  destruct (Z.eqb_spec key FUSE_OPT_KEY_OPT) as [-> | Hk].
  { destruct (bool_decide (arg = "-s")); cbn; repeat split; first [ lia | done ]. }
  destruct (key =? FUSE_OPT_KEY_NONOPT), (key =? KEY_HELP), (key =? KEY_VERBOSE),
    (key =? KEY_VERSION), ci, mp;
    cbn; repeat split; first [ lia | done ].
Qed.

(** ** Free space *)

(** Once a mount point has been taken, no further location changes the
    search for that mount point. *)
Lemma match_locations_taken mnt_dir location st :
  prefix_len st = strlen mnt_dir ->
  match_locations mnt_dir location st = st.
Proof.
  intros Hlen. induction location as [| loc rest IH]; [reflexivity |]. cbn.
  rewrite Hlen, Z.gtb_ltb, Z.ltb_irrefl, andb_false_r. exact IH.
Qed.

(** The search for one mount point: it is taken at the first location it
    is a prefix of, with the counters reset, and not taken at all when it
    is empty or a prefix of no location. *)
Lemma match_locations_spec mnt_dir location free avail al :
  strlen mnt_dir < 2 ^ 31 ->
  match_locations mnt_dir location
    {| prefix := None; prefix_len := 0; blocks_free := free; blocks_avail := avail;
       allocs := al |}
  = if holds_location mnt_dir location
    then {| prefix := (strdup_with al mnt_dir).1; prefix_len := strlen mnt_dir;
            blocks_free := INT64_MAX; blocks_avail := INT64_MAX;
            allocs := (strdup_with al mnt_dir).2 |}
    else {| prefix := None; prefix_len := 0; blocks_free := free; blocks_avail := avail;
            allocs := al |}.
Proof.
  intros Hlen. assert (H0 : 0 <= strlen mnt_dir) by (unfold strlen; lia).
  unfold holds_location.
  induction location as [| loc rest IH]; cbn [match_locations existsb prefix_len allocs].
  - by rewrite andb_false_r.
  - rewrite !to_size_t_small by lia. change (to_size_t 0) with 0.
    rewrite Z.gtb_ltb.
    destruct (String.prefix mnt_dir loc); cbn [andb orb].
    + destruct (Z.ltb_spec 0 (strlen mnt_dir)) as [Hpos | Hzero]; cbn [andb].
      * destruct (strdup_with al mnt_dir) as [p al'] eqn:Hdup. cbn [fst snd].
        rewrite to_int_small by lia. by apply match_locations_taken.
      * exact IH.
    + exact IH.
Qed.

(** Mount points that hold no location leave the loop as it is. *)
Lemma mtab_loop_skip_app host B location entries rest free avail al :
  Forall (fun e => match e with
                   | None => True
                   | Some d => holds_location d location = false /\ strlen d < 2 ^ 31
                   end) entries ->
  mtab_loop host B location (entries ++ rest) free avail al
  = mtab_loop host B location rest free avail al.
Proof.
  induction 1 as [| e entries He _ IH]; [reflexivity |].
  destruct e as [d |]; cbn [app mtab_loop]; [| exact IH].
  destruct He as [Hno Hlen]. rewrite match_locations_spec, Hno by exact Hlen. exact IH.
Qed.

Lemma mtab_loop_skip host B location entries free avail al :
  Forall (fun e => match e with
                   | None => True
                   | Some d => holds_location d location = false /\ strlen d < 2 ^ 31
                   end) entries ->
  mtab_loop host B location entries free avail al = (inr (free, avail), al).
Proof.
  intros H. rewrite <- (app_nil_r entries). by rewrite mtab_loop_skip_app.
Qed.

(** The loop stops at the first mount point that holds a location and
    whose [statfs] fails. *)
Lemma mtab_loop_fails host B location before mnt_dir after free avail e fs :
  Forall (fun e => match e with
                   | None => True
                   | Some d => holds_location d location = false /\ strlen d < 2 ^ 31
                   end) before ->
  strlen mnt_dir < 2 ^ 31 ->
  holds_location mnt_dir location = true ->
  statfs host mnt_dir = (e, fs) ->
  - 2 ^ 31 <= e < 0 ->
  mtab_loop host B location (before ++ Some mnt_dir :: after) free avail [] = (inl e, []).
Proof.
  intros Hbefore Hlen Hholds Hfs He.
  rewrite mtab_loop_skip_app by exact Hbefore. cbn [mtab_loop].
  rewrite match_locations_spec, Hholds by exact Hlen.
  cbn [prefix blocks_free blocks_avail allocs strdup_with fst snd].
  rewrite Hfs, to_int_small by lia.
  by replace (e <? 0) with true by (symmetry; apply Z.ltb_lt; lia).
Qed.

(** When [statfs] succeeds on the host and no call of strdup fails, the
    loop ends with the two counters. *)
Lemma mtab_loop_total host B location entries free avail :
  (forall p, 0 <= to_int (statfs host p).1) ->
  Forall (fun e => match e with None => True | Some d => strlen d < 2 ^ 31 end) entries ->
  exists free' avail',
    mtab_loop host B location entries free avail [] = (inr (free', avail'), []).
Proof.
  intros Hfs Hlen. revert free avail.
  induction Hlen as [| e entries He _ IH]; intros free avail; [by eexists _, _ |].
  destruct e as [d |]; cbn [mtab_loop]; [| apply IH].
  rewrite match_locations_spec by exact He.
  destruct (holds_location d location); cbn [prefix blocks_free blocks_avail allocs strdup_with fst snd];
    [| apply IH].
  specialize (Hfs d). destruct (statfs host d) as [res fs]. cbn [fst] in Hfs.
  replace (to_int res <? 0) with false by (symmetry; apply Z.ltb_ge; lia). apply IH.
Qed.

(** The counters at the end of the loop are those of the last mount point
    that holds a location: what the mount points before it gave is lost. *)
Lemma mtab_loop_last host B location before mnt_dir after free avail :
  (forall p, 0 <= to_int (statfs host p).1) ->
  Forall (fun e => match e with None => True | Some d => strlen d < 2 ^ 31 end) before ->
  strlen mnt_dir < 2 ^ 31 ->
  holds_location mnt_dir location = true ->
  Forall (fun e => match e with
                   | None => True
                   | Some d => holds_location d location = false /\ strlen d < 2 ^ 31
                   end) after ->
  mtab_loop host B location (before ++ Some mnt_dir :: after) free avail []
  = (inr (smaller_of (Vfs.f_bfree (statfs host mnt_dir).2) (Vfs.f_frsize (statfs host mnt_dir).2)
            B INT64_MAX,
          smaller_of (Vfs.f_bavail (statfs host mnt_dir).2) (Vfs.f_frsize (statfs host mnt_dir).2)
            B INT64_MAX), []).
Proof.
  intros Hfs Hbefore Hlen Hholds Hafter. revert free avail.
  induction Hbefore as [| e before He _ IH]; intros free avail.
  - cbn [app mtab_loop]. rewrite match_locations_spec, Hholds by exact Hlen.
    cbn [prefix blocks_free blocks_avail allocs strdup_with fst snd].
    specialize (Hfs mnt_dir). destruct (statfs host mnt_dir) as [res fs]. cbn [fst snd] in *.
    replace (to_int res <? 0) with false by (symmetry; apply Z.ltb_ge; lia).
    by apply mtab_loop_skip.
  - destruct e as [d |]; cbn [app mtab_loop]; [| apply IH].
    rewrite match_locations_spec by exact He.
    destruct (holds_location d location);
      cbn [prefix blocks_free blocks_avail allocs strdup_with fst snd]; [| apply IH].
    pose proof (Hfs d) as Hd. destruct (statfs host d) as [res fs]. cbn [fst] in Hd.
    replace (to_int res <? 0) with false by (symmetry; apply Z.ltb_ge; lia). apply IH.
Qed.

(** Below the bound, the counter is the free bytes in blocks. *)
Lemma smaller_of_small blocks frsize B :
  0 < B ->
  0 <= blocks * frsize < to_size_t (INT64_MAX * B) ->
  to_size_t (smaller_of blocks frsize B INT64_MAX) = blocks * frsize / B.
Proof.
  intros HB Hx. unfold smaller_of.
  assert (Hbound : to_size_t (INT64_MAX * B) <= INT64_MAX * B).
  { unfold to_size_t, wrap_unsigned. apply Z.mod_le; unfold INT64_MAX; lia. }
  assert (Hlt : to_size_t (INT64_MAX * B) < 2 ^ 64).
  { unfold to_size_t, wrap_unsigned. apply Z.mod_pos_bound. lia. }
  rewrite (to_size_t_small (blocks * frsize)) by lia.
  replace (blocks * frsize <? to_size_t (INT64_MAX * B)) with true
    by (symmetry; apply Z.ltb_lt; lia).
  assert (Hq : 0 <= blocks * frsize / B < INT64_MAX).
  { split; [apply Z.div_pos; lia | apply Z.div_lt_upper_bound; lia]. }
  unfold INT64_MAX in Hq.
  rewrite to_int64_small by lia. apply to_size_t_small. lia.
Qed.

Section StatfsFacts.

Context {Db : Type} `{!PgsqlFs Db}.

Variable MAX_TABLESPACE_OIDS : Z.
Variable MAX_FILENAME_LENGTH : Z.

(** X28.  statfs returns without rollback and without release, the
    transaction still open and the statvfs buffer zeroed, in two cases:
    when the query for the tablespace locations fails, with its error;
    and when [statfs] of the host fails for a mount point that holds a
    location, with the result of that call. *)
Theorem statfs_leaves_transaction_open (w : World Db) (host : Host) (path : string)
    (buf : statvfs) (res : Z) (locs : list string) :
  acquires w = true ->
  psql_get_tablespace_locations (view w) MAX_TABLESPACE_OIDS = (res, locs) ->
  - 2 ^ 31 <= res < 2 ^ 31 ->
  let '(r, w', out) := run (pgfuse_statfs MAX_TABLESPACE_OIDS MAX_FILENAME_LENGTH host path) w buf in
  let left_open :=
    txn w' = Some (view w) /\
    trace w' = (trace w ++ [EvAcquire (acquired w); EvBegin])%list /\
    out = statvfs_zero in
  (res < 0 -> r = res /\ left_open) /\
  (0 <= res ->
   forall before mnt_dir after e fs,
     strdup_ok w = [] ->
     mtab host = (before ++ Some mnt_dir :: after)%list ->
     Forall (fun e => match e with
                      | None => True
                      | Some d => holds_location d (map (resolve host) locs) = false /\
                                  strlen d < 2 ^ 31
                      end) before ->
     strlen mnt_dir < 2 ^ 31 ->
     holds_location mnt_dir (map (resolve host) locs) = true ->
     statfs host mnt_dir = (e, fs) ->
     - 2 ^ 31 <= e < 0 ->
     r = e /\ left_open).
Proof.
  intros Ha Hloc Hres.
  pose proof (to_int_small res ltac:(lia)) as Hint.
  unfold pgfuse_statfs.
  open_world w; rewrite Hloc, Hint; destruct (Z.ltb_spec res 0); hred.
  all: try (split; [intros _ | intros ?; lia];
            repeat split; rewrite <- ?app_assoc; reflexivity).
  all: match goal with |- context [mtab_loop ?h ?B ?l ?m ?f ?a ?al] =>
         destruct (mtab_loop h B l m f a al) as [[e' | [free avail]] rest] eqn:Hloop end;
    hred; repeat split_op; hred.
  all: (split; [intros ?; lia |]);
    intros _ before mnt_dir after e fs -> Hmtab Hbefore Hlen Hholds Hfs He;
    rewrite Hmtab, (mtab_loop_fails _ _ _ _ _ _ _ _ _ _ Hbefore Hlen Hholds Hfs He) in Hloop;
    inversion Hloop; subst; repeat split; rewrite <- ?app_assoc; reflexivity.
Qed.

(** X29.  When the queries of the database succeed, [statfs] of the host
    never fails and no strdup fails, statfs returns 0 after a commit with:
    the block size of the mount as f_bsize and f_frsize; as f_bavail, and
    as f_bfree too, the available bytes, in blocks, of the last mount
    point of the mount table that holds a tablespace location, whatever
    the mount points before it have free, as long as these bytes stay
    below INT64_MAX blocks taken modulo 2^64;
    INT64_MAX free inodes; the fixed f_fsid; ST_RDONLY exactly on a
    read-only mount; the name length of config.h. *)
Theorem statfs_last_mount (w : World Db) (host : Host) (path : string) (buf : statvfs)
    (res : Z) (locs : list string) (before after : list (option string)) (mnt_dir : string) :
  acquires w = true ->
  strdup_ok w = [] ->
  psql_get_tablespace_locations (view w) MAX_TABLESPACE_OIDS = (res, locs) ->
  0 <= res < 2 ^ 31 ->
  0 <= psql_get_fs_blocks_used (view w) ->
  0 <= psql_get_fs_files_used (view w) ->
  (forall p, 0 <= to_int (statfs host p).1) ->
  mtab host = (before ++ Some mnt_dir :: after)%list ->
  Forall (fun e => match e with None => True | Some d => strlen d < 2 ^ 31 end) before ->
  strlen mnt_dir < 2 ^ 31 ->
  holds_location mnt_dir (map (resolve host) locs) = true ->
  Forall (fun e => match e with
                   | None => True
                   | Some d => holds_location d (map (resolve host) locs) = false /\
                               strlen d < 2 ^ 31
                   end) after ->
  let '(r, w', out) := run (pgfuse_statfs MAX_TABLESPACE_OIDS MAX_FILENAME_LENGTH host path) w buf in
  let fs := (statfs host mnt_dir).2 in
  r = 0 /\
  f_bsize out = to_size_t (block_size (data w)) /\
  f_frsize out = to_size_t (block_size (data w)) /\
  f_bavail out = to_size_t (smaller_of (Vfs.f_bavail fs) (Vfs.f_frsize fs)
                              (block_size (data w)) INT64_MAX) /\
  (0 < block_size (data w) ->
   0 <= Vfs.f_bavail fs * Vfs.f_frsize fs < to_size_t (INT64_MAX * block_size (data w)) ->
   f_bavail out = Vfs.f_bavail fs * Vfs.f_frsize fs / block_size (data w)) /\
  f_bfree out = f_bavail out /\
  f_ffree out = INT64_MAX /\
  f_favail out = INT64_MAX /\
  f_fsid out = 0x4FE3A364 /\
  f_flag out = (if read_only (data w) then ST_RDONLY else 0) /\
  f_namemax out = to_size_t MAX_FILENAME_LENGTH /\
  txn w' = None /\
  trace w' = (trace w ++ [EvAcquire (acquired w); EvBegin; EvCommit;
                          EvRelease (acquired w)])%list.
Proof.
  intros Ha Hal Hloc Hres Hblocks Hfiles Hfs Hmtab Hbefore Hlen Hholds Hafter.
  pose proof (to_int_small res ltac:(lia)) as Hint.
  pose proof (mtab_loop_last host (block_size (data w)) (map (resolve host) locs) before mnt_dir
                after INT64_MAX INT64_MAX Hfs Hbefore Hlen Hholds Hafter) as Hloop.
  rewrite <- Hmtab in Hloop. clear Hmtab Hfs Hbefore Hafter Hholds Hlen.
  unfold pgfuse_statfs.
  destruct (read_only (data w)) eqn:Hro.
  all: open_world w; rewrite Hloc, Hint; decide_test; rewrite Hloop; hred;
    repeat decide_test; repeat split; rewrite <- ?app_assoc;
    first [ reflexivity | intros; cbn; by apply smaller_of_small ].
Qed.

End StatfsFacts.

(** ** Facts about the modelled database layer *)

Lemma row_id_update_row j f r : Spec.row_id (Spec.update_row j f r) = Spec.row_id r.
Proof. unfold Spec.update_row. by destruct (Spec.has_id j r). Qed.

Lemma find_id_update_row rows i j f :
  Spec.find_id (map (Spec.update_row j f) rows) i = Spec.update_row j f <$> Spec.find_id rows i.
Proof.
  unfold Spec.find_id. induction rows as [| r rows IH]; [reflexivity |].
  cbn [map List.find]. unfold Spec.has_id at 1. rewrite row_id_update_row.
  fold (Spec.has_id i r). destruct (Spec.has_id i r); [reflexivity | exact IH].
Qed.

Lemma find_id_has_id rows i r : Spec.find_id rows i = Some r -> Spec.has_id i r = true.
Proof. intros H. by apply find_some in H as [_ H]. Qed.

(** The metadata written by [psql_write_meta] is the metadata read back. *)
Lemma write_meta_read_meta (d : Spec.Database) i p m r d' :
  Spec.psql_write_meta d i p m = (r, d') -> 0 <= r ->
  size (Spec.psql_read_meta d' i p).2 = size m.
Proof.
  unfold Spec.psql_write_meta, Spec.psql_read_meta.
  destruct (Spec.find_id (Spec.dir d) i) as [r0 |] eqn:Hfind; intros [= <- <-] Hr.
  - cbn [Spec.dir Spec.with_dir]. rewrite find_id_update_row, Hfind. cbn.
    unfold Spec.update_row. by rewrite (find_id_has_id _ _ _ Hfind).
  - unfold ENOENT in Hr. lia.
Qed.

(** *** Paths *)

Lemma name_ok_chars c :
  name_ok c = true ->
  list_ascii_of_string c <> [] /\ forallb (fun a => negb (is_slash a)) (list_ascii_of_string c) = true.
Proof.
  unfold name_ok. intros [Hne Hall]%andb_prop. split; [| exact Hall].
  intros Hnil. apply negb_true_iff, bool_decide_eq_false in Hne. apply Hne.
  rewrite <- (string_of_list_ascii_of_string c), Hnil. reflexivity.
Qed.

Lemma forallb_rev {A} (f : A -> bool) l : forallb f (rev l) = forallb f l.
Proof.
  induction l as [| a l IH]; [reflexivity |].
  cbn. rewrite forallb_app, IH. cbn. rewrite andb_true_r. apply andb_comm.
Qed.

Lemma list_ascii_path_of cs :
  cs <> [] -> list_ascii_of_string (path_of cs) = flat_path cs.
Proof.
  destruct cs; [congruence |]. intros _. unfold path_of.
  apply list_ascii_of_string_of_list_ascii.
Qed.

Lemma flat_path_snoc cs c :
  flat_path (cs ++ [c]) = (flat_path cs ++ slash :: list_ascii_of_string c)%list.
Proof. unfold flat_path. rewrite flat_map_app. cbn. by rewrite app_nil_r. Qed.

Lemma components_name l acc rest :
  forallb (fun a => negb (is_slash a)) l = true ->
  Spec.components acc (l ++ rest) = Spec.components (rev l ++ acc) rest.
Proof.
  revert acc. induction l as [| a l IH]; intros acc Hl; [reflexivity |].
  cbn in Hl. apply andb_prop in Hl as [Ha Hl]. apply negb_true_iff in Ha.
  cbn. rewrite Ha, IH by exact Hl. by rewrite <- app_assoc.
Qed.

Lemma components_flat_path cs :
  forallb name_ok cs = true -> Spec.components [] (flat_path cs) = cs.
Proof.
  induction cs as [| c cs IH]; [reflexivity |].
  cbn [forallb]. intros [Hc Hcs]%andb_prop.
  apply name_ok_chars in Hc as [Hne Hall].
  change (flat_path (c :: cs)) with (slash :: list_ascii_of_string c ++ flat_path cs)%list.
  cbn [Spec.components]. change (is_slash slash) with true. cbv iota.
  rewrite components_name, app_nil_r by exact Hall.
  assert (Hrev : rev (list_ascii_of_string c) <> []).
  { intros E. apply Hne. by rewrite <- (rev_involutive (list_ascii_of_string c)), E. }
  specialize (IH Hcs).
  destruct cs as [| c' cs].
  - cbn. destruct (rev (list_ascii_of_string c)) eqn:E; [congruence |].
    rewrite <- E, rev_involutive, string_of_list_ascii_of_string. reflexivity.
  - change (flat_path (c' :: cs)) with (slash :: list_ascii_of_string c' ++ flat_path cs)%list in *.
    cbn [Spec.components] in *. change (is_slash slash) with true in *. cbv iota in *.
    destruct (rev (list_ascii_of_string c)) eqn:E; [congruence |].
    rewrite <- E, rev_involutive, string_of_list_ascii_of_string. by rewrite IH.
Qed.

Lemma split_path_of cs : forallb name_ok cs = true -> Spec.split_path (path_of cs) = cs.
Proof.
  intros Hcs. unfold Spec.split_path. destruct cs as [| c cs]; [reflexivity |].
  rewrite list_ascii_path_of by congruence. by apply components_flat_path.
Qed.

Lemma drop_name_free l R :
  forallb (fun a => negb (is_slash a)) l = true -> drop_name (l ++ slash :: R) = slash :: R.
Proof.
  induction l as [| a l IH]; [reflexivity |].
  cbn. intros [Ha Hl]%andb_prop. apply negb_true_iff in Ha. rewrite Ha. by apply IH.
Qed.

Lemma take_name_free l R :
  forallb (fun a => negb (is_slash a)) l = true -> take_name (l ++ slash :: R) = l.
Proof.
  induction l as [| a l IH]; [reflexivity |].
  cbn. intros [Ha Hl]%andb_prop. apply negb_true_iff in Ha. rewrite Ha. f_equal. by apply IH.
Qed.

(** The reversed characters of a name: no slash, and a first character. *)
Lemma rev_name_chars c :
  name_ok c = true ->
  exists x t, rev (list_ascii_of_string c) = x :: t /\ is_slash x = false /\
              forallb (fun a => negb (is_slash a)) (x :: t) = true.
Proof.
  intros [Hne Hall]%name_ok_chars. rewrite <- forallb_rev in Hall.
  destruct (rev (list_ascii_of_string c)) as [| x t] eqn:E.
  - exfalso. apply Hne. by rewrite <- (rev_involutive (list_ascii_of_string c)), E.
  - exists x, t. repeat split; [| exact Hall].
    cbn in Hall. apply andb_prop in Hall as [Hx _]. by apply negb_true_iff.
Qed.

Lemma rev_flat_path_snoc cs c :
  rev (flat_path (cs ++ [c])) = (rev (list_ascii_of_string c) ++ slash :: rev (flat_path cs))%list.
Proof.
  rewrite flat_path_snoc, rev_app_distr. cbn [rev]. by rewrite <- app_assoc.
Qed.

Lemma drop_slashes_rev_flat_path cs :
  forallb name_ok cs = true ->
  drop_slashes (rev (flat_path cs)) = rev (flat_path cs).
Proof.
  destruct cs as [| c cs _] using rev_ind; [reflexivity |].
  rewrite forallb_app. cbn [forallb]. rewrite andb_true_r. intros [_ Hc]%andb_prop.
  rewrite rev_flat_path_snoc.
  destruct (rev_name_chars c Hc) as (x & t & -> & Hx & _). cbn. by rewrite Hx.
Qed.

Lemma flat_path_nil cs : flat_path cs = [] -> cs = [].
Proof. by destruct cs. Qed.

Lemma dirname_path_of cs c :
  forallb name_ok cs = true -> name_ok c = true ->
  dirname (path_of (cs ++ [c])) = path_of cs.
Proof.
  intros Hcs Hc. unfold dirname.
  rewrite list_ascii_path_of by (by destruct cs).
  rewrite rev_flat_path_snoc.
  destruct (rev_name_chars c Hc) as (x & t & E & Hx & Hall). rewrite E.
  destruct (flat_path (cs ++ [c])) eqn:Hflat.
  { apply flat_path_nil in Hflat. by destruct cs. }
  cbn [app drop_slashes]. rewrite Hx.
  change (x :: (t ++ slash :: rev (flat_path cs))%list)
    with ((x :: t) ++ slash :: rev (flat_path cs))%list.
  rewrite drop_name_free by exact Hall.
  cbn [drop_slashes]. change (is_slash slash) with true. cbv iota.
  rewrite drop_slashes_rev_flat_path by exact Hcs.
  destruct cs as [| c' cs']; [reflexivity |].
  destruct (rev (flat_path (c' :: cs'))) eqn:E'.
  { apply (f_equal (@rev ascii)) in E'. rewrite rev_involutive in E'. discriminate E'. }
  rewrite <- E', rev_involutive. reflexivity.
Qed.

Lemma basename_path_of cs c :
  forallb name_ok cs = true -> name_ok c = true ->
  basename (path_of (cs ++ [c])) = c.
Proof.
  intros Hcs Hc. unfold basename.
  rewrite list_ascii_path_of by (by destruct cs).
  rewrite rev_flat_path_snoc.
  destruct (rev_name_chars c Hc) as (x & t & E & Hx & Hall). rewrite E.
  destruct (flat_path (cs ++ [c])) eqn:Hflat.
  { apply flat_path_nil in Hflat. by destruct cs. }
  cbn [app drop_slashes]. rewrite Hx.
  change (x :: (t ++ slash :: rev (flat_path cs))%list)
    with ((x :: t) ++ slash :: rev (flat_path cs))%list.
  rewrite take_name_free by exact Hall.
  rewrite <- E, rev_involutive. apply string_of_list_ascii_of_string.
Qed.

(** *** Lookups in the inode table *)

Lemma find_map_same {A} (P : A -> bool) (g : A -> A) l :
  (forall a, P (g a) = P a) -> List.find P (map g l) = g <$> List.find P l.
Proof.
  intros Hg. induction l as [| a l IH]; [reflexivity |].
  cbn. rewrite Hg. destruct (P a); [reflexivity | exact IH].
Qed.

Lemma find_app_l {A} (P : A -> bool) l1 l2 a :
  List.find P l1 = Some a -> List.find P (l1 ++ l2) = Some a.
Proof.
  induction l1 as [| b l1 IH]; [discriminate |].
  cbn. destruct (P b); [done | exact IH].
Qed.

Lemma find_app_r {A} (P : A -> bool) l1 l2 :
  List.find P l1 = None -> List.find P (l1 ++ l2) = List.find P l2.
Proof.
  induction l1 as [| b l1 IH]; [reflexivity |].
  cbn. destruct (P b); [discriminate | exact IH].
Qed.

Lemma find_is_Some {A} (P : A -> bool) l a :
  In a l -> P a = true -> exists b, List.find P l = Some b.
Proof.
  intros Hin Ha. destruct (List.find P l) as [b |] eqn:E; [by exists b |].
  eapply find_none in E; [| exact Hin]. congruence.
Qed.

Lemma fresh_id_gt rows r : In r rows -> Spec.row_id r < Spec.fresh_id rows.
Proof.
  unfold Spec.fresh_id. induction rows as [| r' rows IH]; [done |].
  intros [-> | Hin]; cbn; [lia |]. specialize (IH Hin). lia.
Qed.

Lemma fresh_id_pos rows : 0 < Spec.fresh_id rows.
Proof.
  unfold Spec.fresh_id. induction rows as [| r' rows IH]; cbn; lia.
Qed.

Lemma find_id_fresh rows : Spec.find_id rows (Spec.fresh_id rows) = None.
Proof.
  unfold Spec.find_id. destruct (List.find _ rows) as [r |] eqn:E; [| reflexivity].
  apply find_some in E as [Hin Hid]. apply fresh_id_gt in Hin.
  unfold Spec.has_id in Hid. apply Z.eqb_eq in Hid. lia.
Qed.

Lemma keeps_place_add_size n : keeps_place (Spec.add_size n).
Proof. by intros m. Qed.

Lemma is_child_update_row j f p c r :
  keeps_place f -> Spec.is_child p c (Spec.update_row j f r) = Spec.is_child p c r.
Proof.
  intros Hf. unfold Spec.is_child, Spec.update_row.
  destruct (Spec.has_id j r); [| reflexivity]. cbn. by rewrite (proj2 (Hf _)).
Qed.

Lemma is_root_update_row j f r :
  keeps_place f -> Spec.is_root (Spec.update_row j f r) = Spec.is_root r.
Proof.
  intros Hf. unfold Spec.is_root, Spec.update_row.
  destruct (Spec.has_id j r); [| reflexivity]. cbn. by rewrite (proj2 (Hf _)).
Qed.

Lemma mode_update_row j f r :
  keeps_place f -> mode (Spec.row_meta (Spec.update_row j f r)) = mode (Spec.row_meta r).
Proof.
  intros Hf. unfold Spec.update_row.
  destruct (Spec.has_id j r); [| reflexivity]. cbn. apply Hf.
Qed.

(** *** Resolution *)

Lemma walk_app rows cur cs1 cs2 :
  Spec.walk rows cur (cs1 ++ cs2) =
  match Spec.walk rows cur cs1 with
  | inl e => inl e
  | inr p => Spec.walk rows p cs2
  end.
Proof.
  revert cur. induction cs1 as [| c cs1 IH]; intros cur; [reflexivity |].
  cbn. destruct (negb _); [reflexivity |].
  destruct (Spec.find_child rows (Spec.row_id cur) c); [apply IH | reflexivity].
Qed.

Lemma walk_In rows cur cs r :
  Spec.walk rows cur cs = inr r -> r = cur \/ In r rows.
Proof.
  revert cur. induction cs as [| c cs IH]; intros cur; cbn.
  - intros [= ->]. by left.
  - destruct (negb _); [discriminate |].
    destruct (Spec.find_child rows (Spec.row_id cur) c) as [r' |] eqn:E; [| discriminate].
    intros H. right. apply IH in H as [-> | H]; [| exact H].
    by apply find_some in E as [E _].
Qed.

Lemma path_to_row_In d path r : Spec.path_to_row d path = inr r -> In r (Spec.dir d).
Proof.
  unfold Spec.path_to_row. destruct (Spec.find_root (Spec.dir d)) as [root |] eqn:E; [| discriminate].
  intros [-> | H]%walk_In; [| exact H]. by apply find_some in E as [E _].
Qed.

Lemma path_to_row_snoc d cs c :
  forallb name_ok cs = true -> name_ok c = true ->
  Spec.path_to_row d (path_of (cs ++ [c])) =
  match Spec.path_to_row d (path_of cs) with
  | inl e => inl e
  | inr p => Spec.walk (Spec.dir d) p [c]
  end.
Proof.
  intros Hcs Hc. unfold Spec.path_to_row.
  rewrite !split_path_of; [| exact Hcs | by rewrite forallb_app, Hcs; cbn; rewrite Hc].
  destruct (Spec.find_root (Spec.dir d)); [apply walk_app | reflexivity].
Qed.

(** Rows added behind the table and metadata updates that keep type and
    parent do not change where a path leads. *)
Lemma walk_extend rows extra j f cur cs r :
  keeps_place f ->
  Spec.walk rows cur cs = inr r ->
  Spec.walk (map (Spec.update_row j f) rows ++ extra) (Spec.update_row j f cur) cs
    = inr (Spec.update_row j f r).
Proof.
  intros Hf. revert cur. induction cs as [| c cs IH]; intros cur; cbn.
  - by intros [= ->].
  - rewrite mode_update_row, row_id_update_row by exact Hf.
    destruct (negb _); [discriminate |].
    destruct (Spec.find_child rows (Spec.row_id cur) c) as [r' |] eqn:E; [| discriminate].
    intros H. unfold Spec.find_child in *.
    erewrite find_app_l; [apply IH, H |].
    rewrite find_map_same by (intros; by apply is_child_update_row). by rewrite E.
Qed.

Lemma path_to_row_extend d extra j f path r :
  keeps_place f ->
  Spec.path_to_row d path = inr r ->
  Spec.path_to_row (Spec.with_dir (map (Spec.update_row j f) (Spec.dir d) ++ extra) d) path
    = inr (Spec.update_row j f r).
Proof.
  intros Hf. unfold Spec.path_to_row, Spec.find_root. cbn [Spec.dir Spec.with_dir].
  destruct (List.find Spec.is_root (Spec.dir d)) as [root |] eqn:E; [| discriminate].
  intros H. erewrite find_app_l; [by apply walk_extend |].
  rewrite find_map_same by (intros; by apply is_root_update_row). by rewrite E.
Qed.

(** [psql_create_file] under a directory that resolves, for a name that
    does not: the new row is appended, and the path leads to it. *)
Lemma create_file_fresh (d : Spec.Database) cs c prow meta :
  forallb name_ok cs = true -> name_ok c = true ->
  Spec.path_to_row d (path_of cs) = inr prow ->
  S_ISDIR (mode (Spec.row_meta prow)) = true ->
  Spec.path_to_row d (path_of (cs ++ [c])) = inl ENOENT ->
  let new := {| Spec.row_id := Spec.fresh_id (Spec.dir d); Spec.row_name := c;
                Spec.row_meta := Spec.set_parent_id (Spec.row_id prow) meta |} in
  let d' := Spec.with_dir
              (map (Spec.update_row (Spec.row_id prow) (Spec.add_size 1)) (Spec.dir d) ++ [new])%list d in
  Spec.psql_create_file d (Spec.row_id prow) (path_of (cs ++ [c])) c meta = (0, d') /\
  Spec.path_to_row d' (path_of (cs ++ [c])) = inr new /\
  Spec.find_id (Spec.dir d') (Spec.fresh_id (Spec.dir d)) = Some new.
Proof.
  intros Hcs Hc Hparent Hdir Hfresh new d'.
  pose proof (keeps_place_add_size 1) as Hkeep.
  assert (Hnone : Spec.find_child (Spec.dir d) (Spec.row_id prow) c = None).
  { rewrite path_to_row_snoc, Hparent in Hfresh by assumption.
    cbn in Hfresh. rewrite Hdir in Hfresh. cbn in Hfresh.
    by destruct (Spec.find_child _ _ _). }
  repeat split.
  - unfold Spec.psql_create_file.
    destruct (find_is_Some (Spec.has_id (Spec.row_id prow)) (Spec.dir d) prow) as [p' Hp'].
    + by eapply path_to_row_In.
    + apply Z.eqb_refl.
    + unfold Spec.find_id. by rewrite Hp', Hnone.
  - rewrite path_to_row_snoc by assumption.
    unfold d'. erewrite path_to_row_extend by eassumption.
    cbn [Spec.walk Spec.dir Spec.with_dir].
    rewrite mode_update_row, row_id_update_row, Hdir by exact Hkeep. cbn [negb].
    unfold Spec.find_child in *. rewrite find_app_r.
    + cbn. unfold Spec.is_child. cbn. rewrite Z.eqb_refl, bool_decide_eq_true_2 by done.
      reflexivity.
    + rewrite find_map_same by (intros; by apply is_child_update_row). by rewrite Hnone.
  - unfold d', Spec.find_id. cbn [Spec.dir Spec.with_dir]. rewrite find_app_r.
    + cbn. unfold Spec.has_id. cbn. by rewrite Z.eqb_refl.
    + rewrite find_map_same by (intros; unfold Spec.has_id; by rewrite row_id_update_row).
      fold (Spec.find_id (Spec.dir d) (Spec.fresh_id (Spec.dir d))). by rewrite find_id_fresh.
Qed.

(** *** Block engine *)

Lemma write_blocks_other (fuel : nat) (B id blk inoff : Z) (bytes : list byte)
    (b : gmap (Z * Z) (list byte)) (k : Z * Z) :
  k.1 <> id \/ k.2 < blk ->
  (Spec.write_blocks fuel B id blk inoff bytes b).2 !! k = b !! k.
Proof.
  revert blk inoff bytes b. induction fuel as [| fuel IH]; intros blk inoff bytes b Hk; [reflexivity |].
  cbn [Spec.write_blocks].
  destruct (Init.Nat.min _ _) as [| n] eqn:En; [reflexivity |].
  match goal with |- context [Spec.write_blocks fuel B id (blk + 1) 0 ?bs ?m] =>
    specialize (IH (blk + 1) 0 bs m); destruct (Spec.write_blocks fuel B id (blk + 1) 0 bs m) end.
  cbn [snd] in *. rewrite IH by lia.
  apply lookup_insert_ne. destruct k as [k1 k2]. cbn in Hk. intros [= -> ->]. lia.
Qed.

Lemma length_block_or_zeros (b : gmap (Z * Z) (list byte)) (B id blk : Z) :
  length (Spec.block_or_zeros b B id blk) = Z.to_nat B.
Proof. apply length_resize. Qed.

Lemma read_blocks_nothing (fuel : nat) (B id blk inoff : Z) (b : gmap (Z * Z) (list byte)) :
  Spec.read_blocks fuel B id blk inoff 0 b = [].
Proof. destruct fuel; [reflexivity |]. cbn. by rewrite Nat.min_0_r. Qed.

(** What was written at the start of a block sequence is what is read
    there, and the engine reports every byte as written. *)
Lemma write_blocks_read_blocks (fuel : nat) (B id blk inoff : Z) (bytes : list byte)
    (b : gmap (Z * Z) (list byte)) :
  0 <= inoff < B ->
  (length bytes <= fuel)%nat ->
  (Spec.write_blocks fuel B id blk inoff bytes b).1 = Z.of_nat (length bytes) /\
  forall fuel', (length bytes <= fuel')%nat ->
    Spec.read_blocks fuel' B id blk inoff (length bytes)
      (Spec.write_blocks fuel B id blk inoff bytes b).2 = bytes.
Proof.
  revert blk inoff bytes b.
  induction fuel as [| fuel IH]; intros blk inoff bytes b Hin Hlen.
  { destruct bytes; [| cbn in Hlen; lia]. split; [reflexivity |].
    intros fuel' _. apply read_blocks_nothing. }
  destruct bytes as [| x bytes'] eqn:Ebytes.
  { split; [cbn; by rewrite Nat.min_0_r |].
    intros fuel' _. apply read_blocks_nothing. }
  rewrite <- Ebytes in *. assert (Hpos : (0 < length bytes)%nat) by (subst; cbn; lia).
  clear Ebytes x bytes'.
  cbn [Spec.write_blocks].
  set (n := Init.Nat.min (Z.to_nat (B - inoff)) (length bytes)).
  assert (Hn : (0 < n <= length bytes)%nat) by (unfold n; lia).
  assert (HnB : (Z.to_nat inoff + n <= Z.to_nat B)%nat) by (unfold n; lia).
  destruct n as [| n'] eqn:En; [lia |]. rewrite <- En in *.
  set (new := if (inoff =? 0) && (Z.of_nat n =? B) then take n bytes
              else Spec.overlay (Spec.block_or_zeros b B id blk) (Z.to_nat inoff) (take n bytes)).
  assert (Hnew_len : length new = Z.to_nat B).
  { unfold new. destruct ((inoff =? 0) && (Z.of_nat n =? B)) eqn:Efull.
    - apply andb_prop in Efull as [_ E2%Z.eqb_eq]. rewrite length_take. lia.
    - unfold Spec.overlay.
      rewrite !length_app, !length_take, length_drop, !length_block_or_zeros. lia. }
  assert (Hnew_read : take n (drop (Z.to_nat inoff) new) = take n bytes).
  { unfold new. destruct ((inoff =? 0) && (Z.of_nat n =? B)) eqn:Efull.
    - apply andb_prop in Efull as [E1%Z.eqb_eq _]. subst inoff.
      change (Z.to_nat 0) with 0%nat. rewrite drop_0, take_take. f_equal. lia.
    - unfold Spec.overlay. rewrite drop_app_length'.
      + apply take_app_length'. rewrite length_take. lia.
      + rewrite length_take, length_block_or_zeros. lia. }
  specialize (IH (blk + 1) 0 (drop n bytes) (<[(id, blk) := new]> b) ltac:(lia)).
  rewrite length_drop in IH. specialize (IH ltac:(lia)).
  pose proof (write_blocks_other fuel B id (blk + 1) 0 (drop n bytes) (<[(id, blk) := new]> b)
                (id, blk) ltac:(right; cbn; lia)) as Hkeep.
  destruct (Spec.write_blocks fuel B id (blk + 1) 0 (drop n bytes) (<[(id, blk) := new]> b))
    as [w b'] eqn:Ew.
  cbn [fst snd] in *. destruct IH as [IHw IHr]. split; [lia |].
  intros fuel' Hfuel'. destruct fuel' as [| fuel']; [lia |].
  cbn [Spec.read_blocks]. fold n. rewrite En. rewrite <- En.
  unfold Spec.block_or_zeros at 1. rewrite Hkeep, lookup_insert_eq. cbn [default].
  rewrite resize_all_alt by (symmetry; exact Hnew_len).
  unfold Datatypes.id.
  rewrite Hnew_read, IHr by lia. apply take_drop.
Qed.

(** ** create and symlink on the modelled database *)

Lemma read_meta_from_path_row (d : Spec.Database) path r :
  Spec.path_to_row d path = inr r ->
  psql_read_meta_from_path d path = (Spec.row_id r, Spec.row_meta r).
Proof. intros H. cbn. unfold Spec.psql_read_meta_from_path. by rewrite H. Qed.

Lemma read_meta_from_path_error (d : Spec.Database) path e :
  Spec.path_to_row d path = inl e ->
  psql_read_meta_from_path d path = (- e, Spec.meta_zero).
Proof. intros H. cbn. unfold Spec.psql_read_meta_from_path. by rewrite H. Qed.

Lemma length_list_byte_of_string s : Z.of_nat (length (list_byte_of_string s)) = strlen s.
Proof.
  unfold strlen, list_byte_of_string. rewrite length_map. f_equal.
  induction s as [| a s IH]; [reflexivity |]. cbn. by rewrite IH.
Qed.

(** The resolver fails with -ENOENT or -ENOTDIR only. *)
Lemma walk_error rows cur comps e :
  Spec.walk rows cur comps = inl e -> e = ENOENT \/ e = ENOTDIR.
Proof.
  revert cur. induction comps as [| c rest IH]; intros cur; cbn; [discriminate |].
  destruct (negb _); [intros [= <-]; by right |].
  destruct (Spec.find_child _ _ _); [apply IH | intros [= <-]; by left].
Qed.

Lemma path_to_row_error d path e :
  Spec.path_to_row d path = inl e -> e = ENOENT \/ e = ENOTDIR.
Proof.
  unfold Spec.path_to_row. destruct (Spec.find_root _); [apply walk_error |].
  intros [= <-]. by left.
Qed.

(** C5.  On a read-write mount, for the path of [name] under the
    directory path [cs]: when the parent does not resolve, create returns
    the error of its resolution, -ENOENT for a missing component and
    -ENOTDIR for a component that is not a directory; it returns -ENOTDIR
    if the parent exists and is not a directory; if the path resolves, it
    returns -EISDIR for a directory and -EEXIST otherwise; and if the
    parent is a directory and the path does not exist, create returns 0,
    the path then resolves to a new inode whose uid and gid are those of
    the calling context and whose id is in the file handle, and whose
    three timestamps are the time of the clock: [sec] seconds and
    [usec * 1000] nanoseconds when gettimeofday gives [sec] seconds and
    [usec] microseconds. *)
Theorem create_cases (w : World Spec.Database) (cs : list string) (name : string)
    (mode' : Z) (fi : fuse_file_info) :
  acquires w = true ->
  read_only (data w) = false ->
  allocates 2 w = true ->
  forallb name_ok cs = true ->
  name_ok name = true ->
  let path := path_of (cs ++ [name]) in
  let parent := path_of cs in
  let '(r, w', fi') := run (pgfuse_create path mode') w fi in
  (forall e, Spec.path_to_row (view w) parent = inl e ->
     r = - e /\ (e = ENOENT \/ e = ENOTDIR)) /\
  (forall p, Spec.path_to_row (view w) parent = inr p ->
     S_ISDIR (mode (Spec.row_meta p)) = false -> r = - ENOTDIR) /\
  (forall x, Spec.path_to_row (view w) path = inr x -> 0 <= Spec.row_id x ->
     r = if S_ISDIR (mode (Spec.row_meta x)) then - EISDIR else - EEXIST) /\
  (forall p, Spec.path_to_row (view w) parent = inr p -> 0 <= Spec.row_id p ->
     S_ISDIR (mode (Spec.row_meta p)) = true ->
     Spec.path_to_row (view w) path = inl ENOENT ->
     r = 0 /\
     exists meta,
       psql_read_meta_from_path (db w') path = (fh fi', meta) /\
       psql_read_meta (db w') (fh fi') path = (fh fi', meta) /\
       0 < fh fi' /\
       (forall sec usec, timeofday w = Some (sec, usec) ->
          ctime meta = {| tv_sec := sec; tv_nsec := usec * 1000 |} /\
          mtime meta = {| tv_sec := sec; tv_nsec := usec * 1000 |} /\
          atime meta = {| tv_sec := sec; tv_nsec := usec * 1000 |}) /\
       uid meta = context_uid w /\
       gid meta = context_gid w /\
       mode meta = mode' /\
       size meta = 0).
Proof.
  intros Ha Hro Hal Hcs Hname. cbv zeta.
  set (path := path_of (cs ++ [name])).
  assert (Hdirname : dirname path = path_of cs) by (by apply dirname_path_of).
  assert (Hbasename : basename path = name) by (by apply basename_path_of).
  assert (Hsnoc : Spec.path_to_row (view w) path =
                  match Spec.path_to_row (view w) (path_of cs) with
                  | inl e => inl e
                  | inr p => Spec.walk (Spec.dir (view w)) p [name]
                  end) by (by apply path_to_row_snoc).
  assert (Hal1 : allocates 1 w = true).
  { clear - Hal. unfold allocates in *. destruct (strdup_ok w) as [| [] [| [] ?]]; done. }
  destruct (run (pgfuse_create path mode') w fi) as [[r w'] fi'] eqn:Hrun.
  split; [| split; [| split]].
  - intros e Hparent.
    pose proof (path_to_row_error _ _ _ Hparent) as He. split; [| exact He].
    assert (Hpath : Spec.path_to_row (view w) path = inl e).
    { by rewrite Hsnoc, Hparent. }
    destruct He as [-> | ->].
    + pose proof (create_parent_unresolved w path mode' fi Spec.meta_zero (- ENOENT)
                    Spec.meta_zero Ha Hro Hal1 (read_meta_from_path_error _ _ _ Hpath)) as H.
      rewrite Hrun in H. apply H; [| done].
      rewrite Hdirname. by apply read_meta_from_path_error.
    + pose proof (create_unresolved w path mode' fi (- ENOTDIR) Spec.meta_zero
                    Ha Hro (read_meta_from_path_error _ _ _ Hpath)) as H.
      rewrite Hrun in H. by apply H.
  - intros p Hparent Hdir.
    assert (Hpath : Spec.path_to_row (view w) path = inl ENOTDIR).
    { rewrite Hsnoc, Hparent. cbn. by rewrite Hdir. }
    pose proof (create_unresolved w path mode' fi (- ENOTDIR) Spec.meta_zero
                  Ha Hro (read_meta_from_path_error _ _ _ Hpath)) as H.
    rewrite Hrun in H. by apply H.
  - intros x Hpath Hid.
    pose proof (create_existing w path mode' fi _ _ Ha Hro
                  (read_meta_from_path_row _ _ _ Hpath) Hid) as H.
    by rewrite Hrun in H.
  - intros p Hparent Hpid Hdir Hpath.
    destruct (create_file_fresh (view w) cs name p
                (new_meta w 0 mode' (Spec.row_meta p)) Hcs Hname Hparent Hdir Hpath)
      as (Hcreate & Hnew & Hfind).
    pose proof (fresh_id_pos (Spec.dir (view w))) as Hfresh.
    set (new := {| Spec.row_id := Spec.fresh_id (Spec.dir (view w)); Spec.row_name := name;
                   Spec.row_meta := Spec.set_parent_id (Spec.row_id p)
                                      (new_meta w 0 mode' (Spec.row_meta p)) |}) in *.
    match type of Hnew with Spec.path_to_row ?d _ = _ => set (d1 := d) in * end.
    assert (Hp : psql_read_meta_from_path (view w) (dirname path)
                 = (Spec.row_id p, Spec.row_meta p)).
    { rewrite Hdirname. by apply read_meta_from_path_row. }
    assert (Hc : psql_create_file (view w) (Spec.row_id p) path (basename path)
                   (new_meta w 0 mode' (Spec.row_meta p)) = (0, d1)).
    { rewrite Hbasename. exact Hcreate. }
    pose proof (create_success w path mode' fi Spec.meta_zero (Spec.row_id p) (Spec.row_meta p)
                  0 d1 (Spec.row_id new) (Spec.row_meta new) Ha Hro Hal
                  (read_meta_from_path_error _ _ _ Hpath) Hp Hpid Hdir Hc ltac:(lia)
                  (read_meta_from_path_row _ _ _ Hnew) ltac:(cbn; lia)) as H.
    rewrite Hrun in H. destruct H as (-> & -> & -> & _ & _).
    split; [reflexivity |]. cbn [fh set_fh].
    exists (Spec.row_meta new). split; [by apply read_meta_from_path_row |].
    split; [cbn; unfold Spec.psql_read_meta; by rewrite Hfind |].
    split; [exact Hfresh |].
    split; [| repeat split].
    intros sec usec Ht. subst new. cbn [Spec.row_meta].
    rewrite (new_meta_at w 0 mode' sec usec (Spec.row_meta p) Ht). repeat split.
Qed.

(** The block engine on a whole file: what is written from offset 0 is
    what a read of the same length from offset 0 copies out. *)
Lemma write_buf_read_buf (d : Spec.Database) (B id : Z) (path : string) (bytes buf : list byte)
    (r : Spec.DirRow) :
  0 < B ->
  Spec.find_id (Spec.dir d) id = Some r ->
  size (Spec.row_meta r) = Z.of_nat (length bytes) ->
  let '(n, d') := Spec.psql_write_buf d B id path bytes 0 (Z.of_nat (length bytes)) in
  n = Z.of_nat (length bytes) /\
  Spec.dir d' = Spec.dir d /\
  Spec.psql_read_buf d' B id path buf 0 (Z.of_nat (length bytes))
    = (Z.of_nat (length bytes), Spec.copy_out bytes buf).
Proof.
  intros HB Hfind Hsize. unfold Spec.psql_write_buf, Spec.psql_read_buf. rewrite Hfind.
  rewrite Nat2Z.id, take_ge by lia. rewrite Z.div_0_l, Z.mod_0_l by lia.
  destruct (write_blocks_read_blocks (length bytes) B id 0 0 bytes (Spec.blocks d)
              ltac:(lia) ltac:(lia)) as [Hn Hread].
  destruct (Spec.write_blocks _ _ _ _ _ _ _) as [n b'] eqn:Ew. cbn [fst snd] in *.
  cbn [Spec.dir Spec.blocks Spec.with_blocks]. rewrite Hfind, Hsize.
  repeat split; [exact Hn |].
  replace (Z.to_nat (Z.min _ _)) with (length bytes) by lia.
  by rewrite Hread.
Qed.

(** C10.  On a read-write mount, for a target [target] and the path of
    [name] under the directory path [cs], the path not existing yet:
    symlink returns 0 and creates an inode with mode 0777 | S_IFLNK and
    size strlen(target), whose content from offset 0 is [target]; a
    readlink of that path into a buffer of at least strlen(target) + 1
    bytes returns 0 and leaves [target] and a NUL at the start of the
    buffer. *)
Theorem symlink_readlink (w : World Spec.Database) (cs : list string) (name target : string)
    (buflen : Z) (buf : list byte) (p : Spec.DirRow) :
  acquires w = true ->
  read_only (data w) = false ->
  allocates 2 w = true ->
  0 < block_size (data w) ->
  forallb name_ok cs = true ->
  name_ok name = true ->
  Spec.path_to_row (view w) (path_of cs) = inr p ->
  0 <= Spec.row_id p ->
  S_ISDIR (mode (Spec.row_meta p)) = true ->
  Spec.path_to_row (view w) (path_of (cs ++ [name])) = inl ENOENT ->
  strlen target < 2 ^ 31 ->
  strlen target + 1 <= buflen ->
  buflen = Z.of_nat (length buf) ->
  let path := path_of (cs ++ [name]) in
  let '(r, w1, _) := run (pgfuse_symlink target path) w tt in
  let '(r', _, out) := run (pgfuse_readlink path buflen) w1 buf in
  r = 0 /\
  (exists id meta,
     psql_read_meta_from_path (db w1) path = (id, meta) /\
     mode meta = Z.lor 0x1FF S_IFLNK /\
     size meta = strlen target /\
     psql_read_buf (db w1) (block_size (data w)) id path buf 0 (strlen target)
       = (strlen target, Spec.copy_out (list_byte_of_string target) buf)) /\
  r' = 0 /\
  out = (list_byte_of_string target ++ x00 :: drop (S (String.length target)) buf)%list.
Proof.
  intros Ha Hro Hal HB Hcs Hname Hparent Hpid Hdir Hpath Hlen Hbuflen Hbuf. cbv zeta.
  set (path := path_of (cs ++ [name])) in *.
  assert (Hdirname : dirname path = path_of cs) by (by apply dirname_path_of).
  assert (Hbasename : basename path = name) by (by apply basename_path_of).
  set (bytes := list_byte_of_string target).
  assert (Hbytes : Z.of_nat (length bytes) = strlen target) by apply length_list_byte_of_string.
  assert (Hlen0 : 0 <= strlen target) by (unfold strlen; lia).
  set (meta0 := new_meta w (strlen target) (Z.lor 0x1FF S_IFLNK) (Spec.row_meta p)).
  destruct (create_file_fresh (view w) cs name p meta0 Hcs Hname Hparent Hdir Hpath)
    as (Hcreate & Hnew & Hfind).
  pose proof (fresh_id_pos (Spec.dir (view w))) as Hfresh.
  set (new := {| Spec.row_id := Spec.fresh_id (Spec.dir (view w)); Spec.row_name := name;
                 Spec.row_meta := Spec.set_parent_id (Spec.row_id p) meta0 |}) in *.
  match type of Hnew with Spec.path_to_row ?d _ = _ => set (d1 := d) in * end.
  pose proof (write_buf_read_buf d1 (block_size (data w)) (Spec.row_id new) path bytes buf new
                HB Hfind ltac:(cbn; lia)) as Hengine.
  rewrite Hbytes in Hengine.
  destruct (Spec.psql_write_buf d1 (block_size (data w)) (Spec.row_id new) path bytes 0
              (strlen target)) as [n d2] eqn:Hwrite.
  destruct Hengine as (-> & Hdir2 & Hread).
  assert (Hp : psql_read_meta_from_path (view w) (dirname path)
               = (Spec.row_id p, Spec.row_meta p)).
  { rewrite Hdirname. by apply read_meta_from_path_row. }
  assert (Hc : psql_create_file (view w) (Spec.row_id p) path (basename path) meta0 = (0, d1)).
  { rewrite Hbasename. exact Hcreate. }
  pose proof (symlink_success w target path (Spec.row_id p) (Spec.row_meta p) 0 d1
                (Spec.row_id new) (Spec.row_meta new) d2 Ha Hro Hal Hp Hpid Hdir Hc ltac:(lia)
                (read_meta_from_path_row _ _ _ Hnew) ltac:(cbn; lia) Hwrite Hlen) as Hsym.
  destruct (run (pgfuse_symlink target path) w tt) as [[r w1] []].
  destruct Hsym as (-> & Hdb & Htxn & Hdata).
  assert (Hview : view w1 = d2) by (unfold view; by rewrite Htxn).
  assert (Hnew2 : Spec.path_to_row d2 path = inr new).
  { unfold Spec.path_to_row in *. by rewrite Hdir2. }
  pose proof (readlink_success w1 path buflen buf (Spec.row_id new) (Spec.row_meta new)
                (strlen target) (Spec.copy_out bytes buf)) as Hrl.
  rewrite Hview, Hdata in Hrl.
  specialize (Hrl ltac:(unfold acquires in *; by rewrite Hdata)
                  (read_meta_from_path_row _ _ _ Hnew2) ltac:(cbn; lia) ltac:(reflexivity)
                  ltac:(cbn; lia) ltac:(cbn; lia) Hread ltac:(lia)).
  destruct (run (pgfuse_readlink path buflen) w1 buf) as [[r' w2] out].
  destruct Hrl as [-> ->].
  split; [reflexivity |]. split.
  - exists (Spec.row_id new), (Spec.row_meta new). rewrite Hdb.
    split; [by apply read_meta_from_path_row |]. repeat split. exact Hread.
  - split; [reflexivity |].
    cbn [size Spec.row_meta new Spec.set_parent_id meta0 new_meta set_atime set_mtime set_ctime
         set_gid set_uid set_mode set_size].
    unfold Spec.copy_out. fold bytes.
    assert (Hn : Z.to_nat (strlen target) = (length bytes + 0)%nat) by lia.
    rewrite Hn, insert_app_r.
    assert (HS : S (String.length target) = S (length bytes)) by (unfold strlen in Hbytes; lia).
    rewrite HS. f_equal.
    destruct (drop (length bytes) buf) as [| y t] eqn:Edrop.
    + apply (f_equal length) in Edrop. rewrite length_drop in Edrop. cbn in Edrop. lia.
    + cbn. f_equal. replace (S (length bytes)) with (length bytes + 1)%nat by lia.
      by rewrite <- drop_drop, Edrop.
Qed.

(** *** Round trips through the modelled database layer *)

Lemma find_map_In {A} (P : A -> bool) (g : A -> A) l :
  (forall a, In a l -> P (g a) = P a) -> List.find P (map g l) = g <$> List.find P l.
Proof.
  induction l as [| a l IH]; intros Hg; [reflexivity |]. cbn.
  rewrite (Hg a) by (by left). destruct (P a); [reflexivity |].
  apply IH. intros b Hb. apply Hg. by right.
Qed.

Lemma walk_map rows g cur cs r :
  keeps_tree rows g ->
  In cur rows ->
  Spec.walk rows cur cs = inr r ->
  Spec.walk (map g rows) (g cur) cs = inr (g r).
Proof.
  intros Hg. revert cur. induction cs as [| c cs IH]; intros cur Hin Hw; cbn in *.
  - by inversion Hw.
  - destruct (Hg cur Hin) as (Eid & _ & _ & Edir). rewrite Edir, Eid.
    destruct (negb (S_ISDIR (mode (Spec.row_meta cur)))); [discriminate |].
    unfold Spec.find_child in *.
    rewrite find_map_In.
    + destruct (List.find _ rows) as [x |] eqn:Ef; [| discriminate]. cbn.
      apply IH; [| exact Hw]. by apply find_some in Ef as [? _].
    + intros x Hx. destruct (Hg x Hx) as (_ & En & Ep & _).
      unfold Spec.is_child. by rewrite En, Ep.
Qed.

Lemma path_to_row_map (d : Spec.Database) g path r :
  keeps_tree (Spec.dir d) g ->
  Spec.path_to_row d path = inr r ->
  Spec.path_to_row (Spec.with_dir (map g (Spec.dir d)) d) path = inr (g r).
Proof.
  intros Hg. unfold Spec.path_to_row, Spec.find_root. cbn [Spec.dir Spec.with_dir].
  rewrite find_map_In.
  - destruct (List.find _ _) as [root |] eqn:Ef; [| discriminate]. cbn.
    apply walk_map; [exact Hg |]. by apply find_some in Ef as [? _].
  - intros x Hx. destruct (Hg x Hx) as (Eid & _ & Ep & _).
    unfold Spec.is_root. by rewrite Eid, Ep.
Qed.

Lemma NoDup_map_eq {A B} (f : A -> B) (l : list A) x y :
  NoDup (map f l) -> In x l -> In y l -> f x = f y -> x = y.
Proof.
  induction l as [| a l IH]; intros Hnd Hx Hy E; [destruct Hx |].
  cbn in Hnd. apply NoDup_cons in Hnd as [Hnot Hnd].
  destruct Hx as [-> | Hx], Hy as [-> | Hy]; try reflexivity.
  - exfalso. apply Hnot. rewrite E. apply list_elem_of_In, in_map, Hy.
  - exfalso. apply Hnot. rewrite <- E. apply list_elem_of_In, in_map, Hx.
  - by apply IH.
Qed.

Lemma NoDup_row_id rows x y :
  NoDup (map Spec.row_id rows) -> In x rows -> In y rows ->
  Spec.row_id x = Spec.row_id y -> x = y.
Proof. apply NoDup_map_eq. Qed.

(** The metadata of the inode behind a path may be overwritten, as long as
    it stays a directory or stays none: the path then leads to the inode
    with the new metadata. *)
Lemma write_meta_path (d : Spec.Database) (path : string) (r : Spec.DirRow) (meta' : PgMeta) :
  NoDup (map Spec.row_id (Spec.dir d)) ->
  Spec.path_to_row d path = inr r ->
  S_ISDIR (mode meta') = S_ISDIR (mode (Spec.row_meta r)) ->
  exists d',
    psql_write_meta d (Spec.row_id r) path meta' = (0, d') /\
    psql_read_meta_from_path d' path
      = (Spec.row_id r, Spec.set_parent_id (parent_id (Spec.row_meta r)) meta') /\
    Spec.blocks d' = Spec.blocks d.
Proof.
  intros Hnd Hp Hdir.
  pose proof (path_to_row_In _ _ _ Hp) as Hin.
  destruct (find_is_Some (Spec.has_id (Spec.row_id r)) (Spec.dir d) r Hin
              ltac:(apply Z.eqb_refl)) as [r' Hfind].
  eexists. cbn. unfold Spec.psql_write_meta, Spec.find_id. rewrite Hfind.
  split; [reflexivity |]. split; [| reflexivity].
  erewrite read_meta_from_path_row.
  2: { apply path_to_row_map; [| exact Hp].
       intros x Hx. unfold Spec.update_row, Spec.has_id.
       destruct (Z.eqb_spec (Spec.row_id x) (Spec.row_id r)) as [E | E]; [| done].
       apply (NoDup_row_id _ _ _ Hnd Hx Hin) in E. subst x. cbn. by rewrite Hdir. }
  unfold Spec.update_row, Spec.has_id. by rewrite Z.eqb_refl.
Qed.

(** The block engine at any offset: what is written is what a read of the
    same range copies out, once the size in the metadata covers the range. *)
Lemma write_buf_read_buf_at (d : Spec.Database) (B id : Z) (path : string)
    (bytes buf : list byte) (offset : Z) (r : Spec.DirRow) (meta' : PgMeta) :
  0 < B ->
  0 <= offset ->
  Spec.find_id (Spec.dir d) id = Some r ->
  offset + Z.of_nat (length bytes) <= size meta' ->
  exists d1 d2,
    Spec.psql_write_buf d B id path bytes offset (Z.of_nat (length bytes))
      = (Z.of_nat (length bytes), d1) /\
    Spec.psql_write_meta d1 id path meta' = (0, d2) /\
    Spec.psql_read_buf d2 B id path buf offset (Z.of_nat (length bytes))
      = (Z.of_nat (length bytes), Spec.copy_out bytes buf).
Proof.
  intros HB Hoff Hfind Hsize.
  unfold Spec.psql_write_buf, Spec.psql_write_meta, Spec.psql_read_buf. rewrite Hfind.
  rewrite Nat2Z.id, take_ge by lia.
  pose proof (Z.mod_pos_bound offset B HB) as Hmod.
  destruct (write_blocks_read_blocks (length bytes) B id (offset / B) (offset mod B) bytes
              (Spec.blocks d) Hmod ltac:(lia)) as [Hn Hread].
  destruct (Spec.write_blocks _ _ _ _ _ _ _) as [n b'] eqn:Ew. cbn [fst snd] in *. subst n.
  eexists _, _. split; [reflexivity |].
  cbn [Spec.dir Spec.blocks Spec.with_blocks Spec.with_dir]. rewrite Hfind.
  split; [reflexivity |].
  cbn [Spec.dir Spec.blocks Spec.with_blocks Spec.with_dir].
  rewrite find_id_update_row, Hfind. cbn [fmap option_fmap option_map].
  unfold Spec.update_row. rewrite (find_id_has_id _ _ _ Hfind).
  cbn [Spec.row_meta Spec.store_meta Spec.set_parent_id size].
  replace (Z.to_nat (Z.min _ _)) with (length bytes) by lia.
  by rewrite Hread.
Qed.

(** X21.  On a read-write mount with a positive block size, for an open
    file: write of [bytes] at [offset] returns their number, and a read
    of as many bytes at the same offset then returns that number too and
    puts [bytes] at the start of the caller's buffer, wherever the range
    lies relative to the blocks and to the old end of the file. *)
Theorem write_then_read (w : World Spec.Database) (path : string) (bytes buf : list byte)
    (offset : Z) (fi : fuse_file_info) (r0 : Spec.DirRow) :
  acquires w = true ->
  read_only (data w) = false ->
  0 < fh fi ->
  0 < block_size (data w) ->
  Spec.find_id (Spec.dir (view w)) (fh fi) = Some r0 ->
  0 <= size (Spec.row_meta r0) < 2 ^ 63 ->
  0 <= offset ->
  offset + Z.of_nat (length bytes) < 2 ^ 63 ->
  Z.of_nat (length bytes) <= INT_MAX ->
  let len := Z.of_nat (length bytes) in
  let '(r, w1, _) := run (pgfuse_write path bytes len offset fi) w tt in
  let '(r', _, out) := run (pgfuse_read path len offset fi) w1 buf in
  r = len /\ r' = len /\ out = (bytes ++ drop (length bytes) buf)%list.
Proof.
  intros Ha Hro Hfh HB Hfind Hsize Hoff Hsum Hlen len. subst len. unfold INT_MAX in Hlen.
  set (meta := Spec.row_meta r0) in *.
  set (meta' := if to_size_t (offset + Z.of_nat (length bytes)) >? to_size_t (size meta)
                then set_size (to_size_t (offset + Z.of_nat (length bytes))) meta else meta).
  assert (Hnew : offset + Z.of_nat (length bytes) <= size meta').
  { subst meta'. rewrite !to_size_t_small by lia.
    destruct (Z.gtb_spec (offset + Z.of_nat (length bytes)) (size meta)); cbn; lia. }
  destruct (write_buf_read_buf_at (view w) (block_size (data w)) (fh fi) path bytes buf offset
              r0 meta' HB Hoff Hfind Hnew) as (d1 & d2 & Hwb & Hwm & Hrb).
  assert (Hmeta : psql_read_meta (view w) (fh fi) path = (fh fi, meta)).
  { cbn. unfold Spec.psql_read_meta. rewrite Hfind.
    apply find_id_has_id, Z.eqb_eq in Hfind. by rewrite Hfind. }
  change (Spec.psql_write_buf ?d) with (psql_write_buf d) in Hwb.
  change (Spec.psql_write_meta ?d) with (psql_write_meta d) in Hwm.
  change (Spec.psql_read_buf ?d) with (psql_read_buf d) in Hrb.
  subst meta'. unfold Spec.copy_out in Hrb.
  remember (Z.of_nat (length bytes)) as len eqn:Elen in *.
  pose proof (to_int_small len ltac:(lia)) as Hint.
  pose proof (to_size_t_small len ltac:(lia)) as Hsz.
  assert (Hlen0 : 0 <= len) by lia. clear Elen.
  unfold pgfuse_write, pgfuse_read. destruct fi as [fl h].
  open_world w; decide_test; rewrite Hmeta; decide_test; rewrite Hwb, Hint; decide_test;
    rewrite Hsz, Z.eqb_refl; hred; rewrite Hwm; change (to_int 0) with 0; hred; hred;
    rewrite Hrb, Hint; decide_test; repeat split.
Qed.

(** X22.  After utimens of a path that resolves, in a database whose ids
    are distinct, getattr of the path reports the two new times, access
    time first, and the inode, change time, mode, owner and group it had
    before. *)
Theorem utimens_then_getattr (w : World Spec.Database) (path : string) (tv0 tv1 : timespec)
    (stbuf : stat) (r0 : Spec.DirRow) :
  acquires w = true ->
  NoDup (map Spec.row_id (Spec.dir (view w))) ->
  Spec.path_to_row (view w) path = inr r0 ->
  0 <= Spec.row_id r0 ->
  let '(r, w1, _) := run (pgfuse_utimens path tv0 tv1) w tt in
  let '(r', _, st) := run (pgfuse_getattr path) w1 stbuf in
  r = 0 /\ r' = 0 /\
  st_ino st = Spec.row_id r0 /\
  st_atime st = tv_sec tv0 /\
  st_mtime st = tv_sec tv1 /\
  st_ctime st = tv_sec (ctime (Spec.row_meta r0)) /\
  st_mode st = mode (Spec.row_meta r0) /\
  st_uid st = uid (Spec.row_meta r0) /\
  st_gid st = gid (Spec.row_meta r0).
Proof.
  intros Ha Hnd Hp Hid.
  pose proof (read_meta_from_path_row _ _ _ Hp) as Hr.
  destruct (write_meta_path (view w) path r0
              (set_mtime tv1 (set_atime tv0 (Spec.row_meta r0))) Hnd Hp ltac:(reflexivity))
    as (d' & Hwm & Hrd & _).
  unfold pgfuse_utimens, pgfuse_getattr.
  open_world w; rewrite Hr; decide_test; rewrite Hwm; change (to_int 0) with 0; hred; hred;
    rewrite Hrd; decide_test; repeat split.
Qed.

(** X23.  On a read-write mount, in a database whose ids are distinct:
    after chmod with a mode that keeps a directory a directory and
    anything else no directory, getattr reports the new mode and the old
    owner and group; after chown it reports the new owner and group and
    the old mode. *)
Theorem chmod_chown_then_getattr (w : World Spec.Database) (path : string)
    (mode' uid' gid' : Z) (stbuf : stat) (r0 : Spec.DirRow) :
  acquires w = true ->
  read_only (data w) = false ->
  NoDup (map Spec.row_id (Spec.dir (view w))) ->
  Spec.path_to_row (view w) path = inr r0 ->
  0 <= Spec.row_id r0 ->
  S_ISDIR mode' = S_ISDIR (mode (Spec.row_meta r0)) ->
  (let '(r, w1, _) := run (pgfuse_chmod path mode') w tt in
   let '(r', _, st) := run (pgfuse_getattr path) w1 stbuf in
   r = 0 /\ r' = 0 /\ st_mode st = mode' /\
   st_uid st = uid (Spec.row_meta r0) /\ st_gid st = gid (Spec.row_meta r0)) /\
  (let '(r, w1, _) := run (pgfuse_chown path uid' gid') w tt in
   let '(r', _, st) := run (pgfuse_getattr path) w1 stbuf in
   r = 0 /\ r' = 0 /\ st_uid st = uid' /\ st_gid st = gid' /\
   st_mode st = mode (Spec.row_meta r0)).
Proof.
  intros Ha Hro Hnd Hp Hid Hdir.
  pose proof (read_meta_from_path_row _ _ _ Hp) as Hr.
  destruct (write_meta_path (view w) path r0 (set_mode mode' (Spec.row_meta r0)) Hnd Hp Hdir)
    as (d1 & Hwm1 & Hrd1 & _).
  destruct (write_meta_path (view w) path r0 (set_gid gid' (set_uid uid' (Spec.row_meta r0)))
              Hnd Hp ltac:(reflexivity)) as (d2 & Hwm2 & Hrd2 & _).
  unfold pgfuse_chmod, pgfuse_chown, pgfuse_getattr.
  open_world w; rewrite Hr; decide_test; rewrite Hwm1, Hwm2; change (to_int 0) with 0; hred; hred;
    rewrite Hrd1, Hrd2; decide_test; repeat split.
Qed.

(** X24.  On a read-write mount, in a database whose ids are distinct:
    after truncate of a path that resolves to something other than a
    directory, getattr of the path reports the size [offset]. *)
Theorem truncate_then_getattr (w : World Spec.Database) (path : string) (offset : Z)
    (stbuf : stat) (r0 : Spec.DirRow) :
  acquires w = true ->
  read_only (data w) = false ->
  NoDup (map Spec.row_id (Spec.dir (view w))) ->
  Spec.path_to_row (view w) path = inr r0 ->
  0 <= Spec.row_id r0 ->
  S_ISDIR (mode (Spec.row_meta r0)) = false ->
  0 <= offset < 2 ^ 63 ->
  let '(r, w1, _) := run (pgfuse_truncate path offset) w tt in
  let '(r', _, st) := run (pgfuse_getattr path) w1 stbuf in
  r = 0 /\ r' = 0 /\ st_size st = offset /\ st_ino st = Spec.row_id r0.
Proof.
  intros Ha Hro Hnd Hp Hid Hdir Hoff.
  pose proof (read_meta_from_path_row _ _ _ Hp) as Hr.
  destruct (psql_truncate (view w) (block_size (data w)) (Spec.row_id r0) path offset)
    as [res d1] eqn:Ht.
  assert (res = 0 /\ Spec.dir d1 = Spec.dir (view w)) as [-> Hd1].
  { cbn in Ht. unfold Spec.psql_truncate in Ht. by inversion Ht. }
  assert (Hp1 : Spec.path_to_row d1 path = inr r0).
  { unfold Spec.path_to_row in *. by rewrite Hd1. }
  destruct (write_meta_path d1 path r0 (set_size offset (Spec.row_meta r0))
              ltac:(by rewrite Hd1) Hp1 ltac:(reflexivity)) as (d2 & Hwm & Hrd & _).
  pose proof (to_int64_small offset ltac:(lia)) as Hint.
  unfold pgfuse_truncate, pgfuse_getattr.
  open_world w; rewrite Hr; decide_test; rewrite Hdir; hred; rewrite Ht;
    change (to_int 0) with 0; hred; hred; rewrite Hwm; change (to_int 0) with 0; hred; hred;
    rewrite Hrd; decide_test; cbn; rewrite Hint; repeat split.
Qed.

(** Permission bits combined with S_IFDIR have the type of a directory. *)
Lemma S_ISDIR_lor mode' : Z.land mode' S_IFMT = 0 -> S_ISDIR (Z.lor mode' S_IFDIR) = true.
Proof.
  intros Hm. unfold S_ISDIR. rewrite Z.land_lor_distr_l, Hm. reflexivity.
Qed.

(** X25.  On a read-write mount, for the path of [name] under the
    directory path [cs], the path not existing yet and the clock giving
    [sec] seconds: mkdir returns 0; getattr of the path then reports the
    mode [mode | S_IFDIR], which is the mode of a directory when [mode]
    holds permission bits only, the caller's uid and gid, size 0 and
    [sec] for each of the three times; and readdir of the parent lists
    [name]. *)
Theorem mkdir_then_getattr (w : World Spec.Database) (cs : list string) (name : string)
    (mode' : Z) (stbuf : stat) (fi : fuse_file_info) (p : Spec.DirRow) (sec usec : Z) :
  acquires w = true ->
  read_only (data w) = false ->
  allocates 2 w = true ->
  timeofday w = Some (sec, usec) ->
  forallb name_ok cs = true ->
  name_ok name = true ->
  Spec.path_to_row (view w) (path_of cs) = inr p ->
  0 <= Spec.row_id p < 2 ^ 31 ->
  S_ISDIR (mode (Spec.row_meta p)) = true ->
  Spec.path_to_row (view w) (path_of (cs ++ [name])) = inl ENOENT ->
  let path := path_of (cs ++ [name]) in
  let '(r, w1, _) := run (pgfuse_mkdir path mode') w tt in
  let '(r1, _, st) := run (pgfuse_getattr path) w1 stbuf in
  let '(r2, _, out) := run (pgfuse_readdir (path_of cs) 0 fi) w1 [] in
  r = 0 /\ r1 = 0 /\ r2 = 0 /\
  st_mode st = Z.lor mode' S_IFDIR /\
  (Z.land mode' S_IFMT = 0 -> S_ISDIR (st_mode st) = true) /\
  st_uid st = context_uid w /\
  st_gid st = context_gid w /\
  st_size st = 0 /\
  st_ctime st = sec /\
  st_mtime st = sec /\
  st_atime st = sec /\
  In name out.
Proof.
  intros Ha Hro Hal Ht Hcs Hname Hparent Hpid Hdir Hpath. cbv zeta.
  set (path := path_of (cs ++ [name])) in *.
  assert (Hdirname : dirname path = path_of cs) by (by apply dirname_path_of).
  assert (Hbasename : basename path = name) by (by apply basename_path_of).
  set (meta0 := new_meta w 0 (Z.lor mode' S_IFDIR) (Spec.row_meta p)).
  destruct (create_file_fresh (view w) cs name p meta0 Hcs Hname Hparent Hdir Hpath)
    as (Hcreate & Hnew & Hfind).
  pose proof (fresh_id_pos (Spec.dir (view w))) as Hfresh.
  pose proof (fresh_id_gt _ _ (path_to_row_In _ _ _ Hparent)) as Hgt.
  set (new := {| Spec.row_id := Spec.fresh_id (Spec.dir (view w)); Spec.row_name := name;
                 Spec.row_meta := Spec.set_parent_id (Spec.row_id p) meta0 |}) in *.
  match type of Hnew with Spec.path_to_row ?d _ = _ => set (d1 := d) in * end.
  assert (Hp : psql_read_meta_from_path (view w) (dirname path)
               = (Spec.row_id p, Spec.row_meta p)).
  { rewrite Hdirname. by apply read_meta_from_path_row. }
  assert (Hc : psql_create_dir (view w) (Spec.row_id p) path (basename path) meta0 = (0, d1)).
  { rewrite Hbasename. exact Hcreate. }
  pose proof (read_meta_from_path_row _ _ _ Hnew) as Hr1.
  assert (Hr2 : psql_read_meta_from_path d1 (path_of cs)
                = (Spec.row_id p, Spec.add_size 1 (Spec.row_meta p))).
  { erewrite read_meta_from_path_row
      by (apply path_to_row_extend; [apply keeps_place_add_size | exact Hparent]).
    unfold Spec.update_row, Spec.has_id. by rewrite Z.eqb_refl. }
  destruct (psql_readdir d1 (Spec.row_id p)) as [res names] eqn:Hls.
  assert (res = 0 /\ In name names) as [-> Hin].
  { cbn in Hls. unfold Spec.psql_readdir in Hls. inversion Hls. split; [reflexivity |].
    apply (in_map Spec.row_name _ new), filter_In. split.
    - cbn. apply in_or_app. right. by left.
    - unfold Spec.has_parent, Spec.is_root. cbn.
      rewrite Z.eqb_refl. cbn. apply negb_true_iff, Z.eqb_neq. lia. }
  pose proof (to_int_small (Spec.row_id p) ltac:(lia)) as Hint.
  pose proof (S_ISDIR_lor mode') as Hlor.
  subst meta0 new. unfold pgfuse_mkdir, pgfuse_getattr, pgfuse_readdir, new_meta in *.
  cbn [Spec.row_id Spec.row_meta] in Hr1.
  clearbody d1. clear Hnew Hfind Hcreate Hdirname Hbasename. subst path.
  open_world_allocs w; rewrite Hp; decide_test; rewrite Hdir; hred; rewrite Hc;
    change (to_int 0) with 0; hred; hred; rewrite Hr1, Hr2, Hint; repeat decide_test;
    rewrite Hls; change (to_int 0) with 0; hred; repeat split; try exact Hlor;
    right; right; exact Hin.
Qed.

Lemma find_filter {A} (P keep : A -> bool) l x :
  List.find P l = Some x -> keep x = true -> List.find P (List.filter keep l) = Some x.
Proof.
  induction l as [| a l IH]; intros Hf Hk; [discriminate |]. cbn in *.
  destruct (P a) eqn:HP.
  - inversion Hf; subst a. rewrite Hk. cbn. by rewrite HP.
  - destruct (keep a); cbn; rewrite ?HP; by apply IH.
Qed.

(** A walk that ends at a directory passes directories only, so it is
    not affected when rows that are no directories are removed. *)
Lemma walk_filter rows (keep : Spec.DirRow -> bool) cur cs r :
  (forall x, In x rows -> S_ISDIR (mode (Spec.row_meta x)) = true -> keep x = true) ->
  S_ISDIR (mode (Spec.row_meta r)) = true ->
  Spec.walk rows cur cs = inr r ->
  Spec.walk (List.filter keep rows) cur cs = inr r.
Proof.
  intros Hkeep Hdir. revert cur. induction cs as [| c cs IH]; intros cur Hw; cbn in *.
  - exact Hw.
  - destruct (negb (S_ISDIR (mode (Spec.row_meta cur)))); [discriminate |].
    unfold Spec.find_child in *.
    destruct (List.find _ rows) as [x |] eqn:Ef; [| discriminate].
    assert (Hx : S_ISDIR (mode (Spec.row_meta x)) = true).
    { destruct cs as [| c' cs']; cbn in Hw.
      - by inversion Hw.
      - by destruct (S_ISDIR (mode (Spec.row_meta x))). }
    rewrite (find_filter _ keep _ x Ef) by (apply Hkeep; [by apply find_some in Ef as [? _] | exact Hx]).
    by apply IH.
Qed.

Lemma path_to_row_filter (d : Spec.Database) (keep : Spec.DirRow -> bool) path r :
  (forall x, In x (Spec.dir d) -> S_ISDIR (mode (Spec.row_meta x)) = true -> keep x = true) ->
  S_ISDIR (mode (Spec.row_meta r)) = true ->
  Spec.path_to_row d path = inr r ->
  Spec.path_to_row (Spec.with_dir (List.filter keep (Spec.dir d)) d) path = inr r.
Proof.
  intros Hkeep Hdir. unfold Spec.path_to_row, Spec.find_root. cbn [Spec.dir Spec.with_dir].
  destruct (List.find Spec.is_root (Spec.dir d)) as [root |] eqn:Ef; [| discriminate].
  intros Hw.
  assert (Hroot : S_ISDIR (mode (Spec.row_meta root)) = true).
  { destruct (Spec.split_path path) as [| c cs]; cbn in Hw.
    - by inversion Hw.
    - by destruct (S_ISDIR (mode (Spec.row_meta root))). }
  rewrite (find_filter _ keep _ root Ef)
    by (apply Hkeep; [by apply find_some in Ef as [? _] | exact Hroot]).
  by apply walk_filter.
Qed.

Lemma keeps_tree_keeps_place rows j f : keeps_place f -> keeps_tree rows (Spec.update_row j f).
Proof.
  intros Hf x _. unfold Spec.update_row. destruct (Spec.has_id j x); [| done]. cbn.
  destruct (Hf (Spec.row_meta x)) as [-> ->]. done.
Qed.

(** After the deletion of a file, in a database with distinct ids and
    distinct names in each directory, its path leads nowhere. *)
Lemma delete_file_path (d : Spec.Database) cs name r0 :
  NoDup (map Spec.row_id (Spec.dir d)) ->
  NoDup (map entry (Spec.dir d)) ->
  forallb name_ok cs = true ->
  name_ok name = true ->
  Spec.path_to_row d (path_of (cs ++ [name])) = inr r0 ->
  S_ISDIR (mode (Spec.row_meta r0)) = false ->
  exists d',
    Spec.psql_delete_file d (Spec.row_id r0) (path_of (cs ++ [name])) = (0, d') /\
    Spec.path_to_row d' (path_of (cs ++ [name])) = inl ENOENT.
Proof.
  intros Hids Hnames Hcs Hname Hpath Hfile.
  pose proof (path_to_row_In _ _ _ Hpath) as Hin0.
  destruct (find_is_Some (Spec.has_id (Spec.row_id r0)) (Spec.dir d) r0 Hin0
              ltac:(apply Z.eqb_refl)) as [r' Hfind].
  unfold Spec.psql_delete_file, Spec.find_id. rewrite Hfind. eexists. split; [reflexivity |].
  set (keep := fun r'0 : Spec.DirRow => negb (Spec.has_id (Spec.row_id r0) r'0)).
  set (g := Spec.update_row (parent_id (Spec.row_meta r')) (Spec.add_size (-1))).
  assert (Hkeep : forall x, In x (Spec.dir d) -> S_ISDIR (mode (Spec.row_meta x)) = true ->
                            keep x = true).
  { intros x Hx Hdir. unfold keep, Spec.has_id.
    destruct (Z.eqb_spec (Spec.row_id x) (Spec.row_id r0)) as [E | E]; [| reflexivity].
    apply (NoDup_map_eq _ _ _ _ Hids Hx Hin0) in E. subst x. congruence. }
  rewrite path_to_row_snoc in Hpath |- * by assumption.
  destruct (Spec.path_to_row d (path_of cs)) as [e | p] eqn:Hp; [discriminate |].
  cbn [Spec.walk] in Hpath.
  destruct (S_ISDIR (mode (Spec.row_meta p))) eqn:Hpdir; [| discriminate]. cbn [negb] in Hpath.
  destruct (Spec.find_child (Spec.dir d) (Spec.row_id p) name) as [x |] eqn:Hchild;
    [| discriminate].
  inversion Hpath; subst x. clear Hpath.
  assert (Hp' : Spec.path_to_row
                  {| Spec.dir := map g (List.filter keep (Spec.dir d));
                     Spec.blocks := Spec.delete_blocks_from (Spec.blocks d) (Spec.row_id r0) 0 |}
                  (path_of cs) = inr (g p)).
  { pose proof (path_to_row_filter d keep _ _ Hkeep Hpdir Hp) as Hf.
    apply (path_to_row_map _ g) in Hf; [| apply keeps_tree_keeps_place, keeps_place_add_size].
    exact Hf. }
  rewrite Hp'. cbn [Spec.walk Spec.dir]. subst g.
  rewrite mode_update_row, Hpdir by apply keeps_place_add_size. cbn [negb].
  rewrite row_id_update_row.
  unfold Spec.find_child in *.
  rewrite find_map_same by (intros a; apply is_child_update_row, keeps_place_add_size).
  destruct (List.find _ (List.filter keep (Spec.dir d))) as [x |] eqn:Ex; [| reflexivity].
  exfalso. apply find_some in Ex as [Hx Hc]. apply filter_In in Hx as [Hx Hk].
  apply find_some in Hchild as [_ Hc0].
  assert (x = r0).
  { apply (NoDup_map_eq entry _ _ _ Hnames Hx Hin0). unfold entry, Spec.is_child in *.
    apply andb_true_iff in Hc as [Hc1 Hc2], Hc0 as [Hc3 Hc4].
    apply Z.eqb_eq in Hc1, Hc3. apply bool_decide_eq_true in Hc2, Hc4. congruence. }
  subst x. unfold keep, Spec.has_id in Hk. by rewrite Z.eqb_refl in Hk.
Qed.

(** X30.  With the database layer modelled from the spec, distinct ids
    and distinct names in each directory, on a read-write mount: unlink
    of the path of a file returns 0, and getattr of that path then returns
    -ENOENT. *)
Theorem unlink_then_getattr (w : World Spec.Database) (cs : list string) (name : string)
    (stbuf : stat) (r0 : Spec.DirRow) :
  acquires w = true ->
  read_only (data w) = false ->
  NoDup (map Spec.row_id (Spec.dir (view w))) ->
  NoDup (map entry (Spec.dir (view w))) ->
  forallb name_ok cs = true ->
  name_ok name = true ->
  Spec.path_to_row (view w) (path_of (cs ++ [name])) = inr r0 ->
  0 <= Spec.row_id r0 ->
  S_ISDIR (mode (Spec.row_meta r0)) = false ->
  let path := path_of (cs ++ [name]) in
  let '(r, w1, _) := run (pgfuse_unlink path) w tt in
  let '(r', _, st) := run (pgfuse_getattr path) w1 stbuf in
  r = 0 /\ r' = - ENOENT /\ st = stat_zero.
Proof.
  intros Ha Hro Hids Hnames Hcs Hname Hpath Hid Hfile. cbv zeta.
  pose proof (read_meta_from_path_row _ _ _ Hpath) as Hr.
  destruct (delete_file_path (view w) cs name r0 Hids Hnames Hcs Hname Hpath Hfile)
    as (d1 & Hdel & Hgone).
  apply read_meta_from_path_error in Hgone.
  change (Spec.psql_delete_file ?d) with (psql_delete_file d) in Hdel.
  clear Hpath Hids Hnames. unfold pgfuse_unlink, pgfuse_getattr, ENOENT in *.
  open_world w; rewrite Hr; decide_test; rewrite Hfile; hred; rewrite Hdel;
    change (to_int 0) with 0; hred; hred; rewrite Hgone; decide_test; repeat split.
Qed.

(** ** The handlers at concrete inputs *)

(** C9, counterexample: on a read-only mount fsync returns -EROFS, and for
    a zero file handle on a read-write mount it returns -EBADF; neither is 0. *)
Lemma fsync_not_noop :
  (run (pgfuse_fsync "/a" 0 (Example.handle 1)) (Example.world true) tt).1.1 = - EROFS /\
  (run (pgfuse_fsync "/a" 0 Example.no_handle) (Example.world false) tt).1.1 = - EBADF /\
  - EROFS <> 0 /\ - EBADF <> 0.
Proof. repeat split; vm_compute; congruence. Qed.

(** C7, at the file /a once it holds five bytes, with blocks of four
    bytes: two blocks. *)
Lemma getattr_block_count_witness :
  acquires Sample.written = true /\
  psql_read_meta_from_path (view Sample.written) "/a" = (1, set_size 5 Sample.file) /\
  0 <= 1 /\
  0 < block_size (data Sample.written) /\
  0 <= size (set_size 5 Sample.file) /\
  size (set_size 5 Sample.file) + block_size (data Sample.written) < 2 ^ 63 /\
  size (set_size 5 Sample.file) = 5 /\
  block_size (data Sample.written) = 4 /\
  let '(r, _, st) := run (pgfuse_getattr "/a") Sample.written stat_zero in
  r = 0 /\ st_blocks st = 2 /\ st_nlink st = 1 /\ st_blksize st = 4.
Proof.
  do 8 (split; [vm_compute; first [reflexivity | congruence | split; congruence] |]).
  exact (getattr_block_count Sample.written "/a" stat_zero 1 (set_size 5 Sample.file)
           ltac:(vm_compute; reflexivity) ltac:(vm_compute; reflexivity)
           ltac:(vm_compute; congruence) ltac:(vm_compute; reflexivity)
           ltac:(vm_compute; congruence) ltac:(vm_compute; reflexivity)).
Defined.

(** C1, the code at the failing inputs.  On a read-only mount, utimens on
    an existing file returns 0 and commits the new access and modification
    times; write on an open file returns -EBADF, not -EROFS.  chmod, next
    to them, returns -EROFS after a rollback. *)
Theorem read_only_mount_not_honoured :
  let '(r, w', _) := run (pgfuse_utimens "/a" Example.t5 Example.t6) (Example.world true) tt in
  r = 0 /\
  db w' <> db (Example.world true) /\
  atime (Spec.psql_read_meta (db w') 1 "/a").2 = Example.t5 /\
  mtime (Spec.psql_read_meta (db w') 1 "/a").2 = Example.t6 /\
  trace w' = [EvAcquire 7%nat; EvBegin; EvCommit; EvRelease 7%nat] /\
  (run (pgfuse_write "/a" Example.xy 2 3 (Example.handle 1)) (Example.world true) tt).1.1 = - EBADF /\
  run (pgfuse_chmod "/a" Example.file_mode) (Example.world true) tt
    = (- EROFS,
       with_event (EvRelease 7%nat) (with_event EvRollback
         (with_event EvBegin (with_event (EvAcquire 7%nat) (Example.world true)))), tt).
Proof. vm_compute. repeat split; congruence. Qed.

(** C2, the code at the failing input.  rename of a path that does not
    resolve returns -ENOENT with the transaction still open and the
    connection not released: after acquire and begin there is no
    rollback and no release. *)
Theorem rename_leaves_transaction_open :
  let '(r, w', _) := run (pgfuse_rename "/missing" "/b") (Example.world false) tt in
  r = - ENOENT /\
  trace w' = [EvAcquire 7%nat; EvBegin] /\
  txn w' = Some Example.database.
Proof. vm_compute. repeat split. Qed.

(** C6, the code at the failing input.  After create of /c at the time 77,
    getattr reports the three timestamps 77, fgetattr on the handle of the
    same file reports them as 0; the other fields agree. *)
Theorem fgetattr_omits_timestamps :
  let '(r, w, fi) :=
    run (pgfuse_create "/c" Example.file_mode) (Example.world false) Example.no_handle in
  let '(r1, _, st1) := run (pgfuse_getattr "/c") w stat_zero in
  let '(r2, _, st2) := run (pgfuse_fgetattr "/c" fi) w stat_zero in
  r = 0 /\ r1 = 0 /\ r2 = 0 /\
  (st_atime st1, st_mtime st1, st_ctime st1) = (77, 77, 77) /\
  (st_atime st2, st_mtime st2, st_ctime st2) = (0, 0, 0) /\
  st1 <> st2 /\
  fill_stat_times {| size := 0; mode := 0; uid := 0; gid := 0;
                     ctime := {| tv_sec := 77; tv_nsec := 0 |};
                     mtime := {| tv_sec := 77; tv_nsec := 0 |};
                     atime := {| tv_sec := 77; tv_nsec := 0 |}; parent_id := 0 |} st2 = st1.
Proof. vm_compute. repeat split; congruence. Qed.

(** C3, counterexample.  /b is a regular file and differs from /missing,
    yet rename of /missing to /b returns -ENOENT, not -EEXIST; rename of
    the directory /d to itself returns -EINVAL, not 0; and rename of /a to
    the root, whose id is 0, does not return -EINVAL: it returns 0. *)
Lemma rename_counterexample :
  S_ISREG (mode (Spec.psql_read_meta_from_path Example.database "/b").2) = true /\
  "/missing" <> "/b" /\
  (run (pgfuse_rename "/missing" "/b") (Example.world false) tt).1.1 = - ENOENT /\
  (run (pgfuse_rename "/d" "/d") (Example.world false) tt).1.1 = - EINVAL /\
  Spec.psql_read_meta_from_path Example.database "/" = (0, Example.meta_of (Z.lor S_IFDIR 0x1ED) 0) /\
  (run (pgfuse_rename "/a" "/") (Example.world false) tt).1.1 = 0 /\
  - ENOENT <> - EEXIST /\ - EINVAL <> 0.
Proof. vm_compute. repeat split; congruence. Qed.

(** C3, at the regular files /a and /b of the example. *)
Lemma rename_onto_existing_witness :
  acquires (Example.world false) = true /\
  psql_read_meta_from_path (view (Example.world false)) "/a"
    = (1, Example.meta_of Example.file_mode 0) /\
  0 <= 1 /\
  psql_read_meta_from_path (view (Example.world false)) "/b"
    = (2, Example.meta_of Example.file_mode 0) /\
  0 < 2 /\
  let '(r, w', _) := run (pgfuse_rename "/a" "/b") (Example.world false) tt in
  r = (if S_ISREG Example.file_mode
       then if bool_decide ("/a" = "/b") then 0 else - EEXIST
       else - EINVAL) /\
  db w' = Example.database /\
  psql_read_meta_from_path (view w') "/a" = (1, Example.meta_of Example.file_mode 0) /\
  psql_read_meta_from_path (view w') "/b" = (2, Example.meta_of Example.file_mode 0).
Proof.
  do 5 (split; [vm_compute; first [reflexivity | congruence | split; congruence] |]).
  apply (rename_onto_existing (Example.world false) "/a" "/b" 1 2
           (Example.meta_of Example.file_mode 0) (Example.meta_of Example.file_mode 0));
    vm_compute; congruence.
Defined.

(** C4, at a write of two bytes at offset 3 of the empty file /a. *)
Lemma write_updates_size_witness :
  acquires (Example.world false) = true /\
  read_only (data (Example.world false)) = false /\
  fh (Example.handle 1) <> 0 /\
  psql_read_meta (view (Example.world false)) 1 "/a" = (1, Example.meta_of Example.file_mode 0) /\
  psql_write_buf (view (Example.world false)) 4 1 "/a" Example.xy 3 2 = Example.written /\
  Example.written.1 = 2 /\
  let '(r, w', _) :=
    run (pgfuse_write "/a" Example.xy 2 3 (Example.handle 1)) (Example.world false) tt in
  (Example.written.1 <> 2 ->
     r = - EIO /\ db w' = Example.database /\ txn w' = None /\
     trace w' = [EvAcquire 7%nat; EvBegin; EvRollback; EvRelease 7%nat]) /\
  (Example.written.1 = 2 ->
     forall r2 d2,
       psql_write_meta Example.written.2 1 "/a"
         (set_size (Z.max 0 (3 + 2)) (Example.meta_of Example.file_mode 0)) = (r2, d2) ->
       0 <= r2 <= INT_MAX ->
       r = 2 /\ db w' = d2 /\ txn w' = None /\
       size (psql_read_meta (db w') 1 "/a").2 = Z.max 0 (3 + 2)).
Proof.
  do 6 (split; [vm_compute; first [reflexivity | congruence | split; congruence] |]).
  apply (write_updates_size (Example.world false) "/a" Example.xy 2 3 (Example.handle 1) 1
           (Example.meta_of Example.file_mode 0) Example.written.1 Example.written.2).
  - exact write_meta_read_meta.
  - reflexivity.
  - reflexivity.
  - discriminate.
  - reflexivity.
  - lia.
  - vm_compute. split; [congruence | reflexivity].
  - lia.
  - vm_compute. split; congruence.
  - symmetry. apply surjective_pairing.
  - vm_compute. split; congruence.
Defined.

(** C8, at the symlink /l of the example and a buffer of 8 bytes. *)
Lemma readlink_cases_witness :
  acquires Example.linked = true /\
  psql_read_meta_from_path (view Example.linked) "/l" = Example.link /\
  0 <= Example.link.1 /\
  0 <= size Example.link.2 < 2 ^ 63 /\
  let '(r, _, out) := run (pgfuse_readlink "/l" 8) Example.linked Example.buffer in
  (S_ISLNK (mode Example.link.2) = false -> r = - ENOENT) /\
  (S_ISLNK (mode Example.link.2) = true -> 8 < size Example.link.2 + 1 -> r = - ENOMEM) /\
  (S_ISLNK (mode Example.link.2) = true -> size Example.link.2 + 1 <= 8 ->
     forall res bytes,
       psql_read_buf (view Example.linked) (block_size (data Example.linked)) Example.link.1 "/l"
         Example.buffer 0 (size Example.link.2) = (res, bytes) ->
       0 <= res <= INT_MAX ->
       r = 0 /\ out = <[Z.to_nat (size Example.link.2) := x00]> bytes).
Proof.
  do 4 (split; [vm_compute; first [reflexivity | congruence | split; congruence] |]).
  apply (readlink_cases Example.linked "/l" 8 Example.buffer Example.link.1 Example.link.2).
  - reflexivity.
  - apply surjective_pairing.
  - vm_compute. congruence.
  - vm_compute. split; congruence.
Defined.

(** C5, counterexample.  In the example /a is a regular file and has no
    entry x: the parent /a/x of /a/x/y does not exist.  create of /a/x/y
    returns -ENOTDIR, the error of the resolver, not -ENOENT. *)
Lemma create_counterexample :
  Spec.path_to_row (view Sample.rw) "/a"
    = inr {| Spec.row_id := 1; Spec.row_name := "a"; Spec.row_meta := Sample.file |} /\
  Spec.find_child (Spec.dir (view Sample.rw)) 1 "x" = None /\
  (forall p, Spec.path_to_row (view Sample.rw) "/a/x" <> inr p) /\
  (run (pgfuse_create "/a/x/y" Example.file_mode) Sample.rw Example.no_handle).1.1 = - ENOTDIR /\
  (run (pgfuse_create "/a/x/y" Example.file_mode) Sample.rw Example.no_handle).1.1 <> - ENOENT.
Proof.
  split; [vm_compute; reflexivity |]. split; [vm_compute; reflexivity |].
  split; [intros p; vm_compute; discriminate |].
  split; [vm_compute; reflexivity | vm_compute; discriminate].
Qed.

(** C5, at the new file /c under the root of the example, at the time
    77 s and 5 us, for the caller with uid 1000 and gid 100: the new inode
    has the id 4. *)
Lemma create_cases_witness :
  acquires (Example.world false) = true /\
  read_only (data (Example.world false)) = false /\
  allocates 2 (Example.world false) = true /\
  forallb name_ok [] = true /\
  name_ok "c" = true /\
  let '(r, w', fi') :=
    run (pgfuse_create "/c" Example.file_mode) (Example.world false) Example.no_handle in
  r = 0 /\
  fh fi' = 4 /\
  exists meta,
    psql_read_meta_from_path (db w') "/c" = (4, meta) /\
    ctime meta = {| tv_sec := 77; tv_nsec := 5000 |} /\
    mtime meta = {| tv_sec := 77; tv_nsec := 5000 |} /\
    atime meta = {| tv_sec := 77; tv_nsec := 5000 |} /\
    uid meta = 1000 /\
    gid meta = 100 /\
    mode meta = Example.file_mode /\
    size meta = 0.
Proof.
  do 5 (split; [vm_compute; first [reflexivity | congruence | split; congruence] |]).
  pose proof (create_cases (Example.world false) [] "c" Example.file_mode Example.no_handle
                eq_refl eq_refl eq_refl eq_refl eq_refl) as H.
  cbv zeta in H.
  change (path_of ([] ++ ["c"])) with "/c" in H.
  assert (Hfh : fh (run (pgfuse_create "/c" Example.file_mode) (Example.world false)
                      Example.no_handle).2 = 4) by (vm_compute; reflexivity).
  destruct (run (pgfuse_create "/c" Example.file_mode)
              (Example.world false) Example.no_handle) as [[r w'] fi'].
  cbn [snd] in Hfh.
  destruct H as (_ & _ & _ & H).
  destruct (H (Spec.Build_DirRow 0 "/" (Example.meta_of (Z.lor S_IFDIR 0x1ED) 0))
              ltac:(vm_compute; reflexivity) ltac:(vm_compute; congruence)
              ltac:(vm_compute; reflexivity) ltac:(vm_compute; reflexivity))
    as (Hr & meta & Hpath & _ & _ & Htime & Huid & Hgid & Hmode & Hsize).
  destruct (Htime 77 5 eq_refl) as (Hc & Hm & Ha).
  rewrite Hfh in Hpath.
  split; [exact Hr |]. split; [exact Hfh |].
  exists meta. split; [exact Hpath |].
  split; [exact Hc |]. split; [exact Hm |]. split; [exact Ha |].
  split; [exact Huid |]. split; [exact Hgid |]. split; [exact Hmode | exact Hsize].
Defined.

(** C10, at the target "/a" and the new path /l under the root of the
    example, with a buffer of 8 bytes. *)
Lemma symlink_readlink_witness :
  acquires (Example.world false) = true /\
  read_only (data (Example.world false)) = false /\
  allocates 2 (Example.world false) = true /\
  0 < block_size (data (Example.world false)) /\
  forallb name_ok [] = true /\
  name_ok "l" = true /\
  Spec.path_to_row Example.database "/"
    = inr (Spec.Build_DirRow 0 "/" (Example.meta_of (Z.lor S_IFDIR 0x1ED) 0)) /\
  Spec.path_to_row Example.database "/l" = inl ENOENT /\
  strlen "/a" + 1 <= 8 /\
  let '(r, w1, _) := run (pgfuse_symlink "/a" "/l") (Example.world false) tt in
  let '(r', _, out) := run (pgfuse_readlink "/l" 8) w1 Example.buffer in
  r = 0 /\ r' = 0 /\
  out = (list_byte_of_string "/a" ++ x00 :: drop 3 Example.buffer)%list.
Proof.
  do 9 (split; [vm_compute; first [reflexivity | congruence | split; congruence] |]).
  pose proof (symlink_readlink (Example.world false) [] "l" "/a" 8 Example.buffer
                (Spec.Build_DirRow 0 "/" (Example.meta_of (Z.lor S_IFDIR 0x1ED) 0))
                eq_refl eq_refl eq_refl eq_refl eq_refl eq_refl eq_refl) as H.
  cbv zeta in H. change (path_of ([] ++ ["l"])) with "/l" in H.
  destruct (run (pgfuse_symlink "/a" "/l") (Example.world false) tt) as [[r w1] []].
  destruct (run (pgfuse_readlink "/l" 8) w1 Example.buffer) as [[r' w2] out].
  destruct H as (H1 & _ & H2 & H3); [vm_compute; congruence .. |].
  repeat split; assumption.
Defined.

(** ** The further properties at concrete inputs *)


(** The double free on the example where the second strdup fails:
    create and mkdir of /c stop after acquire and begin, with the
    transaction open and the connection 7 not released. *)
Lemma double_free_example :
  let '(r1, w1, _) := run (pgfuse_create "/c" Example.file_mode) Sample.starved Example.no_handle in
  let '(r2, w2, _) := run (pgfuse_mkdir "/c" 0x1ED) Sample.starved tt in
  r1 = NO_RETURN /\ trace w1 = [EvAcquire 7%nat; EvBegin; EvAbort] /\
  txn w1 = Some Example.database /\
  r2 = NO_RETURN /\ trace w2 = [EvAcquire 7%nat; EvBegin; EvAbort] /\
  txn w2 = Some Example.database.
Proof. vm_compute. repeat split. Qed.


(** X4, at the file /a of the example. *)
Lemma readers_leave_database_witness :
  txn Sample.rw = None /\
  db (run (pgfuse_getattr "/a") Sample.rw stat_zero).1.2 = db Sample.rw /\
  db (run (pgfuse_fgetattr "/a" (Example.handle 1)) Sample.rw stat_zero).1.2 = db Sample.rw /\
  db (run (pgfuse_readdir "/a" 2 (Example.handle 1)) Sample.rw []).1.2 = db Sample.rw /\
  db (run (pgfuse_read "/a" 2 0 (Example.handle 1)) Sample.rw Example.buffer).1.2
    = db Sample.rw /\
  db (run (pgfuse_readlink "/a" 2) Sample.rw Example.buffer).1.2 = db Sample.rw.
Proof.
  split; [reflexivity |].
  apply (readers_leave_database Sample.rw "/a" (Example.handle 1) stat_zero [] Example.buffer
           2 0). reflexivity.
Defined.

(** X5, at the path /missing, which the example does not have. *)
Lemma lookup_errors_propagate_witness :
  acquires Sample.rw = true /\
  psql_read_meta_from_path (view Sample.rw) "/missing" = (- ENOENT, Spec.meta_zero) /\
  - 2 ^ 31 <= - ENOENT < 0 /\
  fails_with Sample.rw stat_zero (- ENOENT) (run (pgfuse_getattr "/missing") Sample.rw stat_zero) /\
  fails_with Sample.rw Example.no_handle (- ENOENT)
    (run (pgfuse_open "/missing") Sample.rw Example.no_handle) /\
  fails_with Sample.rw ([] ++ ["."; ".."])%list (- ENOENT)
    (run (pgfuse_readdir "/missing" 3 Example.no_handle) Sample.rw []) /\
  fails_with Sample.rw tt (- ENOENT) (run (pgfuse_rmdir "/missing") Sample.rw tt) /\
  fails_with Sample.rw tt (- ENOENT) (run (pgfuse_unlink "/missing") Sample.rw tt) /\
  fails_with Sample.rw tt (- ENOENT) (run (pgfuse_truncate "/missing" 3) Sample.rw tt) /\
  fails_with Sample.rw tt (- ENOENT) (run (pgfuse_chmod "/missing" 8) Sample.rw tt) /\
  fails_with Sample.rw tt (- ENOENT) (run (pgfuse_chown "/missing" 8 3) Sample.rw tt) /\
  fails_with Sample.rw Example.buffer (- ENOENT)
    (run (pgfuse_readlink "/missing" 8) Sample.rw Example.buffer) /\
  fails_with Sample.rw tt (- ENOENT)
    (run (pgfuse_utimens "/missing" Example.t5 Example.t6) Sample.rw tt).
Proof.
  do 3 (split; [holds |]).
  apply (lookup_errors_propagate Sample.rw "/missing" (- ENOENT) Spec.meta_zero
           Example.no_handle stat_zero Example.buffer [] 8 3 Example.t5 Example.t6); holds.
Defined.

(** X6, at the handle 0 on the read-write example. *)
Lemma zero_handle_rejected_witness :
  acquires Sample.rw = true /\
  fh Example.no_handle = 0 /\
  let w' := with_event (EvRelease (acquired Sample.rw)) (with_event EvRollback
              (with_txn None (with_event EvBegin
                 (with_event (EvAcquire (acquired Sample.rw)) Sample.rw)))) in
  run (pgfuse_read "/a" 2 3 Example.no_handle) Sample.rw Example.buffer
    = (- EBADF, w', Example.buffer) /\
  run (pgfuse_write "/a" Example.xy 2 3 Example.no_handle) Sample.rw tt = (- EBADF, w', tt) /\
  run (pgfuse_ftruncate "/a" 3 Example.no_handle) Sample.rw tt = (- EBADF, w', tt).
Proof.
  do 2 (split; [holds |]).
  apply (zero_handle_rejected Sample.rw "/a" Example.xy Example.buffer 2 3 Example.no_handle);
    holds.
Defined.

(** X7, at the file /a of the example. *)
Lemma open_cases_witness :
  acquires Sample.rw = true /\
  psql_read_meta_from_path (view Sample.rw) "/a" = (1, Sample.file) /\
  0 <= 1 /\
  psql_write_meta (view Sample.rw) 1 "/a" Sample.file = (0, Example.database) /\
  - 2 ^ 31 <= 0 < 2 ^ 31 /\
  let '(r, w', fi') := run (pgfuse_open "/a") Sample.rw Example.no_handle in
  r = (if S_ISDIR (mode Sample.file) then - EISDIR
       else if read_only (data Sample.rw)
               && negb (Z.land (flags Example.no_handle) O_ACCMODE =? O_RDONLY) then - EROFS
       else if 0 <? 0 then 0 else 0) /\
  fi' = (if r =? 0 then set_fh 1 Example.no_handle else Example.no_handle) /\
  db w' = (if r =? 0 then Example.database else db Sample.rw) /\
  txn w' = None.
Proof.
  do 5 (split; [holds |]).
  apply (open_cases Sample.rw "/a" Example.no_handle 1 Sample.file 0 Example.database); holds.
Defined.

(** X8, at the file /a of the example. *)
Lemma unlink_cases_witness :
  acquires Sample.rw = true /\
  psql_read_meta_from_path (view Sample.rw) "/a" = (1, Sample.file) /\
  0 <= 1 /\
  psql_delete_file (view Sample.rw) 1 "/a"
    = (0, (Spec.psql_delete_file Example.database 1 "/a").2) /\
  - 2 ^ 31 <= 0 < 2 ^ 31 /\
  let '(r, w', _) := run (pgfuse_unlink "/a") Sample.rw tt in
  r = (if S_ISDIR (mode Sample.file) then - EPERM
       else if read_only (data Sample.rw) then - EROFS
       else if 0 <? 0 then 0 else 0) /\
  db w' = (if r =? 0 then (Spec.psql_delete_file Example.database 1 "/a").2 else db Sample.rw) /\
  txn w' = None.
Proof.
  do 5 (split; [holds |]).
  apply (unlink_cases Sample.rw "/a" 1 Sample.file 0
           (Spec.psql_delete_file Example.database 1 "/a").2); holds.
Defined.

(** X9, at the empty directory /d of the example. *)
Lemma rmdir_cases_witness :
  acquires Sample.rw = true /\
  psql_read_meta_from_path (view Sample.rw) "/d" = (3, Sample.directory) /\
  0 <= 3 /\
  psql_delete_dir (view Sample.rw) 3 "/d"
    = (0, (Spec.psql_delete_dir Example.database 3 "/d").2) /\
  - 2 ^ 31 <= 0 < 2 ^ 31 /\
  let '(r, w', _) := run (pgfuse_rmdir "/d") Sample.rw tt in
  r = (if negb (S_ISDIR (mode Sample.directory)) then - ENOTDIR
       else if read_only (data Sample.rw) then - EROFS
       else if 0 <? 0 then 0 else 0) /\
  db w' = (if r =? 0 then (Spec.psql_delete_dir Example.database 3 "/d").2 else db Sample.rw) /\
  txn w' = None.
Proof.
  do 5 (split; [holds |]).
  apply (rmdir_cases Sample.rw "/d" 3 Sample.directory 0
           (Spec.psql_delete_dir Example.database 3 "/d").2); holds.
Defined.

(** X10, at the file /a of the example, cut to 3 bytes. *)
Lemma truncate_cases_witness :
  acquires Sample.rw = true /\
  psql_read_meta_from_path (view Sample.rw) "/a" = (1, Sample.file) /\
  0 <= 1 /\
  psql_truncate (view Sample.rw) (block_size (data Sample.rw)) 1 "/a" 3
    = (0, Example.database) /\
  - 2 ^ 31 <= 0 < 2 ^ 31 /\
  psql_write_meta Example.database 1 "/a" (set_size 3 Sample.file)
    = (0, (Spec.psql_write_meta Example.database 1 "/a" (set_size 3 Sample.file)).2) /\
  - 2 ^ 31 <= 0 < 2 ^ 31 /\
  let '(r, w', _) := run (pgfuse_truncate "/a" 3) Sample.rw tt in
  r = (if S_ISDIR (mode Sample.file) then - EISDIR
       else if read_only (data Sample.rw) then - EROFS
       else if 0 <? 0 then 0
       else if 0 <? 0 then 0 else 0) /\
  db w' = (if r =? 0
           then (Spec.psql_write_meta Example.database 1 "/a" (set_size 3 Sample.file)).2
           else db Sample.rw) /\
  txn w' = None.
Proof.
  do 7 (split; [holds |]).
  apply (truncate_cases Sample.rw "/a" 3 1 Sample.file 0 Example.database 0
           (Spec.psql_write_meta Example.database 1 "/a" (set_size 3 Sample.file)).2); holds.
Defined.

(** X11, at the handle of the file /a of the example, cut to 3 bytes. *)
Lemma ftruncate_cases_witness :
  acquires Sample.rw = true /\
  fh (Example.handle 1) <> 0 /\
  psql_read_meta (view Sample.rw) (fh (Example.handle 1)) "/a" = (1, Sample.file) /\
  0 <= 1 /\
  psql_truncate (view Sample.rw) (block_size (data Sample.rw)) (fh (Example.handle 1)) "/a" 3
    = (0, Example.database) /\
  - 2 ^ 31 <= 0 < 2 ^ 31 /\
  psql_write_meta Example.database (fh (Example.handle 1)) "/a" (set_size 3 Sample.file)
    = (0, (Spec.psql_write_meta Example.database 1 "/a" (set_size 3 Sample.file)).2) /\
  - 2 ^ 31 <= 0 < 2 ^ 31 /\
  let '(r, w', _) := run (pgfuse_ftruncate "/a" 3 (Example.handle 1)) Sample.rw tt in
  r = (if read_only (data Sample.rw) then - EROFS
       else if 0 <? 0 then 0
       else if 0 <? 0 then 0 else 0) /\
  db w' = (if r =? 0
           then (Spec.psql_write_meta Example.database 1 "/a" (set_size 3 Sample.file)).2
           else db Sample.rw) /\
  txn w' = None.
Proof.
  do 8 (split; [holds |]).
  apply (ftruncate_cases Sample.rw "/a" 3 (Example.handle 1) 1 Sample.file 0 Example.database 0
           (Spec.psql_write_meta Example.database 1 "/a" (set_size 3 Sample.file)).2); holds.
Defined.

(** X12, at the file /a of the example, with mode 0100600, uid 8 and gid 9. *)
Lemma chmod_chown_cases_witness :
  acquires Sample.rw = true /\
  psql_read_meta_from_path (view Sample.rw) "/a" = (1, Sample.file) /\
  0 <= 1 /\
  psql_write_meta (view Sample.rw) 1 "/a" (set_mode 0x8180 Sample.file)
    = (0, (Spec.psql_write_meta Example.database 1 "/a" (set_mode 0x8180 Sample.file)).2) /\
  - 2 ^ 31 <= 0 < 2 ^ 31 /\
  psql_write_meta (view Sample.rw) 1 "/a" (set_gid 9 (set_uid 8 Sample.file))
    = (0, (Spec.psql_write_meta Example.database 1 "/a" (set_gid 9 (set_uid 8 Sample.file))).2) /\
  - 2 ^ 31 <= 0 < 2 ^ 31 /\
  let '(r1, w1, _) := run (pgfuse_chmod "/a" 0x8180) Sample.rw tt in
  let '(r2, w2, _) := run (pgfuse_chown "/a" 8 9) Sample.rw tt in
  r1 = (if read_only (data Sample.rw) then - EROFS else if 0 <? 0 then 0 else 0) /\
  db w1 = (if read_only (data Sample.rw) || (0 <? 0) then db Sample.rw
           else (Spec.psql_write_meta Example.database 1 "/a" (set_mode 0x8180 Sample.file)).2) /\
  r2 = (if read_only (data Sample.rw) then - EROFS else 0) /\
  db w2 = (if read_only (data Sample.rw) || (0 <? 0) then db Sample.rw
           else (Spec.psql_write_meta Example.database 1 "/a"
                   (set_gid 9 (set_uid 8 Sample.file))).2).
Proof.
  do 7 (split; [holds |]).
  apply (chmod_chown_cases Sample.rw "/a" 0x8180 8 9 1 Sample.file
           0 (Spec.psql_write_meta Example.database 1 "/a" (set_mode 0x8180 Sample.file)).2
           0 (Spec.psql_write_meta Example.database 1 "/a"
                (set_gid 9 (set_uid 8 Sample.file))).2); holds.
Defined.

(** X13, at the file /a of the example, with the times 5 and 6. *)
Lemma utimens_cases_witness :
  acquires Sample.rw = true /\
  psql_read_meta_from_path (view Sample.rw) "/a" = (1, Sample.file) /\
  0 <= 1 /\
  psql_write_meta (view Sample.rw) 1 "/a" (set_mtime Example.t6 (set_atime Example.t5 Sample.file))
    = (0, (Spec.psql_write_meta Example.database 1 "/a"
             (set_mtime Example.t6 (set_atime Example.t5 Sample.file))).2) /\
  - 2 ^ 31 <= 0 < 2 ^ 31 /\
  let '(r, w', _) := run (pgfuse_utimens "/a" Example.t5 Example.t6) Sample.rw tt in
  r = (if 0 <? 0 then 0 else 0) /\
  db w' = (if 0 <? 0 then db Sample.rw
           else (Spec.psql_write_meta Example.database 1 "/a"
                   (set_mtime Example.t6 (set_atime Example.t5 Sample.file))).2) /\
  txn w' = None.
Proof.
  do 5 (split; [holds |]).
  apply (utimens_cases Sample.rw "/a" Example.t5 Example.t6 1 Sample.file 0
           (Spec.psql_write_meta Example.database 1 "/a"
              (set_mtime Example.t6 (set_atime Example.t5 Sample.file))).2); holds.
Defined.

(** X14, at the root of the example. *)
Lemma readdir_cases_witness :
  acquires Sample.rw = true /\
  psql_read_meta_from_path (view Sample.rw) "/" = (0, Sample.directory) /\
  0 <= 0 < 2 ^ 31 /\
  psql_readdir (view Sample.rw) 0 = (0, ["a"; "b"; "d"]) /\
  - 2 ^ 31 <= 0 < 2 ^ 31 /\
  let '(r, w', out) := run (pgfuse_readdir "/" 0 Example.no_handle) Sample.rw [] in
  r = (if 0 <? 0 then 0 else 0) /\
  out = ([] ++ ["."; ".."] ++ ["a"; "b"; "d"])%list /\
  (txn Sample.rw = None -> db w' = db Sample.rw).
Proof.
  do 5 (split; [holds |]).
  apply (readdir_cases Sample.rw "/" 0 Example.no_handle [] 0 Sample.directory 0
           ["a"; "b"; "d"]); holds.
Defined.

(** X15, at a root directory with the id 2^31. *)
Lemma readdir_truncates_id_witness :
  acquires Sample.far = true /\
  psql_read_meta_from_path (view Sample.far) "/"
    = (2 ^ 31, Example.meta_of (Z.lor S_IFDIR 0x1ED) (2 ^ 31)) /\
  2 ^ 31 <= 2 ^ 31 < 2 ^ 32 /\
  let '(r, w', out) := run (pgfuse_readdir "/" 0 Example.no_handle) Sample.far [] in
  r = 2 ^ 31 - 2 ^ 32 /\ r < 0 /\ out = ([] ++ ["."; ".."])%list.
Proof.
  do 3 (split; [holds |]).
  apply (readdir_truncates_id Sample.far "/" 0 Example.no_handle [] (2 ^ 31)
           (Example.meta_of (Z.lor S_IFDIR 0x1ED) (2 ^ 31))); holds.
Defined.

(** X16, reading the five bytes of /a into a buffer of eight. *)
Lemma read_cases_witness :
  acquires Sample.written = true /\
  fh (Example.handle 1) <> 0 /\
  psql_read_buf (view Sample.written) (block_size (data Sample.written)) (fh (Example.handle 1))
    "/a" Example.buffer 0 5 = (5, Sample.read_back) /\
  - 2 ^ 31 <= 5 < 2 ^ 31 /\
  let '(r, w', out) :=
    run (pgfuse_read "/a" 5 0 (Example.handle 1)) Sample.written Example.buffer in
  r = 5 /\ out = Sample.read_back /\ (txn Sample.written = None -> db w' = db Sample.written).
Proof.
  do 4 (split; [holds |]).
  apply (read_cases Sample.written "/a" Example.buffer 5 0 (Example.handle 1) 5
           Sample.read_back); holds.
Defined.

(** X17, at the new directory /e in the example, at the time 77 s and
    5 us: the directory gets the id 4 and the metadata [Sample.made]. *)
Lemma mkdir_cases_witness :
  acquires Sample.rw = true /\
  read_only (data Sample.rw) = false /\
  allocates 2 Sample.rw = true /\
  timeofday Sample.rw = Some (77, 5) /\
  psql_read_meta_from_path (view Sample.rw) (dirname "/e") = (0, Sample.directory) /\
  0 <= 0 /\
  psql_create_dir (view Sample.rw) 0 "/e" (basename "/e") Sample.made
    = (0, (Spec.psql_create_dir Example.database 0 "/e" "e" Sample.made).2) /\
  - 2 ^ 31 <= 0 < 2 ^ 31 /\
  let '(r, w', _) := run (pgfuse_mkdir "/e" 0x1ED) Sample.rw tt in
  r = 0 /\
  db w' = (Spec.psql_create_dir Example.database 0 "/e" "e" Sample.made).2 /\
  psql_read_meta_from_path (db w') "/e" = (4, Sample.made) /\
  txn w' = None.
Proof.
  do 8 (split; [holds |]).
  pose proof (mkdir_cases Sample.rw "/e" 0x1ED 0 Sample.directory 77 5 0
                (Spec.psql_create_dir Example.database 0 "/e" "e" Sample.made).2
                ltac:(holds) ltac:(holds) ltac:(holds) ltac:(holds) ltac:(holds) ltac:(holds)
                ltac:(holds) ltac:(holds)) as H.
  destruct (run (pgfuse_mkdir "/e" 0x1ED) Sample.rw tt) as [[r w'] u].
  destruct H as (Hr & Hdb & Htxn).
  change (r = 0) in Hr. rewrite Hr in Hdb. change (0 =? 0) with true in Hdb. cbv iota in Hdb.
  split; [exact Hr |]. split; [exact Hdb |]. split; [| exact Htxn].
  rewrite Hdb. vm_compute. reflexivity.
Defined.

(** X18, at the file /a of the example, renamed to /d/z. *)
Lemma rename_new_name_witness :
  acquires Sample.rw = true /\
  allocates 2 Sample.rw = true /\
  psql_read_meta_from_path (view Sample.rw) "/a" = (1, Sample.file) /\
  0 <= 1 /\
  psql_read_meta_from_path (view Sample.rw) "/d/z" = (- ENOENT, Spec.meta_zero) /\
  (- ENOENT = - ENOENT \/ - ENOENT = 0) /\
  psql_read_meta_from_path (view Sample.rw) (dirname "/d/z") = (3, Sample.directory) /\
  0 <= 3 /\
  psql_rename (view Sample.rw) 1 (parent_id Sample.file) 3 (basename "/d/z") "/a" "/d/z"
    = (0, (Spec.psql_rename Example.database 1 0 3 "z" "/a" "/d/z").2) /\
  - 2 ^ 31 <= 0 < 2 ^ 31 /\
  let '(r, w', _) := run (pgfuse_rename "/a" "/d/z") Sample.rw tt in
  let done fin :=
    txn w' = None /\
    trace w' = (trace Sample.rw ++ [EvAcquire (acquired Sample.rw); EvBegin; fin;
                                    EvRelease (acquired Sample.rw)])%list in
  if negb (S_ISDIR (mode Sample.directory)) then
    r = - EIO /\ db w' = db Sample.rw /\ done EvRollback
  else if read_only (data Sample.rw) then
    r = - EROFS /\ db w' = db Sample.rw /\ done EvRollback
  else r = 0 /\ db w' = (Spec.psql_rename Example.database 1 0 3 "z" "/a" "/d/z").2 /\
       done EvCommit.
Proof.
  do 5 (split; [holds |]). split; [left; reflexivity |]. do 4 (split; [holds |]).
  apply (rename_new_name Sample.rw "/a" "/d/z" 1 Sample.file (- ENOENT) Spec.meta_zero
           3 Sample.directory 0 (Spec.psql_rename Example.database 1 0 3 "z" "/a" "/d/z").2);
    first [ holds | left; reflexivity ].
Defined.

(** X19, at the link /l to /a in the example. *)
Lemma symlink_cases_witness :
  acquires Sample.rw = true /\
  allocates 2 Sample.rw = true /\
  psql_read_meta_from_path (view Sample.rw) (dirname "/l") = (0, Sample.directory) /\
  0 <= 0 /\
  psql_create_file (view Sample.rw) 0 "/l" (basename "/l")
    (new_meta Sample.rw (strlen "/a") (Z.lor 0x1FF S_IFLNK) Sample.directory)
    = (0, (Spec.psql_create_file Example.database 0 "/l" "l"
             (new_meta Sample.rw 2 (Z.lor 0x1FF S_IFLNK) Sample.directory)).2) /\
  0 <= 0 < 2 ^ 31 /\
  psql_read_meta_from_path
    (Spec.psql_create_file Example.database 0 "/l" "l"
       (new_meta Sample.rw 2 (Z.lor 0x1FF S_IFLNK) Sample.directory)).2 "/l" = Example.link /\
  0 <= Example.link.1 /\
  psql_write_buf
    (Spec.psql_create_file Example.database 0 "/l" "l"
       (new_meta Sample.rw 2 (Z.lor 0x1FF S_IFLNK) Sample.directory)).2
    (block_size (data Sample.rw)) Example.link.1 "/l" (list_byte_of_string "/a") 0 (strlen "/a")
    = (2, db Example.linked) /\
  0 <= 2 < 2 ^ 31 /\
  let '(r, w', _) := run (pgfuse_symlink "/a" "/l") Sample.rw tt in
  r = (if negb (S_ISDIR (mode Sample.directory)) then - ENOENT
       else if read_only (data Sample.rw) then - EROFS
       else if 2 =? strlen "/a" then 0 else - EIO) /\
  db w' = (if r =? 0 then db Example.linked else db Sample.rw) /\
  txn w' = None.
Proof.
  do 10 (split; [holds |]).
  apply (symlink_cases Sample.rw "/a" "/l" 0 Sample.directory 0
           (Spec.psql_create_file Example.database 0 "/l" "l"
              (new_meta Sample.rw 2 (Z.lor 0x1FF S_IFLNK) Sample.directory)).2
           Example.link.1 Example.link.2 2 (db Example.linked)); holds.
Defined.

(** X20, at the new file /c in the example. *)
Lemma create_outcome_witness :
  acquires Sample.rw = true /\
  read_only (data Sample.rw) = false /\
  allocates 2 Sample.rw = true /\
  psql_read_meta_from_path (view Sample.rw) "/c" = (- ENOENT, Spec.meta_zero) /\
  psql_read_meta_from_path (view Sample.rw) (dirname "/c") = (0, Sample.directory) /\
  0 <= 0 /\
  S_ISDIR (mode Sample.directory) = true /\
  psql_create_file (view Sample.rw) 0 "/c" (basename "/c")
    (new_meta Sample.rw 0 Example.file_mode Sample.directory)
    = (0, (Spec.psql_create_file Example.database 0 "/c" "c"
             (new_meta Sample.rw 0 Example.file_mode Sample.directory)).2) /\
  0 <= 0 < 2 ^ 31 /\
  psql_read_meta_from_path
    (Spec.psql_create_file Example.database 0 "/c" "c"
       (new_meta Sample.rw 0 Example.file_mode Sample.directory)).2 "/c"
    = (4, Spec.set_parent_id 0 (new_meta Sample.rw 0 Example.file_mode Sample.directory)) /\
  let '(r, w', fi') := run (pgfuse_create "/c" Example.file_mode) Sample.rw Example.no_handle in
  r = 0 /\
  fi' = (if 4 <? 0 then Example.no_handle else set_fh 4 Example.no_handle) /\
  db w' = (if 4 <? 0 then db Sample.rw
           else (Spec.psql_create_file Example.database 0 "/c" "c"
                   (new_meta Sample.rw 0 Example.file_mode Sample.directory)).2) /\
  txn w' = None.
Proof.
  do 10 (split; [holds |]).
  apply (create_outcome Sample.rw "/c" Example.file_mode Example.no_handle Spec.meta_zero
           0 Sample.directory 0
           (Spec.psql_create_file Example.database 0 "/c" "c"
              (new_meta Sample.rw 0 Example.file_mode Sample.directory)).2
           4 (Spec.set_parent_id 0 (new_meta Sample.rw 0 Example.file_mode Sample.directory)));
    holds.
Defined.

(** X21, at two bytes at offset 3 of the file /a of the example, with blocks of 4 bytes. *)
Lemma write_then_read_witness :
  acquires Sample.rw = true /\
  read_only (data Sample.rw) = false /\
  0 < fh (Example.handle 1) /\
  0 < block_size (data Sample.rw) /\
  Spec.find_id (Spec.dir (view Sample.rw)) (fh (Example.handle 1))
    = Some {| Spec.row_id := 1; Spec.row_name := "a"; Spec.row_meta := Sample.file |} /\
  0 <= size Sample.file < 2 ^ 63 /\
  0 <= 3 /\
  3 + Z.of_nat (length Example.xy) < 2 ^ 63 /\
  Z.of_nat (length Example.xy) <= INT_MAX /\
  let len := Z.of_nat (length Example.xy) in
  let '(r, w1, _) := run (pgfuse_write "/a" Example.xy len 3 (Example.handle 1)) Sample.rw tt in
  let '(r', _, out) := run (pgfuse_read "/a" len 3 (Example.handle 1)) w1 Example.buffer in
  r = len /\ r' = len /\ out = (Example.xy ++ drop (length Example.xy) Example.buffer)%list.
Proof.
  do 9 (split; [holds |]).
  apply (write_then_read Sample.rw "/a" Example.xy Example.buffer 3 (Example.handle 1)
           {| Spec.row_id := 1; Spec.row_name := "a"; Spec.row_meta := Sample.file |}); holds.
Defined.

(** X22, at the file /a of the example, with the times 5 and 6. *)
Lemma utimens_then_getattr_witness :
  acquires Sample.rw = true /\
  NoDup (map Spec.row_id (Spec.dir (view Sample.rw))) /\
  Spec.path_to_row (view Sample.rw) "/a"
    = inr {| Spec.row_id := 1; Spec.row_name := "a"; Spec.row_meta := Sample.file |} /\
  0 <= 1 /\
  let '(r, w1, _) := run (pgfuse_utimens "/a" Example.t5 Example.t6) Sample.rw tt in
  let '(r', _, st) := run (pgfuse_getattr "/a") w1 stat_zero in
  r = 0 /\ r' = 0 /\
  st_ino st = 1 /\
  st_atime st = tv_sec Example.t5 /\
  st_mtime st = tv_sec Example.t6 /\
  st_ctime st = tv_sec (ctime Sample.file) /\
  st_mode st = mode Sample.file /\
  st_uid st = uid Sample.file /\
  st_gid st = gid Sample.file.
Proof.
  split; [holds |]. split; [apply (bool_decide_unpack _); vm_compute; reflexivity |].
  do 2 (split; [holds |]).
  apply (utimens_then_getattr Sample.rw "/a" Example.t5 Example.t6 stat_zero
           {| Spec.row_id := 1; Spec.row_name := "a"; Spec.row_meta := Sample.file |});
    first [ holds | apply (bool_decide_unpack _); vm_compute; reflexivity ].
Defined.

(** X23, at the file /a of the example, with mode 0100600, uid 8 and gid 9. *)
Lemma chmod_chown_then_getattr_witness :
  acquires Sample.rw = true /\
  read_only (data Sample.rw) = false /\
  NoDup (map Spec.row_id (Spec.dir (view Sample.rw))) /\
  Spec.path_to_row (view Sample.rw) "/a"
    = inr {| Spec.row_id := 1; Spec.row_name := "a"; Spec.row_meta := Sample.file |} /\
  0 <= 1 /\
  S_ISDIR 0x8180 = S_ISDIR (mode Sample.file) /\
  (let '(r, w1, _) := run (pgfuse_chmod "/a" 0x8180) Sample.rw tt in
   let '(r', _, st) := run (pgfuse_getattr "/a") w1 stat_zero in
   r = 0 /\ r' = 0 /\ st_mode st = 0x8180 /\
   st_uid st = uid Sample.file /\ st_gid st = gid Sample.file) /\
  (let '(r, w1, _) := run (pgfuse_chown "/a" 8 9) Sample.rw tt in
   let '(r', _, st) := run (pgfuse_getattr "/a") w1 stat_zero in
   r = 0 /\ r' = 0 /\ st_uid st = 8 /\ st_gid st = 9 /\
   st_mode st = mode Sample.file).
Proof.
  do 2 (split; [holds |]). split; [apply (bool_decide_unpack _); vm_compute; reflexivity |].
  do 3 (split; [holds |]).
  apply (chmod_chown_then_getattr Sample.rw "/a" 0x8180 8 9 stat_zero
           {| Spec.row_id := 1; Spec.row_name := "a"; Spec.row_meta := Sample.file |});
    first [ holds | apply (bool_decide_unpack _); vm_compute; reflexivity ].
Defined.

(** X24, at the file /a of the example, cut to 3 bytes. *)
Lemma truncate_then_getattr_witness :
  acquires Sample.rw = true /\
  read_only (data Sample.rw) = false /\
  NoDup (map Spec.row_id (Spec.dir (view Sample.rw))) /\
  Spec.path_to_row (view Sample.rw) "/a"
    = inr {| Spec.row_id := 1; Spec.row_name := "a"; Spec.row_meta := Sample.file |} /\
  0 <= 1 /\
  S_ISDIR (mode Sample.file) = false /\
  0 <= 3 < 2 ^ 63 /\
  let '(r, w1, _) := run (pgfuse_truncate "/a" 3) Sample.rw tt in
  let '(r', _, st) := run (pgfuse_getattr "/a") w1 stat_zero in
  r = 0 /\ r' = 0 /\ st_size st = 3 /\ st_ino st = 1.
Proof.
  do 2 (split; [holds |]). split; [apply (bool_decide_unpack _); vm_compute; reflexivity |].
  do 4 (split; [holds |]).
  apply (truncate_then_getattr Sample.rw "/a" 3 stat_zero
           {| Spec.row_id := 1; Spec.row_name := "a"; Spec.row_meta := Sample.file |});
    first [ holds | apply (bool_decide_unpack _); vm_compute; reflexivity ].
Defined.

(** X25, at the new directory /d/e in the example, at the time 77 s, for
    the caller with uid 1000 and gid 100. *)
Lemma mkdir_then_getattr_witness :
  acquires Sample.rw = true /\
  read_only (data Sample.rw) = false /\
  allocates 2 Sample.rw = true /\
  timeofday Sample.rw = Some (77, 5) /\
  forallb name_ok ["d"] = true /\
  name_ok "e" = true /\
  Spec.path_to_row (view Sample.rw) (path_of ["d"])
    = inr {| Spec.row_id := 3; Spec.row_name := "d"; Spec.row_meta := Sample.directory |} /\
  0 <= 3 < 2 ^ 31 /\
  S_ISDIR (mode Sample.directory) = true /\
  Spec.path_to_row (view Sample.rw) (path_of (["d"] ++ ["e"])) = inl ENOENT /\
  let path := path_of (["d"] ++ ["e"]) in
  let '(r, w1, _) := run (pgfuse_mkdir path 0x1ED) Sample.rw tt in
  let '(r1, _, st) := run (pgfuse_getattr path) w1 stat_zero in
  let '(r2, _, out) := run (pgfuse_readdir (path_of ["d"]) 0 Example.no_handle) w1 [] in
  r = 0 /\ r1 = 0 /\ r2 = 0 /\
  st_mode st = Z.lor 0x1ED S_IFDIR /\
  (Z.land 0x1ED S_IFMT = 0 -> S_ISDIR (st_mode st) = true) /\
  st_uid st = 1000 /\
  st_gid st = 100 /\
  st_size st = 0 /\
  st_ctime st = 77 /\
  st_mtime st = 77 /\
  st_atime st = 77 /\
  In "e" out.
Proof.
  do 10 (split; [holds |]).
  exact (mkdir_then_getattr Sample.rw ["d"] "e" 0x1ED stat_zero Example.no_handle
           {| Spec.row_id := 3; Spec.row_name := "d"; Spec.row_meta := Sample.directory |} 77 5
           ltac:(holds) ltac:(holds) ltac:(holds) ltac:(holds) ltac:(holds) ltac:(holds)
           ltac:(holds) ltac:(holds) ltac:(holds) ltac:(holds)).
Defined.

(** X26, at the options of [main] and the arguments of a usual call. *)
Lemma opt_proc_arguments_witness :
  Options.conninfo (options_of_main 4096) = None /\
  Options.mountpoint (options_of_main 4096) = None /\
  (let '(r1, o1) := pgfuse_opt_proc (options_of_main 4096) "dbname=test" FUSE_OPT_KEY_NONOPT true in
   let '(r2, o2) := pgfuse_opt_proc o1 "/mnt" FUSE_OPT_KEY_NONOPT true in
   let '(r3, o3) := pgfuse_opt_proc o2 "/tmp" FUSE_OPT_KEY_NONOPT false in
   r1 = 0 /\ r2 = 1 /\ r3 = -1 /\
   o2 = Options.set_mountpoint (Some "/mnt")
          (Options.set_conninfo (Some "dbname=test") (options_of_main 4096)) /\
   o3 = o2) /\
  (let '(r1, o1) := pgfuse_opt_proc (options_of_main 4096) "dbname=test" FUSE_OPT_KEY_NONOPT false in
   let '(r2, o2) := pgfuse_opt_proc o1 "/mnt" FUSE_OPT_KEY_NONOPT true in
   r1 = 0 /\ o1 = options_of_main 4096 /\ r2 = 0 /\
   Options.conninfo o2 = Some "/mnt" /\ Options.mountpoint o2 = None).
Proof.
  do 2 (split; [reflexivity |]).
  apply (opt_proc_arguments (options_of_main 4096) "dbname=test" "/mnt" "/tmp" false);
    reflexivity.
Defined.

(** X28, at a failing query for the tablespace locations. *)
Lemma statfs_leaves_transaction_open_witness :
  acquires Sample.rw = true /\
  psql_get_tablespace_locations (PgsqlFs := fs_ops (- EIO) []) (view Sample.rw) 16 = (- EIO, []) /\
  - 2 ^ 31 <= - EIO < 2 ^ 31 /\
  let '(r, w', out) :=
    run (pgfuse_statfs (PgsqlFs0 := fs_ops (- EIO) []) 16 255 Sample.host "/") Sample.rw
      statvfs_zero in
  let left_open :=
    txn w' = Some (view Sample.rw) /\
    trace w' = (trace Sample.rw ++ [EvAcquire (acquired Sample.rw); EvBegin])%list /\
    out = statvfs_zero in
  (- EIO < 0 -> r = - EIO /\ left_open) /\
  (0 <= - EIO ->
   forall before mnt_dir after e fs,
     strdup_ok Sample.rw = [] ->
     mtab Sample.host = (before ++ Some mnt_dir :: after)%list ->
     Forall (fun e => match e with
                      | None => True
                      | Some d => holds_location d (map (resolve Sample.host) []) = false /\
                                  strlen d < 2 ^ 31
                      end) before ->
     strlen mnt_dir < 2 ^ 31 ->
     holds_location mnt_dir (map (resolve Sample.host) []) = true ->
     statfs Sample.host mnt_dir = (e, fs) ->
     - 2 ^ 31 <= e < 0 ->
     r = e /\ left_open).
Proof.
  do 3 (split; [holds |]).
  apply (statfs_leaves_transaction_open (PgsqlFs0 := fs_ops (- EIO) []) 16 255 Sample.rw
           Sample.host "/" statvfs_zero (- EIO) []); holds.
Defined.

(** X29, at a host where /var, mounted before /, holds the tablespace and
    has less space than /: the space of / is reported. *)
Lemma statfs_last_mount_witness :
  acquires Sample.rw = true /\
  strdup_ok Sample.rw = [] /\
  psql_get_tablespace_locations (PgsqlFs := fs_ops 0 Sample.tablespace) (view Sample.rw) 16
    = (0, Sample.tablespace) /\
  0 <= 0 < 2 ^ 31 /\
  0 <= psql_get_fs_blocks_used (PgsqlFs := fs_ops 0 Sample.tablespace) (view Sample.rw) /\
  0 <= psql_get_fs_files_used (PgsqlFs := fs_ops 0 Sample.tablespace) (view Sample.rw) /\
  (forall p, 0 <= to_int (statfs Sample.host p).1) /\
  mtab Sample.host = ([Some "/var"; None] ++ Some "/" :: [Some "/home"])%list /\
  Forall (fun e => match e with None => True | Some d => strlen d < 2 ^ 31 end)
    [Some "/var"; None] /\
  strlen "/" < 2 ^ 31 /\
  holds_location "/" (map (resolve Sample.host) Sample.tablespace) = true /\
  Forall (fun e => match e with
                   | None => True
                   | Some d => holds_location d (map (resolve Sample.host) Sample.tablespace)
                               = false /\ strlen d < 2 ^ 31
                   end) [Some "/home"] /\
  let '(r, w', out) :=
    run (pgfuse_statfs (PgsqlFs0 := fs_ops 0 Sample.tablespace) 16 255 Sample.host "/")
      Sample.rw statvfs_zero in
  let fs := (statfs Sample.host "/").2 in
  r = 0 /\
  f_bsize out = to_size_t (block_size (data Sample.rw)) /\
  f_frsize out = to_size_t (block_size (data Sample.rw)) /\
  f_bavail out = to_size_t (smaller_of (Vfs.f_bavail fs) (Vfs.f_frsize fs)
                              (block_size (data Sample.rw)) INT64_MAX) /\
  (0 < block_size (data Sample.rw) ->
   0 <= Vfs.f_bavail fs * Vfs.f_frsize fs
     < to_size_t (INT64_MAX * block_size (data Sample.rw)) ->
   f_bavail out = Vfs.f_bavail fs * Vfs.f_frsize fs / block_size (data Sample.rw)) /\
  f_bfree out = f_bavail out /\
  f_ffree out = INT64_MAX /\
  f_favail out = INT64_MAX /\
  f_fsid out = 0x4FE3A364 /\
  f_flag out = (if read_only (data Sample.rw) then ST_RDONLY else 0) /\
  f_namemax out = to_size_t 255 /\
  txn w' = None /\
  trace w' = (trace Sample.rw ++ [EvAcquire (acquired Sample.rw); EvBegin; EvCommit;
                                  EvRelease (acquired Sample.rw)])%list.
Proof.
  assert (Hfs : forall p, 0 <= to_int (statfs Sample.host p).1) by (intros p; holds).
  assert (Hbefore : Forall (fun e => match e with None => True | Some d => strlen d < 2 ^ 31 end)
                      [Some "/var"; None]) by (repeat constructor).
  assert (Hafter : Forall (fun e => match e with
                     | None => True
                     | Some d => holds_location d (map (resolve Sample.host) Sample.tablespace)
                                 = false /\ strlen d < 2 ^ 31
                     end) [Some "/home"]) by (repeat constructor).
  do 6 (split; [holds |]). split; [exact Hfs |]. split; [reflexivity |].
  split; [exact Hbefore |]. do 2 (split; [holds |]). split; [exact Hafter |].
  apply (statfs_last_mount (PgsqlFs0 := fs_ops 0 Sample.tablespace) 16 255 Sample.rw
           Sample.host "/" statvfs_zero 0 Sample.tablespace [Some "/var"; None] [Some "/home"] "/");
    first [ exact Hfs | exact Hbefore | exact Hafter | holds ].
Defined.

(** X30, at the file /a of the example. *)
Lemma unlink_then_getattr_witness :
  acquires Sample.rw = true /\
  read_only (data Sample.rw) = false /\
  NoDup (map Spec.row_id (Spec.dir (view Sample.rw))) /\
  NoDup (map entry (Spec.dir (view Sample.rw))) /\
  forallb name_ok [] = true /\
  name_ok "a" = true /\
  Spec.path_to_row (view Sample.rw) (path_of ([] ++ ["a"]))
    = inr {| Spec.row_id := 1; Spec.row_name := "a"; Spec.row_meta := Sample.file |} /\
  0 <= 1 /\
  S_ISDIR (mode Sample.file) = false /\
  let path := path_of ([] ++ ["a"]) in
  let '(r, w1, _) := run (pgfuse_unlink path) Sample.rw tt in
  let '(r', _, st) := run (pgfuse_getattr path) w1 stat_zero in
  r = 0 /\ r' = - ENOENT /\ st = stat_zero.
Proof.
  do 2 (split; [holds |]).
  do 2 (split; [apply (bool_decide_unpack _); vm_compute; reflexivity |]).
  do 5 (split; [holds |]).
  apply (unlink_then_getattr Sample.rw [] "a" stat_zero
           {| Spec.row_id := 1; Spec.row_name := "a"; Spec.row_meta := Sample.file |});
    first [ holds | apply (bool_decide_unpack _); vm_compute; reflexivity ].
Defined.
